(** * RouteGPT backend: the directions controller

    A shallow embedding of the directions controller of the RouteGPT
    backend and of the helpers it is built from:

    - [addLocationQualifier], [getDistanceContext], [getTrafficStatus]:
      the pure helpers;
    - [extractLocationsAndMode], [classifyQuery] and the formatters: the
      calls to the generative model;
    - [Controller.getDirections]: the handler of the controller that
      consults [routeCache];
    - [RoutesDirections.getDirections]: the handler of the controller
      that comes with the router, which has no cache.

    Conventions of the embedding.

    - A JavaScript string is the [string] of the bytes of its UTF-8 form
      (a lone surrogate being the three bytes of its code point).
      [toLowerCase] is the default case conversion of Unicode, with the
      data of version 14.0: the simple lower-case mappings, the capital I
      with dot above and the final sigma.  [trim] removes the white space
      and the line terminators of ECMAScript.  Bytes that are not the
      UTF-8 form of a text are left as they are, ASCII letters apart.
    - The distances that the provider reports (metres) are exact
      rationals [Q].  The durations (seconds) are the binary64 numbers of
      the engine, [float]: [getTrafficStatus] computes with them and
      rounds as the engine does.  A property that is not there
      ([undefined]) is [None].  [Binary64] has the distance helper on
      binary64 numbers, to evaluate it at the thresholds.
    - A handler runs in a state and exception monad [M] over a [World]:
      the cache table, the wall clock and the log of the upstream calls
      issued so far.  The replies of the generative model and of the
      directions provider come from the oracles of an [Env].
    - The two calls under [Promise.all] are issued in the order in which
      they are written, and their outcome is looked at once both have
      been issued. *)

From Stdlib Require Import String Ascii List ZArith NArith QArith Bool Lia Lqa Floats.
From stdpp Require Import gmap strings.

Open Scope string_scope.

(** ** JavaScript strings *)

Module JS.

(** *** Characters

    A string is held as the bytes of its UTF-8 form.  A character is a
    byte together with the continuation bytes [10xxxxxx] that follow
    it, so that the characters of a text are its code points. *)

Definition isASCII (b : ascii) : bool := (N_of_ascii b <? 128)%N.

Definition isContinuation (b : ascii) : bool :=
  ((128 <=? N_of_ascii b) && (N_of_ascii b <? 192))%N.

Definition startsWithContinuation (c : string) : bool :=
  match c with
  | EmptyString => false
  | String b _ => isContinuation b
  end.

Fixpoint characters (s : string) : list string :=
  match s with
  | EmptyString => []
  | String b s' =>
      match characters s' with
      | [] => [String b EmptyString]
      | c :: l =>
          if startsWithContinuation c then String b c :: l
          else String b EmptyString :: c :: l
      end
  end.

Definition join (l : list string) : string := fold_right append EmptyString l.

Definition payload (b : ascii) : N := (N_of_ascii b - 128)%N.

(** The code point that a character encodes, when it is well formed. *)
Definition codePoint (c : string) : option N :=
  match c with
  | String a EmptyString =>
      if isASCII a then Some (N_of_ascii a) else None
  | String a (String b EmptyString) =>
      let n := ((N_of_ascii a - 192) * 64 + payload b)%N in
      if ((192 <=? N_of_ascii a) && (N_of_ascii a <? 224))%N
         && isContinuation b && (128 <=? n)%N
      then Some n else None
  | String a (String b (String d EmptyString)) =>
      let n := ((N_of_ascii a - 224) * 4096 + payload b * 64 + payload d)%N in
      if ((224 <=? N_of_ascii a) && (N_of_ascii a <? 240))%N
         && isContinuation b && isContinuation d && (2048 <=? n)%N
      then Some n else None
  | String a (String b (String d (String e EmptyString))) =>
      let n := ((N_of_ascii a - 240) * 262144 + payload b * 4096
                + payload d * 64 + payload e)%N in
      if ((240 <=? N_of_ascii a) && (N_of_ascii a <? 248))%N
         && isContinuation b && isContinuation d && isContinuation e
         && (65536 <=? n)%N && (n <? 1114112)%N
      then Some n else None
  | _ => None
  end.

(** The character of a code point. *)
Definition fromCodePoint (n : N) : string :=
  let tail (k : N) := ascii_of_N (128 + k mod 64)%N in
  if (n <? 128)%N then String (ascii_of_N n) EmptyString
  else if (n <? 2048)%N then
    String (ascii_of_N (192 + n / 64)%N) (String (tail n) EmptyString)
  else if (n <? 65536)%N then
    String (ascii_of_N (224 + n / 4096)%N)
      (String (tail (n / 64)%N) (String (tail n) EmptyString))
  else
    String (ascii_of_N (240 + n / 262144)%N)
      (String (tail (n / 4096)%N)
         (String (tail (n / 64)%N) (String (tail n) EmptyString))).

Definition inRanges (n : N) (ranges : list (N * N)) : bool :=
  existsb (fun r => (fst r <=? n)%N && (n <=? snd r)%N) ranges.

(** *** Case

    The data of the Unicode Character Database, version 14.0. *)

(** The simple lower-case mappings beyond ASCII, in runs
    [(first, count, stride, image)]: the code points [first + stride * k]
    for [k < count] map to [image + stride * k]. *)
Definition lowerCaseRuns : list (N * N * N * N) :=
  [
    (0xC0, 23, 1, 0xE0); (0xD8, 7, 1, 0xF8);
    (0x100, 24, 2, 0x101); (0x132, 3, 2, 0x133); (0x139, 8, 2, 0x13A);
    (0x14A, 23, 2, 0x14B); (0x178, 1, 1, 0xFF); (0x179, 3, 2, 0x17A);
    (0x181, 1, 1, 0x253); (0x182, 2, 2, 0x183); (0x186, 1, 1, 0x254);
    (0x187, 1, 1, 0x188); (0x189, 2, 1, 0x256); (0x18B, 1, 1, 0x18C);
    (0x18E, 1, 1, 0x1DD); (0x18F, 1, 1, 0x259); (0x190, 1, 1, 0x25B);
    (0x191, 1, 1, 0x192); (0x193, 1, 1, 0x260); (0x194, 1, 1, 0x263);
    (0x196, 1, 1, 0x269); (0x197, 1, 1, 0x268); (0x198, 1, 1, 0x199);
    (0x19C, 1, 1, 0x26F); (0x19D, 1, 1, 0x272); (0x19F, 1, 1, 0x275);
    (0x1A0, 3, 2, 0x1A1); (0x1A6, 1, 1, 0x280); (0x1A7, 1, 1, 0x1A8);
    (0x1A9, 1, 1, 0x283); (0x1AC, 1, 1, 0x1AD); (0x1AE, 1, 1, 0x288);
    (0x1AF, 1, 1, 0x1B0); (0x1B1, 2, 1, 0x28A); (0x1B3, 2, 2, 0x1B4);
    (0x1B7, 1, 1, 0x292); (0x1B8, 1, 1, 0x1B9); (0x1BC, 1, 1, 0x1BD);
    (0x1C4, 1, 1, 0x1C6); (0x1C5, 1, 1, 0x1C6); (0x1C7, 1, 1, 0x1C9);
    (0x1C8, 1, 1, 0x1C9); (0x1CA, 1, 1, 0x1CC); (0x1CB, 9, 2, 0x1CC);
    (0x1DE, 9, 2, 0x1DF); (0x1F1, 1, 1, 0x1F3); (0x1F2, 2, 2, 0x1F3);
    (0x1F6, 1, 1, 0x195); (0x1F7, 1, 1, 0x1BF); (0x1F8, 20, 2, 0x1F9);
    (0x220, 1, 1, 0x19E); (0x222, 9, 2, 0x223); (0x23A, 1, 1, 0x2C65);
    (0x23B, 1, 1, 0x23C); (0x23D, 1, 1, 0x19A); (0x23E, 1, 1, 0x2C66);
    (0x241, 1, 1, 0x242); (0x243, 1, 1, 0x180); (0x244, 1, 1, 0x289);
    (0x245, 1, 1, 0x28C); (0x246, 5, 2, 0x247); (0x370, 2, 2, 0x371);
    (0x376, 1, 1, 0x377); (0x37F, 1, 1, 0x3F3); (0x386, 1, 1, 0x3AC);
    (0x388, 3, 1, 0x3AD); (0x38C, 1, 1, 0x3CC); (0x38E, 2, 1, 0x3CD);
    (0x391, 17, 1, 0x3B1); (0x3A3, 9, 1, 0x3C3); (0x3CF, 1, 1, 0x3D7);
    (0x3D8, 12, 2, 0x3D9); (0x3F4, 1, 1, 0x3B8); (0x3F7, 1, 1, 0x3F8);
    (0x3F9, 1, 1, 0x3F2); (0x3FA, 1, 1, 0x3FB); (0x3FD, 3, 1, 0x37B);
    (0x400, 16, 1, 0x450); (0x410, 32, 1, 0x430); (0x460, 17, 2, 0x461);
    (0x48A, 27, 2, 0x48B); (0x4C0, 1, 1, 0x4CF); (0x4C1, 7, 2, 0x4C2);
    (0x4D0, 48, 2, 0x4D1); (0x531, 38, 1, 0x561); (0x10A0, 38, 1, 0x2D00);
    (0x10C7, 1, 1, 0x2D27); (0x10CD, 1, 1, 0x2D2D);
    (0x13A0, 80, 1, 0xAB70); (0x13F0, 6, 1, 0x13F8);
    (0x1C90, 43, 1, 0x10D0); (0x1CBD, 3, 1, 0x10FD);
    (0x1E00, 75, 2, 0x1E01); (0x1E9E, 1, 1, 0xDF); (0x1EA0, 48, 2, 0x1EA1);
    (0x1F08, 8, 1, 0x1F00); (0x1F18, 6, 1, 0x1F10); (0x1F28, 8, 1, 0x1F20);
    (0x1F38, 8, 1, 0x1F30); (0x1F48, 6, 1, 0x1F40); (0x1F59, 4, 2, 0x1F51);
    (0x1F68, 8, 1, 0x1F60); (0x1F88, 8, 1, 0x1F80); (0x1F98, 8, 1, 0x1F90);
    (0x1FA8, 8, 1, 0x1FA0); (0x1FB8, 2, 1, 0x1FB0); (0x1FBA, 2, 1, 0x1F70);
    (0x1FBC, 1, 1, 0x1FB3); (0x1FC8, 4, 1, 0x1F72); (0x1FCC, 1, 1, 0x1FC3);
    (0x1FD8, 2, 1, 0x1FD0); (0x1FDA, 2, 1, 0x1F76); (0x1FE8, 2, 1, 0x1FE0);
    (0x1FEA, 2, 1, 0x1F7A); (0x1FEC, 1, 1, 0x1FE5); (0x1FF8, 2, 1, 0x1F78);
    (0x1FFA, 2, 1, 0x1F7C); (0x1FFC, 1, 1, 0x1FF3); (0x2126, 1, 1, 0x3C9);
    (0x212A, 1, 1, 0x6B); (0x212B, 1, 1, 0xE5); (0x2132, 1, 1, 0x214E);
    (0x2160, 16, 1, 0x2170); (0x2183, 1, 1, 0x2184);
    (0x24B6, 26, 1, 0x24D0); (0x2C00, 48, 1, 0x2C30);
    (0x2C60, 1, 1, 0x2C61); (0x2C62, 1, 1, 0x26B); (0x2C63, 1, 1, 0x1D7D);
    (0x2C64, 1, 1, 0x27D); (0x2C67, 3, 2, 0x2C68); (0x2C6D, 1, 1, 0x251);
    (0x2C6E, 1, 1, 0x271); (0x2C6F, 1, 1, 0x250); (0x2C70, 1, 1, 0x252);
    (0x2C72, 1, 1, 0x2C73); (0x2C75, 1, 1, 0x2C76); (0x2C7E, 2, 1, 0x23F);
    (0x2C80, 50, 2, 0x2C81); (0x2CEB, 2, 2, 0x2CEC);
    (0x2CF2, 1, 1, 0x2CF3); (0xA640, 23, 2, 0xA641);
    (0xA680, 14, 2, 0xA681); (0xA722, 7, 2, 0xA723);
    (0xA732, 31, 2, 0xA733); (0xA779, 2, 2, 0xA77A);
    (0xA77D, 1, 1, 0x1D79); (0xA77E, 5, 2, 0xA77F); (0xA78B, 1, 1, 0xA78C);
    (0xA78D, 1, 1, 0x265); (0xA790, 2, 2, 0xA791); (0xA796, 10, 2, 0xA797);
    (0xA7AA, 1, 1, 0x266); (0xA7AB, 1, 1, 0x25C); (0xA7AC, 1, 1, 0x261);
    (0xA7AD, 1, 1, 0x26C); (0xA7AE, 1, 1, 0x26A); (0xA7B0, 1, 1, 0x29E);
    (0xA7B1, 1, 1, 0x287); (0xA7B2, 1, 1, 0x29D); (0xA7B3, 1, 1, 0xAB53);
    (0xA7B4, 8, 2, 0xA7B5); (0xA7C4, 1, 1, 0xA794); (0xA7C5, 1, 1, 0x282);
    (0xA7C6, 1, 1, 0x1D8E); (0xA7C7, 2, 2, 0xA7C8); (0xA7D0, 1, 1, 0xA7D1);
    (0xA7D6, 2, 2, 0xA7D7); (0xA7F5, 1, 1, 0xA7F6);
    (0xFF21, 26, 1, 0xFF41); (0x10400, 40, 1, 0x10428);
    (0x104B0, 36, 1, 0x104D8); (0x10570, 11, 1, 0x10597);
    (0x1057C, 15, 1, 0x105A3); (0x1058C, 7, 1, 0x105B3);
    (0x10594, 2, 1, 0x105BB); (0x10C80, 51, 1, 0x10CC0);
    (0x118A0, 32, 1, 0x118C0); (0x16E40, 32, 1, 0x16E60);
    (0x1E900, 34, 1, 0x1E922)
  ]%N.

Definition expand (run : N * N * N * N) : list (N * N) :=
  match run with
  | (first, count, stride, image) =>
      map (fun k => (first + stride * N.of_nat k, image + stride * N.of_nat k)%N)
        (seq 0 (N.to_nat count))
  end.

Definition lowerCaseMapping : list (N * N) := flat_map expand lowerCaseRuns.

Definition simpleLowerCase (n : N) : option N :=
  option_map snd (find (fun p => (fst p =? n)%N) lowerCaseMapping).

(** The cased letters that are not case-ignorable. *)
Definition cased : list (N * N) :=
  [
    (0x41, 0x5A); (0x61, 0x7A); (0xAA, 0xAA); (0xB5, 0xB5); (0xBA, 0xBA);
    (0xC0, 0xD6); (0xD8, 0xF6); (0xF8, 0x1BA); (0x1BC, 0x1BF);
    (0x1C4, 0x293); (0x295, 0x2AF); (0x370, 0x373); (0x376, 0x377);
    (0x37B, 0x37D); (0x37F, 0x37F); (0x386, 0x386); (0x388, 0x38A);
    (0x38C, 0x38C); (0x38E, 0x3A1); (0x3A3, 0x3F5); (0x3F7, 0x481);
    (0x48A, 0x52F); (0x531, 0x556); (0x560, 0x588); (0x10A0, 0x10C5);
    (0x10C7, 0x10C7); (0x10CD, 0x10CD); (0x10D0, 0x10FA); (0x10FD, 0x10FF);
    (0x13A0, 0x13F5); (0x13F8, 0x13FD); (0x1C80, 0x1C88); (0x1C90, 0x1CBA);
    (0x1CBD, 0x1CBF); (0x1D00, 0x1D2B); (0x1D6B, 0x1D77); (0x1D79, 0x1D9A);
    (0x1E00, 0x1F15); (0x1F18, 0x1F1D); (0x1F20, 0x1F45); (0x1F48, 0x1F4D);
    (0x1F50, 0x1F57); (0x1F59, 0x1F59); (0x1F5B, 0x1F5B); (0x1F5D, 0x1F5D);
    (0x1F5F, 0x1F7D); (0x1F80, 0x1FB4); (0x1FB6, 0x1FBC); (0x1FBE, 0x1FBE);
    (0x1FC2, 0x1FC4); (0x1FC6, 0x1FCC); (0x1FD0, 0x1FD3); (0x1FD6, 0x1FDB);
    (0x1FE0, 0x1FEC); (0x1FF2, 0x1FF4); (0x1FF6, 0x1FFC); (0x2102, 0x2102);
    (0x2107, 0x2107); (0x210A, 0x2113); (0x2115, 0x2115); (0x2119, 0x211D);
    (0x2124, 0x2124); (0x2126, 0x2126); (0x2128, 0x2128); (0x212A, 0x212D);
    (0x212F, 0x2134); (0x2139, 0x2139); (0x213C, 0x213F); (0x2145, 0x2149);
    (0x214E, 0x214E); (0x2160, 0x217F); (0x2183, 0x2184); (0x24B6, 0x24E9);
    (0x2C00, 0x2C7B); (0x2C7E, 0x2CE4); (0x2CEB, 0x2CEE); (0x2CF2, 0x2CF3);
    (0x2D00, 0x2D25); (0x2D27, 0x2D27); (0x2D2D, 0x2D2D); (0xA640, 0xA66D);
    (0xA680, 0xA69B); (0xA722, 0xA76F); (0xA771, 0xA787); (0xA78B, 0xA78E);
    (0xA790, 0xA7CA); (0xA7D0, 0xA7D1); (0xA7D3, 0xA7D3); (0xA7D5, 0xA7D9);
    (0xA7F5, 0xA7F6); (0xA7FA, 0xA7FA); (0xAB30, 0xAB5A); (0xAB60, 0xAB68);
    (0xAB70, 0xABBF); (0xFB00, 0xFB06); (0xFB13, 0xFB17); (0xFF21, 0xFF3A);
    (0xFF41, 0xFF5A); (0x10400, 0x1044F); (0x104B0, 0x104D3);
    (0x104D8, 0x104FB); (0x10570, 0x1057A); (0x1057C, 0x1058A);
    (0x1058C, 0x10592); (0x10594, 0x10595); (0x10597, 0x105A1);
    (0x105A3, 0x105B1); (0x105B3, 0x105B9); (0x105BB, 0x105BC);
    (0x10C80, 0x10CB2); (0x10CC0, 0x10CF2); (0x118A0, 0x118DF);
    (0x16E40, 0x16E7F); (0x1D400, 0x1D454); (0x1D456, 0x1D49C);
    (0x1D49E, 0x1D49F); (0x1D4A2, 0x1D4A2); (0x1D4A5, 0x1D4A6);
    (0x1D4A9, 0x1D4AC); (0x1D4AE, 0x1D4B9); (0x1D4BB, 0x1D4BB);
    (0x1D4BD, 0x1D4C3); (0x1D4C5, 0x1D505); (0x1D507, 0x1D50A);
    (0x1D50D, 0x1D514); (0x1D516, 0x1D51C); (0x1D51E, 0x1D539);
    (0x1D53B, 0x1D53E); (0x1D540, 0x1D544); (0x1D546, 0x1D546);
    (0x1D54A, 0x1D550); (0x1D552, 0x1D6A5); (0x1D6A8, 0x1D6C0);
    (0x1D6C2, 0x1D6DA); (0x1D6DC, 0x1D6FA); (0x1D6FC, 0x1D714);
    (0x1D716, 0x1D734); (0x1D736, 0x1D74E); (0x1D750, 0x1D76E);
    (0x1D770, 0x1D788); (0x1D78A, 0x1D7A8); (0x1D7AA, 0x1D7C2);
    (0x1D7C4, 0x1D7CB); (0x1DF00, 0x1DF09); (0x1DF0B, 0x1DF1E);
    (0x1E900, 0x1E943); (0x1F130, 0x1F149); (0x1F150, 0x1F169);
    (0x1F170, 0x1F189)
  ]%N.

(** The case-ignorable characters. *)
Definition caseIgnorable : list (N * N) :=
  [
    (0x27, 0x27); (0x2E, 0x2E); (0x3A, 0x3A); (0x5E, 0x5E); (0x60, 0x60);
    (0xA8, 0xA8); (0xAD, 0xAD); (0xAF, 0xAF); (0xB4, 0xB4); (0xB7, 0xB8);
    (0x2B0, 0x36F); (0x374, 0x375); (0x37A, 0x37A); (0x384, 0x385);
    (0x387, 0x387); (0x483, 0x489); (0x559, 0x559); (0x55F, 0x55F);
    (0x591, 0x5BD); (0x5BF, 0x5BF); (0x5C1, 0x5C2); (0x5C4, 0x5C5);
    (0x5C7, 0x5C7); (0x5F4, 0x5F4); (0x600, 0x605); (0x610, 0x61A);
    (0x61C, 0x61C); (0x640, 0x640); (0x64B, 0x65F); (0x670, 0x670);
    (0x6D6, 0x6DD); (0x6DF, 0x6E8); (0x6EA, 0x6ED); (0x70F, 0x70F);
    (0x711, 0x711); (0x730, 0x74A); (0x7A6, 0x7B0); (0x7EB, 0x7F5);
    (0x7FA, 0x7FA); (0x7FD, 0x7FD); (0x816, 0x82D); (0x859, 0x85B);
    (0x888, 0x888); (0x890, 0x891); (0x898, 0x89F); (0x8C9, 0x902);
    (0x93A, 0x93A); (0x93C, 0x93C); (0x941, 0x948); (0x94D, 0x94D);
    (0x951, 0x957); (0x962, 0x963); (0x971, 0x971); (0x981, 0x981);
    (0x9BC, 0x9BC); (0x9C1, 0x9C4); (0x9CD, 0x9CD); (0x9E2, 0x9E3);
    (0x9FE, 0x9FE); (0xA01, 0xA02); (0xA3C, 0xA3C); (0xA41, 0xA42);
    (0xA47, 0xA48); (0xA4B, 0xA4D); (0xA51, 0xA51); (0xA70, 0xA71);
    (0xA75, 0xA75); (0xA81, 0xA82); (0xABC, 0xABC); (0xAC1, 0xAC5);
    (0xAC7, 0xAC8); (0xACD, 0xACD); (0xAE2, 0xAE3); (0xAFA, 0xAFF);
    (0xB01, 0xB01); (0xB3C, 0xB3C); (0xB3F, 0xB3F); (0xB41, 0xB44);
    (0xB4D, 0xB4D); (0xB55, 0xB56); (0xB62, 0xB63); (0xB82, 0xB82);
    (0xBC0, 0xBC0); (0xBCD, 0xBCD); (0xC00, 0xC00); (0xC04, 0xC04);
    (0xC3C, 0xC3C); (0xC3E, 0xC40); (0xC46, 0xC48); (0xC4A, 0xC4D);
    (0xC55, 0xC56); (0xC62, 0xC63); (0xC81, 0xC81); (0xCBC, 0xCBC);
    (0xCBF, 0xCBF); (0xCC6, 0xCC6); (0xCCC, 0xCCD); (0xCE2, 0xCE3);
    (0xD00, 0xD01); (0xD3B, 0xD3C); (0xD41, 0xD44); (0xD4D, 0xD4D);
    (0xD62, 0xD63); (0xD81, 0xD81); (0xDCA, 0xDCA); (0xDD2, 0xDD4);
    (0xDD6, 0xDD6); (0xE31, 0xE31); (0xE34, 0xE3A); (0xE46, 0xE4E);
    (0xEB1, 0xEB1); (0xEB4, 0xEBC); (0xEC6, 0xEC6); (0xEC8, 0xECD);
    (0xF18, 0xF19); (0xF35, 0xF35); (0xF37, 0xF37); (0xF39, 0xF39);
    (0xF71, 0xF7E); (0xF80, 0xF84); (0xF86, 0xF87); (0xF8D, 0xF97);
    (0xF99, 0xFBC); (0xFC6, 0xFC6); (0x102D, 0x1030); (0x1032, 0x1037);
    (0x1039, 0x103A); (0x103D, 0x103E); (0x1058, 0x1059); (0x105E, 0x1060);
    (0x1071, 0x1074); (0x1082, 0x1082); (0x1085, 0x1086); (0x108D, 0x108D);
    (0x109D, 0x109D); (0x10FC, 0x10FC); (0x135D, 0x135F); (0x1712, 0x1714);
    (0x1732, 0x1733); (0x1752, 0x1753); (0x1772, 0x1773); (0x17B4, 0x17B5);
    (0x17B7, 0x17BD); (0x17C6, 0x17C6); (0x17C9, 0x17D3); (0x17D7, 0x17D7);
    (0x17DD, 0x17DD); (0x180B, 0x180F); (0x1843, 0x1843); (0x1885, 0x1886);
    (0x18A9, 0x18A9); (0x1920, 0x1922); (0x1927, 0x1928); (0x1932, 0x1932);
    (0x1939, 0x193B); (0x1A17, 0x1A18); (0x1A1B, 0x1A1B); (0x1A56, 0x1A56);
    (0x1A58, 0x1A5E); (0x1A60, 0x1A60); (0x1A62, 0x1A62); (0x1A65, 0x1A6C);
    (0x1A73, 0x1A7C); (0x1A7F, 0x1A7F); (0x1AA7, 0x1AA7); (0x1AB0, 0x1ACE);
    (0x1B00, 0x1B03); (0x1B34, 0x1B34); (0x1B36, 0x1B3A); (0x1B3C, 0x1B3C);
    (0x1B42, 0x1B42); (0x1B6B, 0x1B73); (0x1B80, 0x1B81); (0x1BA2, 0x1BA5);
    (0x1BA8, 0x1BA9); (0x1BAB, 0x1BAD); (0x1BE6, 0x1BE6); (0x1BE8, 0x1BE9);
    (0x1BED, 0x1BED); (0x1BEF, 0x1BF1); (0x1C2C, 0x1C33); (0x1C36, 0x1C37);
    (0x1C78, 0x1C7D); (0x1CD0, 0x1CD2); (0x1CD4, 0x1CE0); (0x1CE2, 0x1CE8);
    (0x1CED, 0x1CED); (0x1CF4, 0x1CF4); (0x1CF8, 0x1CF9); (0x1D2C, 0x1D6A);
    (0x1D78, 0x1D78); (0x1D9B, 0x1DFF); (0x1FBD, 0x1FBD); (0x1FBF, 0x1FC1);
    (0x1FCD, 0x1FCF); (0x1FDD, 0x1FDF); (0x1FED, 0x1FEF); (0x1FFD, 0x1FFE);
    (0x200B, 0x200F); (0x2018, 0x2019); (0x2024, 0x2024); (0x2027, 0x2027);
    (0x202A, 0x202E); (0x2060, 0x2064); (0x2066, 0x206F); (0x2071, 0x2071);
    (0x207F, 0x207F); (0x2090, 0x209C); (0x20D0, 0x20F0); (0x2C7C, 0x2C7D);
    (0x2CEF, 0x2CF1); (0x2D6F, 0x2D6F); (0x2D7F, 0x2D7F); (0x2DE0, 0x2DFF);
    (0x2E2F, 0x2E2F); (0x3005, 0x3005); (0x302A, 0x302D); (0x3031, 0x3035);
    (0x303B, 0x303B); (0x3099, 0x309E); (0x30FC, 0x30FE); (0xA015, 0xA015);
    (0xA4F8, 0xA4FD); (0xA60C, 0xA60C); (0xA66F, 0xA672); (0xA674, 0xA67D);
    (0xA67F, 0xA67F); (0xA69C, 0xA69F); (0xA6F0, 0xA6F1); (0xA700, 0xA721);
    (0xA770, 0xA770); (0xA788, 0xA78A); (0xA7F2, 0xA7F4); (0xA7F8, 0xA7F9);
    (0xA802, 0xA802); (0xA806, 0xA806); (0xA80B, 0xA80B); (0xA825, 0xA826);
    (0xA82C, 0xA82C); (0xA8C4, 0xA8C5); (0xA8E0, 0xA8F1); (0xA8FF, 0xA8FF);
    (0xA926, 0xA92D); (0xA947, 0xA951); (0xA980, 0xA982); (0xA9B3, 0xA9B3);
    (0xA9B6, 0xA9B9); (0xA9BC, 0xA9BD); (0xA9CF, 0xA9CF); (0xA9E5, 0xA9E6);
    (0xAA29, 0xAA2E); (0xAA31, 0xAA32); (0xAA35, 0xAA36); (0xAA43, 0xAA43);
    (0xAA4C, 0xAA4C); (0xAA70, 0xAA70); (0xAA7C, 0xAA7C); (0xAAB0, 0xAAB0);
    (0xAAB2, 0xAAB4); (0xAAB7, 0xAAB8); (0xAABE, 0xAABF); (0xAAC1, 0xAAC1);
    (0xAADD, 0xAADD); (0xAAEC, 0xAAED); (0xAAF3, 0xAAF4); (0xAAF6, 0xAAF6);
    (0xAB5B, 0xAB5F); (0xAB69, 0xAB6B); (0xABE5, 0xABE5); (0xABE8, 0xABE8);
    (0xABED, 0xABED); (0xFB1E, 0xFB1E); (0xFBB2, 0xFBC2); (0xFE00, 0xFE0F);
    (0xFE13, 0xFE13); (0xFE20, 0xFE2F); (0xFE52, 0xFE52); (0xFE55, 0xFE55);
    (0xFEFF, 0xFEFF); (0xFF07, 0xFF07); (0xFF0E, 0xFF0E); (0xFF1A, 0xFF1A);
    (0xFF3E, 0xFF3E); (0xFF40, 0xFF40); (0xFF70, 0xFF70); (0xFF9E, 0xFF9F);
    (0xFFE3, 0xFFE3); (0xFFF9, 0xFFFB); (0x101FD, 0x101FD);
    (0x102E0, 0x102E0); (0x10376, 0x1037A); (0x10780, 0x10785);
    (0x10787, 0x107B0); (0x107B2, 0x107BA); (0x10A01, 0x10A03);
    (0x10A05, 0x10A06); (0x10A0C, 0x10A0F); (0x10A38, 0x10A3A);
    (0x10A3F, 0x10A3F); (0x10AE5, 0x10AE6); (0x10D24, 0x10D27);
    (0x10EAB, 0x10EAC); (0x10F46, 0x10F50); (0x10F82, 0x10F85);
    (0x11001, 0x11001); (0x11038, 0x11046); (0x11070, 0x11070);
    (0x11073, 0x11074); (0x1107F, 0x11081); (0x110B3, 0x110B6);
    (0x110B9, 0x110BA); (0x110BD, 0x110BD); (0x110C2, 0x110C2);
    (0x110CD, 0x110CD); (0x11100, 0x11102); (0x11127, 0x1112B);
    (0x1112D, 0x11134); (0x11173, 0x11173); (0x11180, 0x11181);
    (0x111B6, 0x111BE); (0x111C9, 0x111CC); (0x111CF, 0x111CF);
    (0x1122F, 0x11231); (0x11234, 0x11234); (0x11236, 0x11237);
    (0x1123E, 0x1123E); (0x112DF, 0x112DF); (0x112E3, 0x112EA);
    (0x11300, 0x11301); (0x1133B, 0x1133C); (0x11340, 0x11340);
    (0x11366, 0x1136C); (0x11370, 0x11374); (0x11438, 0x1143F);
    (0x11442, 0x11444); (0x11446, 0x11446); (0x1145E, 0x1145E);
    (0x114B3, 0x114B8); (0x114BA, 0x114BA); (0x114BF, 0x114C0);
    (0x114C2, 0x114C3); (0x115B2, 0x115B5); (0x115BC, 0x115BD);
    (0x115BF, 0x115C0); (0x115DC, 0x115DD); (0x11633, 0x1163A);
    (0x1163D, 0x1163D); (0x1163F, 0x11640); (0x116AB, 0x116AB);
    (0x116AD, 0x116AD); (0x116B0, 0x116B5); (0x116B7, 0x116B7);
    (0x1171D, 0x1171F); (0x11722, 0x11725); (0x11727, 0x1172B);
    (0x1182F, 0x11837); (0x11839, 0x1183A); (0x1193B, 0x1193C);
    (0x1193E, 0x1193E); (0x11943, 0x11943); (0x119D4, 0x119D7);
    (0x119DA, 0x119DB); (0x119E0, 0x119E0); (0x11A01, 0x11A0A);
    (0x11A33, 0x11A38); (0x11A3B, 0x11A3E); (0x11A47, 0x11A47);
    (0x11A51, 0x11A56); (0x11A59, 0x11A5B); (0x11A8A, 0x11A96);
    (0x11A98, 0x11A99); (0x11C30, 0x11C36); (0x11C38, 0x11C3D);
    (0x11C3F, 0x11C3F); (0x11C92, 0x11CA7); (0x11CAA, 0x11CB0);
    (0x11CB2, 0x11CB3); (0x11CB5, 0x11CB6); (0x11D31, 0x11D36);
    (0x11D3A, 0x11D3A); (0x11D3C, 0x11D3D); (0x11D3F, 0x11D45);
    (0x11D47, 0x11D47); (0x11D90, 0x11D91); (0x11D95, 0x11D95);
    (0x11D97, 0x11D97); (0x11EF3, 0x11EF4); (0x13430, 0x13438);
    (0x16AF0, 0x16AF4); (0x16B30, 0x16B36); (0x16B40, 0x16B43);
    (0x16F4F, 0x16F4F); (0x16F8F, 0x16F9F); (0x16FE0, 0x16FE1);
    (0x16FE3, 0x16FE4); (0x1AFF0, 0x1AFF3); (0x1AFF5, 0x1AFFB);
    (0x1AFFD, 0x1AFFE); (0x1BC9D, 0x1BC9E); (0x1BCA0, 0x1BCA3);
    (0x1CF00, 0x1CF2D); (0x1CF30, 0x1CF46); (0x1D167, 0x1D169);
    (0x1D173, 0x1D182); (0x1D185, 0x1D18B); (0x1D1AA, 0x1D1AD);
    (0x1D242, 0x1D244); (0x1DA00, 0x1DA36); (0x1DA3B, 0x1DA6C);
    (0x1DA75, 0x1DA75); (0x1DA84, 0x1DA84); (0x1DA9B, 0x1DA9F);
    (0x1DAA1, 0x1DAAF); (0x1E000, 0x1E006); (0x1E008, 0x1E018);
    (0x1E01B, 0x1E021); (0x1E023, 0x1E024); (0x1E026, 0x1E02A);
    (0x1E130, 0x1E13D); (0x1E2AE, 0x1E2AE); (0x1E2EC, 0x1E2EF);
    (0x1E8D0, 0x1E8D6); (0x1E944, 0x1E94B); (0x1F3FB, 0x1F3FF);
    (0xE0001, 0xE0001); (0xE0020, 0xE007F); (0xE0100, 0xE01EF)
  ]%N.

Inductive CaseClass := CaseIgnorable | Cased | Uncased.

Definition caseClass (c : string) : CaseClass :=
  match codePoint c with
  | Some n =>
      if inRanges n caseIgnorable then CaseIgnorable
      else if inRanges n cased then Cased
      else Uncased
  | None => Uncased
  end.

(** The characters ahead are case-ignorable ones and then a cased
    letter. *)
Fixpoint followedByCased (l : list string) : bool :=
  match l with
  | [] => false
  | c :: l' =>
      match caseClass c with
      | CaseIgnorable => followedByCased l'
      | Cased => true
      | Uncased => false
      end
  end.

(** A cased letter and then case-ignorable characters lie behind, once
    [c] has been read. *)
Definition precededByCased (before : bool) (c : string) : bool :=
  match caseClass c with
  | CaseIgnorable => before
  | Cased => true
  | Uncased => false
  end.

Definition isUpperCase (c : ascii) : bool :=
  let n := nat_of_ascii c in (65 <=? n)%nat && (n <=? 90)%nat.

Definition lowerChar (c : ascii) : ascii :=
  if isUpperCase c then ascii_of_nat (nat_of_ascii c + 32) else c.

Definition capitalSigma : string := fromCodePoint 0x3A3.
Definition smallSigma : string := fromCodePoint 0x3C3.
Definition finalSigma : string := fromCodePoint 0x3C2.

(** The lower case of a character other than the capital sigma: an
    ASCII letter, the capital I with a dot above (which gives an [i] and
    a combining dot), and the simple mappings. *)
Definition lowerCharacter (c : string) : list string :=
  match c with
  | EmptyString => [c]
  | String a r =>
      if isASCII a then [String (lowerChar a) r]
      else
        match codePoint c with
        | Some n =>
            if (n =? 0x130)%N then [fromCodePoint 0x69; fromCodePoint 0x307]
            else
              match simpleLowerCase n with
              | Some m => [fromCodePoint m]
              | None => [c]
              end
        | None => [c]
        end
  end.

(** A capital sigma becomes a final sigma when a cased letter precedes
    it and none follows (case-ignorable characters set aside), and a
    small sigma otherwise. *)
Definition lowerCharacterAt (before : bool) (c : string)
    (ahead : list string) : list string :=
  if String.eqb c capitalSigma then
    [if before && negb (followedByCased ahead) then finalSigma
     else smallSigma]
  else lowerCharacter c.

Fixpoint lowerCharacters (before : bool) (l : list string) : list string :=
  match l with
  | [] => []
  | c :: l' =>
      (lowerCharacterAt before c l'
       ++ lowerCharacters (precededByCased before c) l')%list
  end.

(** [s.toLowerCase()] *)
Definition toLowerCase (s : string) : string :=
  join (lowerCharacters false (characters s)).

(** *** White space *)

(** WhiteSpace and LineTerminator: TAB, LF, VT, FF, CR, SPACE, NO-BREAK
    SPACE, the other space separators, LINE SEPARATOR, PARAGRAPH
    SEPARATOR and ZERO WIDTH NO-BREAK SPACE. *)
Definition whiteSpace : list N :=
  [ 0x9; 0xA; 0xB; 0xC; 0xD; 0x20; 0xA0; 0x1680; 0x2000; 0x2001; 0x2002;
    0x2003; 0x2004; 0x2005; 0x2006; 0x2007; 0x2008; 0x2009; 0x200A;
    0x2028; 0x2029; 0x202F; 0x205F; 0x3000; 0xFEFF ]%N.

Definition isWhiteSpace (c : string) : bool :=
  match codePoint c with
  | Some n => existsb (N.eqb n) whiteSpace
  | None => false
  end.

Fixpoint dropStart (l : list string) : list string :=
  match l with
  | [] => []
  | c :: l' => if isWhiteSpace c then dropStart l' else l
  end.

Fixpoint dropEnd (l : list string) : list string :=
  match l with
  | [] => []
  | c :: l' =>
      match dropEnd l' with
      | [] => if isWhiteSpace c then [] else [c]
      | t => c :: t
      end
  end.

(** [s.trim()] *)
Definition trim (s : string) : string :=
  join (dropEnd (dropStart (characters s))).

(** [s.startsWith(p)] *)
Fixpoint startsWith (s p : string) {struct p} : bool :=
  match p with
  | EmptyString => true
  | String a p' =>
      match s with
      | EmptyString => false
      | String b s' => Ascii.eqb a b && startsWith s' p'
      end
  end.

(** [s.includes(p)]: [p] occurs in [s] at some position. *)
Fixpoint includes (s p : string) : bool :=
  startsWith s p ||
  match s with
  | EmptyString => false
  | String _ s' => includes s' p
  end.

(** The character [c] occurs in [s]. *)
Fixpoint hasChar (c : ascii) (s : string) : bool :=
  match s with
  | EmptyString => false
  | String a s' => Ascii.eqb a c || hasChar c s'
  end.

(** A string is falsy exactly when it is empty. *)
Definition truthy (s : string) : bool :=
  match s with EmptyString => false | _ => true end.

End JS.

(** ** The location qualifier *)

Definition lagosAreas : list string :=
  [ "Ikeja"; "Victoria Island"; "Lekki"; "Ajah"; "Ikoyi"; "Surulere";
    "Yaba"; "Apapa"; "Oshodi"; "Mushin"; "Maryland"; "Ojota"; "Ogudu";
    "Gbagada"; "Magodo"; "Ojodu"; "Berger"; "Agege"; "Ikorodu"; "Epe" ].

(** The test of the first [if]:
    [lagosAreas.some(area => location.toLowerCase().includes(area.toLowerCase())
                             && !location.toLowerCase().includes('lagos'))] *)
Definition isUnqualifiedLagosArea (location : string) : bool :=
  existsb
    (fun area =>
       JS.includes (JS.toLowerCase location) (JS.toLowerCase area)
       && negb (JS.includes (JS.toLowerCase location) "lagos"))
    lagosAreas.

Definition addLocationQualifier (location : string) : string :=
  if isUnqualifiedLagosArea location then
    location ++ ", Lagos, Nigeria"
  else if negb (JS.includes (JS.toLowerCase location) "nigeria") then
    location ++ ", Nigeria"
  else
    location.

(** What the specification calls "mentions": [w] occurs in the lower-cased
    location. *)
Definition mentions (location w : string) : Prop :=
  exists pre post, JS.toLowerCase location = pre ++ w ++ post.

Definition mentionsLagosArea (location : string) : Prop :=
  exists area, In area lagosAreas /\ mentions location (JS.toLowerCase area).

(** A pattern that neither holds a comma nor occurs in [" nigeria"]: the
    suffix [", Nigeria"] cannot make it appear. *)
Definition separable (p : string) : bool :=
  negb (JS.hasChar "," p) && negb (JS.includes " nigeria" p).

(** ** Distances and durations *)

(** The provider's [{text, value}] object of a distance: [value] is in
    metres. *)
Record TextValue := { text : string; value : option Q }.

(** The provider's [{text, value}] object of a duration: [value] is in
    seconds, as the engine holds it. *)
Module Duration.

Record t := { text : string; value : option float }.

End Duration.

Module Num.

(** [x || d] *)
Definition orElse (x : option Q) (d : Q) : Q :=
  match x with
  | Some v => if Qeq_bool v 0%Q then d else v
  | None => d
  end.

(** [x < y] *)
Definition ltb (x y : Q) : bool := negb (Qle_bool y x).

End Num.

Definition getDistanceContext (distance : option TextValue) : string :=
  let meters := Num.orElse (match distance with Some d => value d | None => None end) 0%Q in
  let kilometers := (meters / 1000)%Q in
  if Num.ltb kilometers 3%Q then "nearby"
  else if Num.ltb kilometers 10%Q then "short"
  else if Num.ltb kilometers 30%Q then "medium"
  else "long".

(** The binary64 numbers of the engine. *)
Module Binary64.

(** A number is falsy when it is [0], [-0] or [NaN]; so is [undefined]. *)
Definition truthy (x : option float) : bool :=
  match x with
  | Some v => negb (PrimFloat.is_zero v || PrimFloat.is_nan v)
  | None => false
  end.

(** The operand of an arithmetic operator, once it is known to be
    there. *)
Definition get (x : option float) : float :=
  match x with Some v => v | None => nan end.

(** [getDistanceContext] from the [value] on. *)
Definition getDistanceContext (value : float) : string :=
  let meters := if truthy (Some value) then value else 0%float in
  let kilometers := (meters / 1000)%float in
  if (kilometers <? 3)%float then "nearby"
  else if (kilometers <? 10)%float then "short"
  else if (kilometers <? 30)%float then "medium"
  else "long".

End Binary64.

Definition getTrafficStatus (normalDuration trafficDuration : option float) : string :=
  if negb (Binary64.truthy normalDuration) || negb (Binary64.truthy trafficDuration)
  then "Unknown"
  else
    let difference :=
      (Binary64.get trafficDuration - Binary64.get normalDuration)%float in
    let percentageIncrease :=
      ((difference / Binary64.get normalDuration) * 100)%float in
    if (percentageIncrease <=? 10)%float then "Light traffic"
    else if (percentageIncrease <=? 30)%float then "Moderate traffic"
    else if (percentageIncrease <=? 50)%float then "Heavy traffic"
    else "Severe traffic".

(** The order of the severity labels. *)
Definition severity (label : string) : nat :=
  if String.eqb label "Light traffic" then 1
  else if String.eqb label "Moderate traffic" then 2
  else if String.eqb label "Heavy traffic" then 3
  else if String.eqb label "Severe traffic" then 4
  else 0.

(** ** The data that goes through the handler *)

(** A thrown value: [message], [status] and [response.status]. *)
Record JsError := {
  message : string;
  status : option Z;
  response_status : option Z
}.

(** [new Error(message)] *)
Definition Error (msg : string) : JsError :=
  {| message := msg; status := None; response_status := None |}.

(** The payload of the directions provider, as far as the handlers read it. *)
Module Provider.

Record Step := {
  html_instructions : string;
  distance : option TextValue;
  duration : option Duration.t;
  maneuver : option string
}.

Record Leg := {
  leg_distance : option TextValue;
  leg_duration : option Duration.t;
  duration_in_traffic : option Duration.t;
  steps : list Step
}.

Record Route := {
  summary : string;
  legs : list Leg;
  warnings : option (list string)
}.

Record Data := {
  status : string;
  routes : list Route
}.

End Provider.

(** The reduced projection that the cached handler builds. *)
Module Simplified.

Record Step := {
  instructions : string;
  distance : option TextValue;
  duration : option Duration.t;
  maneuver : option string
}.

Record Leg := {
  leg_distance : option TextValue;
  leg_duration : option Duration.t;
  duration_in_traffic : option Duration.t;
  steps : list Step
}.

Record Route := {
  summary : string;
  legs : list Leg
}.

Record ResponseData := {
  routes : list Route;
  mode : string;
  current_time : Z
}.

End Simplified.

(** The payload of the handler without a cache: the provider's data with
    the mode, the time and the traffic summary added. *)
Module Annotated.

Record TrafficRoute := {
  normal_duration : option string;
  traffic_duration : option string;
  traffic_status : string;
  warnings : list string
}.

Record ResponseData := {
  data : Provider.Data;
  mode : string;
  current_time : Z;
  traffic_info : list TrafficRoute
}.

End Annotated.

(** The parameter set of a travel mode. *)
Record ModeConfig := {
  travel_mode : option string;
  avoid : list string;
  transit_mode : list string
}.

Record ExtractedIntent := {
  origin : string;
  destination : string;
  mode : string;
  modeConfig : ModeConfig
}.

(** The object that [JSON.parse] yields, as far as it is read. *)
Record ParsedResponse := {
  parsed_origin : option string;
  parsed_destination : option string;
  parsed_mode : option string
}.

Record DirectionsParams := {
  params_origin : string;
  params_destination : string;
  key : string;
  params_mode : ModeConfig;
  departure_time : string;
  alternatives : bool;
  traffic_model : string
}.

(** A prompt is a template and the values that are put into it. *)
Inductive Prompt :=
  | ExtractPrompt (query : string)
  | ClassifyPrompt (query : string)
  | StepsPrompt (first : string) (instructions : list string)
      (distance duration : string)
  | TrafficCheckPrompt (origin destination : string)
      (distance : option string) (distanceContext : string)
      (data : Simplified.ResponseData)
  | DurationCheckPrompt (origin destination : string)
      (distance : option string) (distanceContext : string)
      (data : Simplified.ResponseData)
  | RouteStatusPrompt (origin destination : string)
      (data : Simplified.ResponseData)
  | ConversationalPrompt (data : Annotated.ResponseData)
  | AnnotatedTrafficCheckPrompt (origin destination : string)
      (distance : option string) (distanceContext : string)
      (data : Annotated.ResponseData)
  | AnnotatedDurationCheckPrompt (origin destination : string)
      (distance : option string) (distanceContext : string)
      (data : Annotated.ResponseData)
  | AnnotatedRouteStatusPrompt (origin destination : string)
      (data : Annotated.ResponseData).

(** The prompts of the formatters: every prompt but the one of the
    extraction and the one of the classification. *)
Definition isFormattingPrompt (prompt : Prompt) : bool :=
  match prompt with
  | ExtractPrompt _ | ClassifyPrompt _ => false
  | _ => true
  end.

(** The calls that leave the process. *)
Inductive Upstream :=
  | GenerateContent (prompt : Prompt)
  | MapsDirections (params : DirectionsParams).

(** How a call to the generative model ends: [generateContent] rejects,
    or [response.text()] throws, or the reply text is there. *)
Inductive GenOutcome :=
  | GenRejected (e : JsError)
  | GenTextThrows (e : JsError)
  | GenText (reply : string).

(** How a call to the directions provider ends. *)
Inductive MapsOutcome :=
  | MapsRejected (e : JsError)
  | MapsResolved (data : option Provider.Data).

(** What the formatting step hands back: the text of a formatter, or the
    route data itself when the dispatch table yields [Object]. *)
Inductive Formatted :=
  | FormattedText (s : string)
  | FormattedData (d : Simplified.ResponseData).

(** The cached object, which is also the body of a successful response. *)
Record CacheValue := {
  response : Formatted;
  query_type : string
}.

Inductive ResponseBody :=
  | Success (v : CacheValue)
  | Failure (error : string) (details : option string).

Record HttpResponse := {
  code : Z;
  body : ResponseBody
}.

Record Request := { query : option string }.

(** ** The world of a request *)

(** The process-wide state: the key table of [routeCache] (each value
    with the time at which it expires), the wall clock in milliseconds
    and the log of the upstream calls. *)
Record World := {
  cache : gmap string (CacheValue * Z);
  now : Z;
  calls : list Upstream
}.

(** The collaborators of the process.  Each oracle sees the world in
    which the call is issued. *)
Record Env := {
  generateContent : World -> Prompt -> GenOutcome;
  directions : World -> DirectionsParams -> MapsOutcome;
  (** the clock when the call comes back *)
  clockAfter : World -> Upstream -> Z;
  JSON_parse : string -> option ParsedResponse;
  GOOGLE_MAPS_API_KEY : string
}.

(** ** The monad of the handlers *)

Inductive Completion (A : Type) :=
  | Normal (a : A)
  | Throw (e : JsError).
Arguments Normal {A} a.
Arguments Throw {A} e.

Definition M (A : Type) : Type := World -> Completion A * World.

Definition ret {A} (a : A) : M A := fun w => (Normal a, w).

Definition throw {A} (e : JsError) : M A := fun w => (Throw e, w).

Definition bind {A B} (m : M A) (k : A -> M B) : M B :=
  fun w =>
    match m w with
    | (Normal a, w') => k a w'
    | (Throw e, w') => (Throw e, w')
    end.

(** [try { body } catch (error) { handler }] *)
Definition tryCatch {A} (body : M A) (handler : JsError -> M A) : M A :=
  fun w =>
    match body w with
    | (Normal a, w') => (Normal a, w')
    | (Throw e, w') => handler e w'
    end.

(** A promise that has been started and is looked at later. *)
Definition settle {A} (m : M A) : M (Completion A) :=
  fun w => let '(c, w') := m w in (Normal c, w').

Definition awaitSettled {A} (c : Completion A) : M A :=
  fun w => (c, w).

Declare Scope js_scope.
Delimit Scope js_scope with js.
Notation "'let*' x ':=' m 'in' k" := (bind m (fun x => k))
  (at level 10, x name, m at level 100, k at level 200) : js_scope.
Notation "m ';;' k" := (bind m (fun _ => k))
  (at level 100, k at level 200, right associativity) : js_scope.
Open Scope js_scope.

(** Issues a call: it is logged, and the clock moves while it is awaited. *)
Definition issue (env : Env) (call : Upstream) : M unit :=
  fun w =>
    (Normal tt,
     {| cache := cache w;
        now := clockAfter env w call;
        calls := calls w ++ [call] |}).

(** [(await model.generateContent(prompt)).response.text()] *)
Definition generateText (env : Env) (prompt : Prompt) : M string :=
  fun w =>
    match generateContent env w prompt with
    | GenRejected e => (Throw e, snd (issue env (GenerateContent prompt) w))
    | GenTextThrows e => (Throw e, snd (issue env (GenerateContent prompt) w))
    | GenText reply => (Normal reply, snd (issue env (GenerateContent prompt) w))
    end.

(** [await mapsClient.directions({ params })] *)
Definition mapsClient_directions (env : Env) (params : DirectionsParams)
  : M (option Provider.Data) :=
  fun w =>
    match directions env w params with
    | MapsRejected e => (Throw e, snd (issue env (MapsDirections params) w))
    | MapsResolved data => (Normal data, snd (issue env (MapsDirections params) w))
    end.

(** *** The response cache *)

(** [new NodeCache({ stdTTL: 300 })]: the table is part of the [World];
    the [node-cache] package itself is not part of the sources. *)
Module routeCache.

Definition stdTTL : Z := 300.

(** Modelled from the spec: [get] of the [node-cache] package, which is
    not part of the sources.  An entry whose lifetime is over is treated
    as absent. *)
Definition get (key : string) : M (option CacheValue) :=
  fun w =>
    match cache w !! key with
    | Some (v, expires) =>
        if (expires <? now w)%Z then (Normal None, w) else (Normal (Some v), w)
    | None => (Normal None, w)
    end.

(** Modelled from the spec: [set] of the [node-cache] package, which is
    not part of the sources.  The lifetime of an entry is [stdTTL]
    seconds from its insertion. *)
Definition set (key : string) (v : CacheValue) : M unit :=
  fun w =>
    (Normal tt,
     {| cache := <[key := (v, (now w + stdTTL * 1000)%Z)]> (cache w);
        now := now w;
        calls := calls w |}).

End routeCache.

(** ** The calls to the generative model *)

Definition LF : ascii := ascii_of_nat 10.

(** [text.replace(/```json\n?|\n?```/g, '')]: [skip] counts the characters
    of a match that are still to be dropped. *)
Fixpoint removeFences (skip : nat) (s : string) : string :=
  match s with
  | EmptyString => EmptyString
  | String c s' =>
      match skip with
      | S k => removeFences k s'
      | O =>
          if JS.startsWith s ("```json" ++ String LF "") then removeFences 7 s'
          else if JS.startsWith s "```json" then removeFences 6 s'
          else if JS.startsWith s (String LF "```") then removeFences 3 s'
          else if JS.startsWith s "```" then removeFences 2 s'
          else String c (removeFences 0 s')
      end
  end.

(** The names that every object inherits from [Object.prototype]. *)
Definition inheritedNames : list string :=
  [ "constructor"; "__defineGetter__"; "__defineSetter__"; "hasOwnProperty";
    "__lookupGetter__"; "__lookupSetter__"; "isPrototypeOf";
    "propertyIsEnumerable"; "toString"; "valueOf"; "__proto__";
    "toLocaleString" ].

Definition isInherited (name : string) : bool :=
  existsb (String.eqb name) inheritedNames.

Definition carConfig : ModeConfig :=
  {| travel_mode := Some "DRIVING"; avoid := []; transit_mode := [] |}.

(** What the spread of an inherited function or object contributes. *)
Definition noConfig : ModeConfig :=
  {| travel_mode := None; avoid := []; transit_mode := [] |}.

(** [modeMapping[mode]] *)
Definition modeMapping (mode : string) : option ModeConfig :=
  if String.eqb mode "bike" then
    Some {| travel_mode := Some "DRIVING"; avoid := ["highways"]; transit_mode := [] |}
  else if String.eqb mode "car" then Some carConfig
  else if String.eqb mode "bus" then
    Some {| travel_mode := Some "TRANSIT"; avoid := []; transit_mode := ["BUS"] |}
  else if String.eqb mode "train" then
    Some {| travel_mode := Some "TRANSIT"; avoid := []; transit_mode := ["TRAIN"] |}
  else if isInherited mode then Some noConfig
  else None.

Definition truthyField (x : option string) : bool :=
  match x with Some s => JS.truthy s | None => false end.

(** [TypeError]s of the engine. *)
Definition TypeError (msg : string) : JsError := Error msg.

Definition cannotRead (what property : string) : JsError :=
  TypeError ("Cannot read properties of " ++ what
             ++ " (reading '" ++ property ++ "')").

(** The [catch] block of [extractLocationsAndMode] reads [response], which
    is declared inside the [try] block and is not in scope there: the
    block throws this error before it builds its own. *)
Definition responseNotDefined : JsError := Error "response is not defined".

Section Model.

Context (env : Env).

Definition extractLocationsAndMode (query : string) : M ExtractedIntent :=
  tryCatch
    (let* reply := generateText env (ExtractPrompt query) in
     let text := JS.trim reply in
     let jsonStr :=
       if JS.includes text "```" then JS.trim (removeFences 0 text) else text in
     match JSON_parse env jsonStr with
     | None => throw (Error "Unexpected token in JSON")
     | Some parsedResponse =>
         if negb (truthyField (parsed_origin parsedResponse))
            || negb (truthyField (parsed_destination parsedResponse))
         then throw (Error "Failed to extract valid locations from query")
         else
           let origin :=
             addLocationQualifier (default "" (parsed_origin parsedResponse)) in
           let destination :=
             addLocationQualifier (default "" (parsed_destination parsedResponse)) in
           let mode :=
             if truthyField (parsed_mode parsedResponse)
             then default "" (parsed_mode parsedResponse) else "car" in
           ret {| origin := origin;
                  destination := destination;
                  mode := mode;
                  modeConfig := default carConfig (modeMapping mode) |}
     end)
    (fun error => throw responseNotDefined).

Definition classifyQuery (query : string) : M string :=
  tryCatch
    (let* reply := generateText env (ClassifyPrompt query) in
     let queryType := JS.toLowerCase (JS.trim reply) in
     ret queryType)
    (fun error => ret "directions").

End Model.

(** [new Date()] *)
Definition currentTime : M Z := fun w => (Normal (now w), w).

Definition mkParams (env : Env) (origin destination : string)
    (modeConfig : ModeConfig) : DirectionsParams :=
  {| params_origin := origin;
     params_destination := destination;
     key := GOOGLE_MAPS_API_KEY env;
     params_mode := modeConfig;
     departure_time := "now";
     alternatives := true;
     traffic_model := "best_guess" |}.

(** [`Invalid response: ${directionsResponse.data?.status}`] *)
Definition invalidResponse (data : option Provider.Data) : JsError :=
  Error ("Invalid response: "
         ++ match data with
            | Some d => Provider.status d
            | None => "undefined"
            end).

Definition isOK (data : option Provider.Data) : bool :=
  match data with
  | Some d => String.eqb (Provider.status d) "OK"
  | None => false
  end.

(** [error.status || 500] *)
Definition statusOr (s : option Z) (d : Z) : Z :=
  match s with
  | Some n => if (n =? 0)%Z then d else n
  | None => d
  end.

(** [res.json(body)] and [res.status(code).json(body)] *)
Definition json (b : ResponseBody) : HttpResponse := {| code := 200; body := b |}.
Definition status_json (c : Z) (b : ResponseBody) : HttpResponse :=
  {| code := c; body := b |}.

(** ** The handler behind the cache *)

Module Controller.

Definition simplifyStep (step : Provider.Step) : Simplified.Step :=
  {| Simplified.instructions := Provider.html_instructions step;
     Simplified.distance := Provider.distance step;
     Simplified.duration := Provider.duration step;
     Simplified.maneuver := Provider.maneuver step |}.

Definition simplifyLeg (leg : Provider.Leg) : Simplified.Leg :=
  {| Simplified.leg_distance := Provider.leg_distance leg;
     Simplified.leg_duration := Provider.leg_duration leg;
     Simplified.duration_in_traffic := Provider.duration_in_traffic leg;
     Simplified.steps := map simplifyStep (Provider.steps leg) |}.

Definition simplifyRoute (route : Provider.Route) : Simplified.Route :=
  {| Simplified.summary := Provider.summary route;
     Simplified.legs := map simplifyLeg (Provider.legs route) |}.

(** [directionsData.routes[0]?.legs[0]?.distance] *)
Definition firstLegDistance (directionsData : Simplified.ResponseData)
  : option TextValue :=
  match Simplified.routes directionsData with
  | [] => None
  | route :: _ =>
      match Simplified.legs route with
      | [] => None
      | leg :: _ => Simplified.leg_distance leg
      end
  end.

(** The table of the dispatch and what a lookup in it can yield. *)
Inductive FormattingFunction :=
  | FormatTrafficCheck
  | FormatDurationCheck
  | FormatRouteStatus
  | FormatDirections
  | ObjectConstructor
  | ObjectPrototype
  | InheritedMethod (name : string).

(** [{ traffic_check: .., duration_check: .., route_status: .. }[queryType]
     || formatDirections] *)
Definition formattingFunction (queryType : string) : FormattingFunction :=
  if String.eqb queryType "traffic_check" then FormatTrafficCheck
  else if String.eqb queryType "duration_check" then FormatDurationCheck
  else if String.eqb queryType "route_status" then FormatRouteStatus
  else if String.eqb queryType "constructor" then ObjectConstructor
  else if String.eqb queryType "__proto__" then ObjectPrototype
  else if isInherited queryType then InheritedMethod queryType
  else FormatDirections.

Section WithEnv.

Context (env : Env).

Definition formatDirections (directionsData : Simplified.ResponseData)
  : M string :=
  tryCatch
    (match Simplified.routes directionsData with
     | [] => throw (cannotRead "undefined" "legs")
     | route :: _ =>
         match Simplified.legs route with
         | [] => throw (cannotRead "undefined" "steps")
         | leg :: _ =>
             let steps := Simplified.steps leg in
             match steps with
             | [] => throw (cannotRead "undefined" "instructions")
             | first :: _ =>
                 match Simplified.leg_distance leg with
                 | None => throw (cannotRead "undefined" "text")
                 | Some distance =>
                     let inTraffic :=
                       match Simplified.duration_in_traffic leg with
                       | Some d => Duration.text d
                       | None => ""
                       end in
                     let* duration :=
                       if JS.truthy inTraffic then ret inTraffic
                       else
                         match Simplified.leg_duration leg with
                         | Some d => ret (Duration.text d)
                         | None => throw (cannotRead "undefined" "text")
                         end in
                     generateText env
                       (StepsPrompt (Simplified.instructions first)
                          (map Simplified.instructions steps)
                          (text distance) duration)
                 end
             end
         end
     end)
    (fun error => ret "Error formatting directions").

Definition formatTrafficCheck (directionsData : Simplified.ResponseData)
    (origin destination : string) : M string :=
  let distance := firstLegDistance directionsData in
  let distanceContext := getDistanceContext distance in
  generateText env
    (TrafficCheckPrompt origin destination (option_map text distance)
       distanceContext directionsData).

Definition formatDurationCheck (directionsData : Simplified.ResponseData)
    (origin destination : string) : M string :=
  let distance := firstLegDistance directionsData in
  let distanceContext := getDistanceContext distance in
  generateText env
    (DurationCheckPrompt origin destination (option_map text distance)
       distanceContext directionsData).

Definition formatRouteStatus (directionsData : Simplified.ResponseData)
    (origin destination : string) : M string :=
  generateText env (RouteStatusPrompt origin destination directionsData).

(** [await formattingFunction(responseData, origin, destination)] *)
Definition callFormatting (f : FormattingFunction)
    (responseData : Simplified.ResponseData) (origin destination : string)
  : M Formatted :=
  match f with
  | FormatTrafficCheck =>
      let* t := formatTrafficCheck responseData origin destination in
      ret (FormattedText t)
  | FormatDurationCheck =>
      let* t := formatDurationCheck responseData origin destination in
      ret (FormattedText t)
  | FormatRouteStatus =>
      let* t := formatRouteStatus responseData origin destination in
      ret (FormattedText t)
  | FormatDirections =>
      let* t := formatDirections responseData in
      ret (FormattedText t)
  | ObjectConstructor => ret (FormattedData responseData)
  | ObjectPrototype => throw (TypeError "formattingFunction is not a function")
  | InheritedMethod name =>
      if String.eqb name "toString" then ret (FormattedText "[object Undefined]")
      else throw (TypeError "Cannot convert undefined or null to object")
  end.

(** The body of the [try] block. *)
Definition getDirections_try (req : Request) : M HttpResponse :=
  let query := query req in
  let* cacheKey :=
    match query with
    | Some q => ret (JS.trim (JS.toLowerCase q))
    | None => throw (cannotRead "undefined" "toLowerCase")
    end in
  let* cachedResponse := routeCache.get cacheKey in
  match cachedResponse with
  | Some cached => ret (json (Success cached))
  | None =>
      if negb (truthyField query) then
        ret (status_json 400 (Failure "Query is required" None))
      else
        let query := default "" query in
        let* extracted := settle (extractLocationsAndMode env query) in
        let* queryType := classifyQuery env query in
        let* intent := awaitSettled extracted in
        let params :=
          mkParams env (origin intent) (destination intent)
            (modeConfig intent) in
        let* data := mapsClient_directions env params in
        if negb (isOK data) then throw (invalidResponse data)
        else
          let* current_time := currentTime in
          let responseData :=
            {| Simplified.routes :=
                 map simplifyRoute
                   (match data with Some d => Provider.routes d | None => [] end);
               Simplified.mode := mode intent;
               Simplified.current_time := current_time |} in
          let* formattedResponse :=
            callFormatting (formattingFunction queryType) responseData
              (origin intent) (destination intent) in
          let entry :=
            {| response := formattedResponse; query_type := queryType |} in
          routeCache.set cacheKey entry ;;
          ret (json (Success entry))
  end.

Definition getDirections_catch (error : JsError) : M HttpResponse :=
  ret (status_json (statusOr (status error) 500)
         (Failure "Error processing request" (Some (message error)))).

Definition getDirections (req : Request) : M HttpResponse :=
  tryCatch (getDirections_try req) getDirections_catch.

End WithEnv.

End Controller.

(** ** The handler without a cache *)

Module RoutesDirections.

(** [route.legs?.[0]] *)
Definition firstLeg (route : Provider.Route) : option Provider.Leg :=
  match Provider.legs route with
  | [] => None
  | leg :: _ => Some leg
  end.

(** [x?.value] *)
Definition valueOf (x : option Duration.t) : option float :=
  match x with Some d => Duration.value d | None => None end.

Definition trafficRoute (route : Provider.Route) : Annotated.TrafficRoute :=
  let duration :=
    match firstLeg route with Some l => Provider.leg_duration l | None => None end in
  let duration_in_traffic :=
    match firstLeg route with
    | Some l => Provider.duration_in_traffic l
    | None => None
    end in
  {| Annotated.normal_duration := option_map Duration.text duration;
     Annotated.traffic_duration := option_map Duration.text duration_in_traffic;
     Annotated.traffic_status :=
       getTrafficStatus (valueOf duration) (valueOf duration_in_traffic);
     Annotated.warnings := default [] (Provider.warnings route) |}.

(** [directionsData.routes[0]?.legs[0]?.distance] *)
Definition firstLegDistance (directionsData : Annotated.ResponseData)
  : option TextValue :=
  match Provider.routes (Annotated.data directionsData) with
  | [] => None
  | route :: _ =>
      match Provider.legs route with
      | [] => None
      | leg :: _ => Provider.leg_distance leg
      end
  end.

(** [mapsError.response?.status === 404] *)
Definition isNotFound (mapsError : JsError) : bool :=
  match response_status mapsError with
  | Some n => (n =? 404)%Z
  | None => false
  end.

Section WithEnv.

Context (env : Env).

Definition formatDirections (directionsData : Annotated.ResponseData)
  : M string :=
  tryCatch
    (generateText env (ConversationalPrompt directionsData))
    (fun error =>
       throw (Error ("Failed to format directions: " ++ message error))).

Definition formatDurationCheck (directionsData : Annotated.ResponseData)
    (origin destination : string) : M string :=
  let distance := firstLegDistance directionsData in
  let distanceContext := getDistanceContext distance in
  generateText env
    (AnnotatedDurationCheckPrompt origin destination
       (option_map text distance) distanceContext directionsData).

Definition formatTrafficCheck (directionsData : Annotated.ResponseData)
    (origin destination : string) : M string :=
  let distance := firstLegDistance directionsData in
  let distanceContext := getDistanceContext distance in
  generateText env
    (AnnotatedTrafficCheckPrompt origin destination
       (option_map text distance) distanceContext directionsData).

Definition formatRouteStatus (directionsData : Annotated.ResponseData)
    (origin destination : string) : M string :=
  generateText env
    (AnnotatedRouteStatusPrompt origin destination directionsData).

(** The inner [try] block. *)
Definition fetchAndFormat (queryType : string) (intent : ExtractedIntent)
    (params : DirectionsParams) : M HttpResponse :=
  let* data := mapsClient_directions env params in
  match data with
  | None => throw (invalidResponse data)
  | Some d =>
      if negb (isOK data) then throw (invalidResponse data)
      else
        let* current_time := currentTime in
        let responseData :=
          {| Annotated.data := d;
             Annotated.mode := mode intent;
             Annotated.current_time := current_time;
             Annotated.traffic_info := map trafficRoute (Provider.routes d) |} in
        let* formattedResponse :=
          if String.eqb queryType "traffic_check" then
            formatTrafficCheck responseData (origin intent) (destination intent)
          else if String.eqb queryType "duration_check" then
            formatDurationCheck responseData (origin intent) (destination intent)
          else if String.eqb queryType "route_status" then
            formatRouteStatus responseData (origin intent) (destination intent)
          else
            formatDirections responseData in
        ret (json (Success {| response := FormattedText formattedResponse;
                              query_type := queryType |}))
  end.

(** The inner [catch (mapsError)] block. *)
Definition mapsError_catch (mapsError : JsError) : M HttpResponse :=
  if isNotFound mapsError then
    ret (status_json 404
           (Failure "Route not found"
              (Some "Could not find a valid route between the specified locations")))
  else
    throw (Error ("Google Maps API error: " ++ message mapsError)).

Definition getDirections_try (req : Request) : M HttpResponse :=
  let query := query req in
  if negb (truthyField query) then
    ret (status_json 400 (Failure "Query is required" None))
  else
    let query := default "" query in
    let* queryType := classifyQuery env query in
    let* intent := extractLocationsAndMode env query in
    let params :=
      mkParams env (origin intent) (destination intent) (modeConfig intent) in
    tryCatch (fetchAndFormat queryType intent params) mapsError_catch.

Definition getDirections_catch (error : JsError) : M HttpResponse :=
  ret (status_json 500
         (Failure "Internal server error" (Some (message error)))).

Definition getDirections (req : Request) : M HttpResponse :=
  tryCatch (getDirections_try req) getDirections_catch.

End WithEnv.

End RoutesDirections.

(** ** Scripted collaborators *)

(** An environment whose replies are fixed in advance: the model answers
    by [gen], the provider by [maps], every call takes one second, and
    the reply of the extraction parses to [parsed]. *)
Definition scripted (gen : Prompt -> GenOutcome) (maps : MapsOutcome)
    (parsed : option ParsedResponse) : Env :=
  {| generateContent := fun _ prompt => gen prompt;
     directions := fun _ _ => maps;
     clockAfter := fun w _ => (now w + 1000)%Z;
     JSON_parse := fun _ => parsed;
     GOOGLE_MAPS_API_KEY := "secret" |}.

(** A model that classifies every query by [label] and answers every
    other prompt by [reply]. *)
Definition answering (label reply : string) (prompt : Prompt) : GenOutcome :=
  match prompt with
  | ClassifyPrompt _ => GenText label
  | _ => GenText reply
  end.

Definition unreachable : JsError :=
  {| message := "fetch failed"; status := None; response_status := None |}.

Definition ikejaToLekki : ParsedResponse :=
  {| parsed_origin := Some "Ikeja";
     parsed_destination := Some "Lekki";
     parsed_mode := None |}.

Definition providerSays (status : string) : MapsOutcome :=
  MapsResolved (Some {| Provider.status := status; Provider.routes := [] |}).

(** A process that has just started, at time [t]. *)
Definition startedAt (t : Z) : World :=
  {| cache := ∅; now := t; calls := [] |}.

(** Lagos, with a provider that does not find the places. *)
Definition lagosModel : Env :=
  scripted (answering "directions" "{}") (providerSays "NOT_FOUND") (Some ikejaToLekki).

(** Lagos, with a provider that finds a route and a model that files every
    query under route_status. *)
Definition lekkiModel : Env :=
  scripted (answering "route_status" "Third Mainland Bridge is clear.")
    (providerSays "OK") (Some ikejaToLekki).

Definition ikejaIntent : ExtractedIntent :=
  {| origin := "Ikeja, Lagos, Nigeria";
     destination := "Lekki, Lagos, Nigeria";
     mode := "car";
     modeConfig := carConfig |}.

Definition bridgeIsClear : CacheValue :=
  {| response := FormattedText "Third Mainland Bridge is clear.";
     query_type := "route_status" |}.

(** A process that stored [bridgeIsClear] at time 0 and is now at [t]. *)
Definition servedAtZero (t : Z) : World :=
  {| cache := <["ikeja to lekki" := (bridgeIsClear, 300000%Z)]> ∅;
     now := t;
     calls := [] |}.

(** The world [w] at the later time [t]. *)
Definition later (t : Z) (w : World) : World :=
  {| cache := cache w; now := t; calls := calls w |}.

(** The error of a provider that is over its quota. *)
Definition overQuota : JsError :=
  {| message := "Request failed with status code 429";
     status := Some 429%Z;
     response_status := Some 429%Z |}.

(** Lagos, with a provider that is over its quota. *)
Definition throttledModel : Env :=
  scripted (answering "directions" "{}") (MapsRejected overQuota) (Some ikejaToLekki).

(** Lagos, with a provider that finds a route without legs and a model
    that files every query under directions. *)
Definition directionsModel : Env :=
  scripted (answering "directions" "Head north.") (providerSays "OK")
    (Some ikejaToLekki).

(** The answer of a provider that finds one route of one leg and one
    step. *)
Definition overTheBridge : Provider.Data :=
  {| Provider.status := "OK";
     Provider.routes :=
       [ {| Provider.summary := "Third Mainland Bridge";
            Provider.legs :=
              [ {| Provider.leg_distance :=
                     Some {| text := "24.5 km"; value := Some 24500%Q |};
                   Provider.leg_duration :=
                     Some {| Duration.text := "45 mins";
                             Duration.value := Some 2700%float |};
                   Provider.duration_in_traffic :=
                     Some {| Duration.text := "1 hour 10 mins";
                             Duration.value := Some 4200%float |};
                   Provider.steps :=
                     [ {| Provider.html_instructions := "Head east";
                          Provider.distance :=
                            Some {| text := "24.5 km"; value := Some 24500%Q |};
                          Provider.duration :=
                            Some {| Duration.text := "45 mins";
                                    Duration.value := Some 2700%float |};
                          Provider.maneuver := None |} ] |} ];
            Provider.warnings := None |} ] |}.

(** A model that extracts and classifies, and that is out of reach for
    every formatting prompt. *)
Definition formattingDown (prompt : Prompt) : GenOutcome :=
  match prompt with
  | ExtractPrompt _ => GenText "{}"
  | ClassifyPrompt _ => GenText "directions"
  | _ => GenRejected unreachable
  end.

(** Lagos, with a provider that finds the route over the bridge and a
    model that fails on the formatting. *)
Definition bridgeModel : Env :=
  scripted formattingDown (MapsResolved (Some overTheBridge)) (Some ikejaToLekki).

(** The entry that holds the fallback text of [formatDirections]. *)
Definition errorFormatting : CacheValue :=
  {| response := FormattedText "Error formatting directions";
     query_type := "directions" |}.

(** ** Statements *)

(** A computation that leaves the cache table as it found it. *)
Definition stable {A} (m : M A) : Prop :=
  forall w, cache (snd (m w)) = cache w.

(** The run of [m] from [w] stored [entry] under [key], right after the
    formatting step had handed back the response of [entry], and answered
    with [entry]. *)
Definition storedThenSent (env : Env) (m : M HttpResponse) (w : World)
    (r : HttpResponse) : Prop :=
  exists key entry f responseData origin destination w1 w2,
    cache w1 = cache w
    /\ Controller.callFormatting env f responseData origin destination w1
       = (Normal (response entry), w2)
    /\ snd (m w) = snd (routeCache.set key entry w2)
    /\ r = json (Success entry).

(** A handler step that either leaves the cache alone or stores what it
    sends. *)
Definition cachesOnSuccess (env : Env) (m : M HttpResponse) : Prop :=
  forall w,
    match fst (m w) with
    | Normal r => cache (snd (m w)) = cache w \/ storedThenSent env m w r
    | Throw _ => cache (snd (m w)) = cache w
    end.

(** The status of the Directions API for a location that it cannot find. *)
Definition signalsNotFound (data : option Provider.Data) : bool :=
  match data with
  | Some d => String.eqb (Provider.status d) "NOT_FOUND"
  | None => false
  end.

Definition statusText (data : option Provider.Data) : string :=
  match data with
  | Some d => Provider.status d
  | None => "undefined"
  end.

(** The specification on a provider status that is not OK, read on the
    answer of the provider: 404 for not-found and 500 for the rest, the
    status being part of the details. *)
Definition notFoundIs404 : Prop :=
  forall (env : Env) (w w1 : World) (q : string) (intent : ExtractedIntent)
         (data : option Provider.Data),
    JS.truthy q = true ->
    fst (routeCache.get (JS.trim (JS.toLowerCase q)) w) = Normal None ->
    extractLocationsAndMode env q w = (Normal intent, w1) ->
    directions env (snd (classifyQuery env q w1))
      (mkParams env (origin intent) (destination intent) (modeConfig intent))
    = MapsResolved data ->
    isOK data = false ->
    exists error details,
      fst (Controller.getDirections env {| query := Some q |} w)
      = Normal (status_json (if signalsNotFound data then 404 else 500)
                  (Failure error (Some details)))
      /\ JS.includes details (statusText data) = true.

(** [error.status === 404] *)
Definition carries404 (e : JsError) : bool :=
  match status e with
  | Some n => (n =? 404)%Z
  | None => false
  end.

(** The same sentence, read on a call to the provider that throws: 404
    for an error that carries 404 and 500 for the rest. *)
Definition otherFailuresAre500 : Prop :=
  forall (env : Env) (w w1 : World) (q : string) (intent : ExtractedIntent)
         (e : JsError),
    JS.truthy q = true ->
    fst (routeCache.get (JS.trim (JS.toLowerCase q)) w) = Normal None ->
    extractLocationsAndMode env q w = (Normal intent, w1) ->
    directions env (snd (classifyQuery env q w1))
      (mkParams env (origin intent) (destination intent) (modeConfig intent))
    = MapsRejected e ->
    exists error details,
      fst (Controller.getDirections env {| query := Some q |} w)
      = Normal (status_json (if carries404 e then 404 else 500)
                  (Failure error details)).

(** The model fails on every formatting prompt. *)
Definition formattingFails (env : Env) : Prop :=
  forall (w : World) (prompt : Prompt),
    isFormattingPrompt prompt = true ->
    exists e, generateContent env w prompt = GenRejected e.

(** The specification on a formatting failure, which it counts among the
    errors: when no formatted response can be produced, the handler
    answers with an error and the cache table is left as it was. *)
Definition formattingFailureIsNotCached : Prop :=
  forall (env : Env) (req : Request) (w : World),
    formattingFails env ->
    cache (snd (Controller.getDirections env req w)) = cache w.

(** ** The environment loader *)

Module Environment.

Definition requiredVars : list string :=
  ["GEMINI_API_KEY"; "GOOGLE_MAPS_API_KEY"].

(** [loadEnvironment()], given what [dotenv.config] hands back: whether
    its result has an [error], and [process.env] once it has run.  A
    variable is missing when it is not set or set to the empty string. *)
Definition loadEnvironment (resultError : bool)
    (processEnv : gmap string string) : bool :=
  if resultError then false
  else
    let missingVars :=
      List.filter (fun varName => negb (truthyField (processEnv !! varName)))
        requiredVars in
    if (0 <? List.length missingVars)%nat then false else true.

End Environment.

(** ** Further notions *)

(** The cache key of a query: [query.toLowerCase().trim()]. *)
Definition cacheKeyOf (query : string) : string :=
  JS.trim (JS.toLowerCase query).

(** The order of the distance buckets. *)
Definition distanceRank (bucket : string) : nat :=
  if String.eqb bucket "nearby" then 1
  else if String.eqb bucket "short" then 2
  else if String.eqb bucket "medium" then 3
  else if String.eqb bucket "long" then 4
  else 0.

(** A string with an upper-case ASCII letter in it. *)
Fixpoint hasUpperCase (s : string) : bool :=
  match s with
  | EmptyString => false
  | String c s' => JS.isUpperCase c || hasUpperCase s'
  end.

(** Strings made of continuation bytes. *)
Fixpoint allContinuation (s : string) : bool :=
  match s with
  | EmptyString => true
  | String b s' => JS.isContinuation b && allContinuation s'
  end.

(** A byte and continuation bytes: what [JS.characters] cuts a string
    into. *)
Definition isCharacter (c : string) : bool :=
  match c with
  | EmptyString => false
  | String _ r => allContinuation r
  end.

(** A list of characters that is the list of the characters of its
    concatenation: only the first one may start with a continuation
    byte. *)
Definition wellFormed (l : list string) : Prop :=
  Forall (fun c => isCharacter c = true) l
  /\ Forall (fun c => JS.startsWithContinuation c = false) (tl l).

(** A character that [JS.toLowerCase] leaves as it is wherever it
    stands. *)
Definition isLowerCase (c : string) : bool :=
  negb (String.eqb c JS.capitalSigma)
  && match JS.lowerCharacter c with
     | [o] => String.eqb o c
     | _ => false
     end.

(** What [JS.toLowerCase] puts in the place of a character that has a
    mapping. *)
Definition lowered (o : string) : bool :=
  isCharacter o && negb (JS.startsWithContinuation o) && isLowerCase o
  && negb (hasUpperCase o) && negb (JS.isWhiteSpace o).

(** An entry of the mapping: its image is a lowered character and its
    source is no white space. *)
Definition mappingChecked (p : N * N) : bool :=
  lowered (JS.fromCodePoint (snd p))
  && negb (existsb (N.eqb (fst p)) JS.whiteSpace).

(** A white space is no cased letter. *)
Definition whiteSpaceChecked (n : N) : bool :=
  JS.inRanges n JS.caseIgnorable || negb (JS.inRanges n JS.cased).

(** A computation that adds to the log a list of calls that [P] holds
    of, and takes none away. *)
Definition emits {A} (m : M A) (P : list Upstream -> Prop) : Prop :=
  forall w, exists l, calls (snd (m w)) = (calls w ++ l)%list /\ P l.

(** At most one call, for a formatting prompt. *)
Definition oneFormatting (l : list Upstream) : Prop :=
  l = []
  \/ exists prompt,
       isFormattingPrompt prompt = true /\ l = [GenerateContent prompt].

(** What follows the extraction and the classification: nothing, or the
    call to the provider, or that call and one for a formatting prompt. *)
Definition routeThenFormatting (l : list Upstream) : Prop :=
  l = []
  \/ (exists params, l = [MapsDirections params])
  \/ (exists params prompt,
        isFormattingPrompt prompt = true
        /\ l = [MapsDirections params; GenerateContent prompt]).

(** The normal results of [m] have their code among [codes]. *)
Definition answers (m : M HttpResponse) (codes : list Z) : Prop :=
  forall w r w', m w = (Normal r, w') -> In (code r) codes.

(** The [{error, details}] body of the [catch] block of the handler behind
    the cache. *)
Definition processingError (e : JsError) : HttpResponse :=
  status_json (statusOr (status e) 500)
    (Failure "Error processing request" (Some (message e))).

(** A model that cannot be reached. *)
Definition brokenModel : Env :=
  scripted (fun _ => GenRejected unreachable) (providerSays "OK") None.

(** A step of the handler behind the cache that, when it answers, has
    stored an entry under [key] in a world whose cache was the initial
    one, and answers with that entry; and that leaves the cache alone when
    it throws. *)
Definition storesUnder (key : string) (m : M HttpResponse) : Prop :=
  forall w,
    match fst (m w) with
    | Normal r =>
        exists entry wf,
          r = json (Success entry)
          /\ snd (m w) = snd (routeCache.set key entry wf)
          /\ cache wf = cache w
    | Throw _ => cache (snd (m w)) = cache w
    end.
(** *** The characters of a string *)

Section Characters.

Lemma join_cons (c : string) (l : list string) :
  JS.join (c :: l) = c ++ JS.join l.
Proof. reflexivity. Qed.

Lemma append_cons (b : ascii) (s t : string) :
  String b s ++ t = String b (s ++ t).
Proof. reflexivity. Qed.

Lemma append_assoc (s t u : string) : (s ++ t) ++ u = s ++ (t ++ u).
Proof.
  induction s as [|b s IH]; [reflexivity|]. now rewrite !append_cons, IH.
Qed.

Lemma join_app (l1 l2 : list string) :
  JS.join (l1 ++ l2) = JS.join l1 ++ JS.join l2.
Proof.
  induction l1 as [|c l1 IH]; [reflexivity|].
  change ((c :: l1) ++ l2)%list with (c :: (l1 ++ l2))%list.
  rewrite !join_cons, IH. symmetry. apply append_assoc.
Qed.

Lemma append_nil_r (s : string) : s ++ "" = s.
Proof.
  induction s as [|b s IH]; [reflexivity|]. now rewrite append_cons, IH.
Qed.

Lemma characters_cons (b : ascii) (s : string) :
  JS.characters (String b s)
  = match JS.characters s with
    | [] => [String b ""]
    | c :: l =>
        if JS.startsWithContinuation c then String b c :: l
        else String b "" :: c :: l
    end.
Proof. reflexivity. Qed.

Lemma join_characters (s : string) : JS.join (JS.characters s) = s.
Proof.
  induction s as [|b s IH]; [reflexivity|].
  rewrite characters_cons. destruct (JS.characters s) as [|c l].
  - cbn in IH. now subst s.
  - rewrite join_cons in IH. subst s.
    now destruct (JS.startsWithContinuation c).
Qed.

Lemma characters_nil (s : string) : JS.characters s = [] -> s = "".
Proof. intros H. rewrite <- (join_characters s), H. reflexivity. Qed.

(** The first character starts with the first byte. *)
Lemma characters_head (s : string) (c : string) (l : list string) :
  JS.characters s = c :: l ->
  JS.startsWithContinuation c = JS.startsWithContinuation s.
Proof.
  destruct s as [|b s]; [discriminate|].
  rewrite characters_cons. destruct (JS.characters s) as [|c' l'].
  - now intros [= <- <-].
  - destruct (JS.startsWithContinuation c'); now intros [= <- <-].
Qed.

Lemma characters_app (s t : string) :
  JS.startsWithContinuation t = false ->
  JS.characters (s ++ t) = (JS.characters s ++ JS.characters t)%list.
Proof.
  intros Ht. induction s as [|b s IH]; [reflexivity|].
  change (String b s ++ t) with (String b (s ++ t)).
  rewrite !characters_cons, IH.
  destruct (JS.characters s) as [|c l] eqn:Es.
  - destruct (JS.characters t) as [|c' l'] eqn:Et; [reflexivity|].
    cbn [app]. now rewrite (characters_head t c' l' Et), Ht.
  - cbn [app]. now destruct (JS.startsWithContinuation c).
Qed.

Lemma characters_continuation (r : string) :
  allContinuation r = true -> r <> "" -> JS.characters r = [r].
Proof.
  induction r as [|b r IH]; [congruence|]. intros H _.
  cbn [allContinuation] in H. apply andb_prop in H as [Hb Hr].
  rewrite characters_cons. destruct r as [|b' r']; [reflexivity|].
  rewrite IH by (assumption || discriminate).
  cbn [allContinuation] in Hr. apply andb_prop in Hr as [Hb' _].
  cbn [JS.startsWithContinuation]. now rewrite Hb'.
Qed.

Lemma characters_character (c : string) :
  isCharacter c = true -> JS.characters c = [c].
Proof.
  destruct c as [|b r]; [discriminate|]. cbn [isCharacter]. intros H.
  rewrite characters_cons. destruct r as [|b' r']; [reflexivity|].
  rewrite (characters_continuation _ H) by discriminate.
  cbn [allContinuation] in H. apply andb_prop in H as [Hb' _].
  cbn [JS.startsWithContinuation]. now rewrite Hb'.
Qed.

Lemma startsWithContinuation_app (c s : string) :
  c <> "" ->
  JS.startsWithContinuation (c ++ s) = JS.startsWithContinuation c.
Proof. destruct c; [congruence | reflexivity]. Qed.

Lemma isCharacter_nonempty (c : string) : isCharacter c = true -> c <> "".
Proof. destruct c; [discriminate | discriminate]. Qed.

Lemma characters_join (l : list string) :
  wellFormed l -> JS.characters (JS.join l) = l.
Proof.
  intros [Hc Ht]. induction l as [|c l IH]; [reflexivity|].
  cbn [tl] in Ht. apply Forall_cons in Hc as [Hc Hl].
  rewrite join_cons, characters_app.
  - rewrite (characters_character c Hc), IH; [reflexivity | exact Hl |].
    destruct l; [constructor|]. cbn [tl]. now apply Forall_cons in Ht as [_ Ht].
  - destruct l as [|c' l']; [reflexivity|].
    apply Forall_cons in Ht as [Hc' _]. apply Forall_cons in Hl as [Hn _].
    rewrite join_cons, startsWithContinuation_app; [exact Hc'|].
    now apply isCharacter_nonempty.
Qed.

Lemma wellFormed_characters (s : string) : wellFormed (JS.characters s).
Proof.
  unfold wellFormed. induction s as [|b s [IH1 IH2]]; [split; constructor|].
  rewrite characters_cons. destruct (JS.characters s) as [|c l] eqn:E.
  - split; [|constructor]. constructor; [reflexivity | constructor].
  - apply Forall_cons in IH1 as [Hc Hl]. cbn [tl] in IH2.
    destruct (JS.startsWithContinuation c) eqn:Ec.
    + split; [|exact IH2]. constructor; [|exact Hl].
      destruct c as [|b' r]; [discriminate|].
      cbn [isCharacter allContinuation]. cbn in Ec. rewrite Ec. exact Hc.
    + split; [|now constructor]. constructor; [reflexivity|now constructor].
Qed.

Lemma wellFormed_tail (c : string) (l : list string) :
  wellFormed (c :: l) -> wellFormed l.
Proof.
  intros [H1 H2]. apply Forall_cons in H1 as [_ H1]. split; [exact H1|].
  destruct l; [constructor|]. cbn [tl] in *. now apply Forall_cons in H2 as [_ H2].
Qed.

End Characters.

(** *** Lower case *)

Section LowerCase.

Lemma lowerCaseMapping_checked :
  forallb mappingChecked JS.lowerCaseMapping = true.
Proof. vm_compute. reflexivity. Qed.

Lemma simpleLowerCase_checked (n m : N) :
  JS.simpleLowerCase n = Some m -> mappingChecked (n, m) = true.
Proof.
  unfold JS.simpleLowerCase. intros H.
  destruct (find (fun p => (fst p =? n)%N) JS.lowerCaseMapping) as [[k v]|] eqn:E;
    [|discriminate].
  injection H as <-. apply find_some in E as [Hin Hk].
  apply N.eqb_eq in Hk. cbn [fst] in Hk. subst k.
  pose proof lowerCaseMapping_checked as Hall.
  rewrite forallb_forall in Hall. exact (Hall _ Hin).
Qed.

Lemma isASCII_lowerChar (a : ascii) :
  JS.isASCII a = true ->
  JS.isASCII (JS.lowerChar a) = true
  /\ JS.lowerChar (JS.lowerChar a) = JS.lowerChar a
  /\ JS.isUpperCase (JS.lowerChar a) = false.
Proof. destruct a as [[] [] [] [] [] [] [] []]; intros H; (discriminate H || now vm_compute). Qed.

Lemma isUpperCase_ascii (a : ascii) :
  JS.isASCII a = false -> JS.isUpperCase a = false.
Proof. destruct a as [[] [] [] [] [] [] [] []]; intros H; (discriminate H || reflexivity). Qed.

Lemma isContinuation_ascii (a : ascii) :
  JS.isASCII a = true -> JS.isContinuation a = false.
Proof. destruct a as [[] [] [] [] [] [] [] []]; intros H; (discriminate H || reflexivity). Qed.

Lemma isContinuation_upper (a : ascii) :
  JS.isContinuation a = true -> JS.isUpperCase a = false.
Proof. destruct a as [[] [] [] [] [] [] [] []]; intros H; (discriminate H || reflexivity). Qed.

Lemma hasUpperCase_continuation (r : string) :
  allContinuation r = true -> hasUpperCase r = false.
Proof.
  induction r as [|b r IH]; [reflexivity|]. cbn [allContinuation hasUpperCase].
  intros H. apply andb_prop in H as [Hb Hr].
  now rewrite (isContinuation_upper b Hb), IH.
Qed.

Lemma hasUpperCase_app (s t : string) :
  hasUpperCase (s ++ t) = hasUpperCase s || hasUpperCase t.
Proof.
  induction s as [|b s IH]; [reflexivity|].
  rewrite append_cons. cbn [hasUpperCase]. now rewrite IH, orb_assoc.
Qed.

(** An ASCII byte with continuation bytes behind it encodes no code
    point. *)
Lemma codePoint_ascii (a : ascii) (r : string) :
  JS.isASCII a = true ->
  JS.codePoint (String a r)
  = match r with EmptyString => Some (N_of_ascii a) | _ => None end.
Proof.
  intros H. destruct r as [|b [|d [|e [|f r]]]]; cbn [JS.codePoint].
  - now rewrite H.
  - replace (192 <=? N_of_ascii a)%N with false; [reflexivity|].
    unfold JS.isASCII in H. apply N.ltb_lt in H. symmetry. apply N.leb_gt. lia.
  - replace (224 <=? N_of_ascii a)%N with false; [reflexivity|].
    unfold JS.isASCII in H. apply N.ltb_lt in H. symmetry. apply N.leb_gt. lia.
  - replace (240 <=? N_of_ascii a)%N with false; [reflexivity|].
    unfold JS.isASCII in H. apply N.ltb_lt in H. symmetry. apply N.leb_gt. lia.
  - reflexivity.
Qed.

Lemma isWhiteSpace_ascii (a : ascii) (r : string) :
  JS.isASCII a = true ->
  JS.isWhiteSpace (String (JS.lowerChar a) r) = JS.isWhiteSpace (String a r)
  /\ (JS.isWhiteSpace (String a r) = true -> JS.lowerChar a = a).
Proof.
  intros H. unfold JS.isWhiteSpace.
  rewrite (codePoint_ascii a r H).
  rewrite (codePoint_ascii _ r (proj1 (isASCII_lowerChar a H))).
  destruct r; [|split; [reflexivity | discriminate]].
  clear H. destruct a as [[] [] [] [] [] [] [] []];
    split; (reflexivity || (intros H; discriminate H)).
Qed.

Lemma eqb_capitalSigma_ascii (a : ascii) (r : string) :
  JS.isASCII a = true -> String.eqb (String a r) JS.capitalSigma = false.
Proof.
  intros H. destruct (String.eqb_spec (String a r) JS.capitalSigma) as [E|]; [|reflexivity].
  vm_compute in E. injection E as -> _. discriminate H.
Qed.

Lemma sigma_lowered :
  lowered JS.smallSigma = true /\ lowered JS.finalSigma = true
  /\ JS.isWhiteSpace JS.capitalSigma = false
  /\ lowered (JS.fromCodePoint 0x69) = true
  /\ lowered (JS.fromCodePoint 0x307) = true.
Proof. vm_compute. repeat split. Qed.

(** What becomes of a character: an ASCII byte is mapped by
    [JS.lowerChar]; a character with a mapping gives lowered characters;
    any other is left alone, and then it is in lower case. *)
Lemma lowerCharacterAt_cases (before : bool) (c : string) (ahead : list string) :
  (exists a r, c = String a r /\ JS.isASCII a = true
               /\ JS.lowerCharacterAt before c ahead = [String (JS.lowerChar a) r])
  \/ (JS.lowerCharacterAt before c ahead = [c] /\ isLowerCase c = true
      /\ forall a r, c = String a r -> JS.isASCII a = false)
  \/ (Forall (fun o => lowered o = true) (JS.lowerCharacterAt before c ahead)
      /\ JS.lowerCharacterAt before c ahead <> []
      /\ JS.isWhiteSpace c = false).
Proof.
  destruct sigma_lowered as (Hs & Hf & Hw & Hi & Hd).
  unfold JS.lowerCharacterAt.
  destruct (String.eqb_spec c JS.capitalSigma) as [->|Hne].
  { right; right. split; [|split; [discriminate | exact Hw]].
    constructor; [|constructor].
    now destruct (before && negb (JS.followedByCased ahead)). }
  assert (Hsig : String.eqb c JS.capitalSigma = false)
    by now apply String.eqb_neq.
  assert (Hsame : JS.lowerCharacter c = [c] -> isLowerCase c = true).
  { intros E. unfold isLowerCase. rewrite Hsig, E, String.eqb_refl. reflexivity. }
  destruct c as [|a r].
  { right; left. split; [reflexivity|]. split; [now apply Hsame | discriminate]. }
  destruct (JS.isASCII a) eqn:Ha.
  { left. exists a, r. unfold JS.lowerCharacter. rewrite Ha. repeat split. }
  assert (Hna : forall a' r', String a r = String a' r' -> JS.isASCII a' = false)
    by (intros a' r' [= <- _]; exact Ha).
  remember (String a r) as c eqn:Ec.
  assert (Hlc : JS.lowerCharacter c
                = match JS.codePoint c with
                  | Some n =>
                      if (n =? 0x130)%N
                      then [JS.fromCodePoint 0x69; JS.fromCodePoint 0x307]
                      else match JS.simpleLowerCase n with
                           | Some m => [JS.fromCodePoint m]
                           | None => [c]
                           end
                  | None => [c]
                  end).
  { subst c. unfold JS.lowerCharacter. rewrite Ha. reflexivity. }
  destruct (JS.codePoint c) as [n|] eqn:En.
  2: { right; left. split; [exact Hlc|]. split; [now apply Hsame | exact Hna]. }
  destruct (n =? 0x130)%N eqn:E130.
  { right; right. rewrite Hlc. split; [|split; [discriminate|]].
    - repeat constructor; assumption.
    - apply N.eqb_eq in E130. subst n. unfold JS.isWhiteSpace. now rewrite En. }
  destruct (JS.simpleLowerCase n) as [m|] eqn:Em.
  2: { right; left. split; [exact Hlc|]. split; [now apply Hsame | exact Hna]. }
  right; right. rewrite Hlc. apply simpleLowerCase_checked in Em.
  unfold mappingChecked in Em. cbn [fst snd] in Em.
  apply andb_prop in Em as [Hm Hk]. split; [|split; [discriminate|]].
  - repeat constructor. exact Hm.
  - unfold JS.isWhiteSpace. rewrite En. now apply negb_true_iff in Hk.
Qed.

End LowerCase.

Section LowerCaseOfStrings.

Lemma lowered_spec (o : string) :
  lowered o = true ->
  isCharacter o = true /\ JS.startsWithContinuation o = false
  /\ isLowerCase o = true /\ hasUpperCase o = false
  /\ JS.isWhiteSpace o = false.
Proof.
  unfold lowered. intros H.
  repeat (apply andb_prop in H as [H ?]).
  repeat match goal with
         | H : negb _ = true |- _ => apply negb_true_iff in H
         end.
  auto.
Qed.

Lemma Forall_lowered (P : string -> Prop) (l : list string) :
  (forall o, lowered o = true -> P o) ->
  Forall (fun o => lowered o = true) l -> Forall P l.
Proof. intros H Hl. induction Hl; constructor; auto. Qed.

Lemma lowerCharacterAt_nonempty (before : bool) (c : string) (ahead : list string) :
  JS.lowerCharacterAt before c ahead <> [].
Proof.
  destruct (lowerCharacterAt_cases before c ahead)
    as [(a & r & _ & _ & ->)|[(-> & _)|(_ & H & _)]]; (discriminate || exact H).
Qed.

Lemma lowerCharacterAt_isCharacter (before : bool) (c : string) (ahead : list string) :
  isCharacter c = true ->
  Forall (fun o => isCharacter o = true) (JS.lowerCharacterAt before c ahead).
Proof.
  intros Hc.
  destruct (lowerCharacterAt_cases before c ahead)
    as [(a & r & -> & _ & ->)|[(-> & _)|(H & _)]].
  - now repeat constructor.
  - now repeat constructor.
  - apply (Forall_lowered _ _ (fun o Ho => proj1 (lowered_spec o Ho)) H).
Qed.

Lemma lowerCharacterAt_start (before : bool) (c : string) (ahead : list string) :
  Forall (fun o => JS.startsWithContinuation o = false)
    (tl (JS.lowerCharacterAt before c ahead))
  /\ (JS.startsWithContinuation c = false ->
      Forall (fun o => JS.startsWithContinuation o = false)
        (JS.lowerCharacterAt before c ahead)).
Proof.
  destruct (lowerCharacterAt_cases before c ahead)
    as [(a & r & -> & Ha & ->)|[(-> & _)|(H & _)]].
  - split; [constructor|]. intros _. repeat constructor.
    cbn [JS.startsWithContinuation]. apply isContinuation_ascii.
    now apply isASCII_lowerChar.
  - split; [constructor|]. intros Hc. now repeat constructor.
  - assert (Hall : Forall (fun o => JS.startsWithContinuation o = false)
                     (JS.lowerCharacterAt before c ahead))
      by (apply (Forall_lowered _ _ (fun o Ho => proj1 (proj2 (lowered_spec o Ho))) H)).
    split; [|intros _; exact Hall].
    destruct (JS.lowerCharacterAt before c ahead); [constructor|].
    cbn [tl]. now apply Forall_cons in Hall as [_ Hall].
Qed.

Lemma isLowerCase_ascii (a : ascii) (r : string) :
  JS.isASCII a = true -> isLowerCase (String (JS.lowerChar a) r) = true.
Proof.
  intros Ha. destruct (isASCII_lowerChar a Ha) as (H1 & H2 & _).
  unfold isLowerCase. rewrite (eqb_capitalSigma_ascii _ r H1).
  unfold JS.lowerCharacter. rewrite H1, H2, String.eqb_refl. reflexivity.
Qed.

Lemma lowerCharacterAt_isLowerCase (before : bool) (c : string) (ahead : list string) :
  Forall (fun o => isLowerCase o = true) (JS.lowerCharacterAt before c ahead).
Proof.
  destruct (lowerCharacterAt_cases before c ahead)
    as [(a & r & -> & Ha & ->)|[(-> & Hl & _)|(H & _)]].
  - repeat constructor. now apply isLowerCase_ascii.
  - now repeat constructor.
  - apply (Forall_lowered _ _
             (fun o Ho => proj1 (proj2 (proj2 (lowered_spec o Ho)))) H).
Qed.

Lemma lowerCharacterAt_hasUpperCase (before : bool) (c : string) (ahead : list string) :
  isCharacter c = true ->
  Forall (fun o => hasUpperCase o = false) (JS.lowerCharacterAt before c ahead).
Proof.
  intros Hc.
  destruct (lowerCharacterAt_cases before c ahead)
    as [(a & r & -> & Ha & ->)|[(-> & _ & Hna)|(H & _)]].
  - repeat constructor. cbn [hasUpperCase isCharacter] in *.
    rewrite (hasUpperCase_continuation r Hc).
    now rewrite (proj2 (proj2 (isASCII_lowerChar a Ha))).
  - repeat constructor. destruct c as [|a r]; [discriminate|].
    cbn [hasUpperCase isCharacter] in *.
    rewrite (hasUpperCase_continuation r Hc).
    now rewrite (isUpperCase_ascii a (Hna a r eq_refl)).
  - apply (Forall_lowered _ _
             (fun o Ho => proj1 (proj2 (proj2 (proj2 (lowered_spec o Ho))))) H).
Qed.

Lemma lowerCharacterAt_whiteSpace (before : bool) (c : string) (ahead : list string) :
  (JS.isWhiteSpace c = true -> JS.lowerCharacterAt before c ahead = [c])
  /\ (JS.isWhiteSpace c = false ->
      Forall (fun o => JS.isWhiteSpace o = false)
        (JS.lowerCharacterAt before c ahead)).
Proof.
  destruct (lowerCharacterAt_cases before c ahead)
    as [(a & r & -> & Ha & ->)|[(-> & _)|(H & _ & Hw)]].
  - destruct (isWhiteSpace_ascii a r Ha) as [H1 H2]. split.
    + intros Hw. now rewrite (H2 Hw).
    + intros Hw. repeat constructor. now rewrite H1.
  - split; [reflexivity|]. intros Hw. now repeat constructor.
  - split; [congruence|]. intros _.
    apply (Forall_lowered _ _
             (fun o Ho => proj2 (proj2 (proj2 (proj2 (lowered_spec o Ho))))) H).
Qed.

Lemma whiteSpace_checked : forallb whiteSpaceChecked JS.whiteSpace = true.
Proof. vm_compute. reflexivity. Qed.

Lemma caseClass_whiteSpace (c : string) :
  JS.isWhiteSpace c = true -> JS.caseClass c <> JS.Cased.
Proof.
  unfold JS.isWhiteSpace, JS.caseClass.
  destruct (JS.codePoint c) as [n|]; [|discriminate].
  intros H. apply existsb_exists in H as (k & Hin & Hk).
  apply N.eqb_eq in Hk. subst k.
  pose proof whiteSpace_checked as Hall. rewrite forallb_forall in Hall.
  specialize (Hall n Hin). unfold whiteSpaceChecked in Hall.
  destruct (JS.inRanges n JS.caseIgnorable); [discriminate|].
  destruct (JS.inRanges n JS.cased); [discriminate Hall | discriminate].
Qed.

Lemma lowerCharacters_cons (before : bool) (c : string) (l : list string) :
  JS.lowerCharacters before (c :: l)
  = (JS.lowerCharacterAt before c l
     ++ JS.lowerCharacters (JS.precededByCased before c) l)%list.
Proof. reflexivity. Qed.

Lemma lowerCharacters_Forall (P Q : string -> Prop) (l : list string) :
  (forall before c ahead, Q c -> Forall P (JS.lowerCharacterAt before c ahead)) ->
  Forall Q l -> forall before, Forall P (JS.lowerCharacters before l).
Proof.
  intros H Hl. induction Hl as [|c l Hc Hl IH]; intros before; [constructor|].
  rewrite lowerCharacters_cons. apply Forall_app. split; [now apply H | apply IH].
Qed.

Lemma wellFormed_lowerCharacters (before : bool) (l : list string) :
  wellFormed l -> wellFormed (JS.lowerCharacters before l).
Proof.
  intros [Hc Ht]. split.
  - apply (lowerCharacters_Forall _ (fun c => isCharacter c = true)); [|exact Hc].
    intros b c ahead. apply lowerCharacterAt_isCharacter.
  - destruct l as [|c l]; [constructor|]. cbn [tl] in Ht.
    rewrite lowerCharacters_cons.
    pose proof (lowerCharacterAt_nonempty before c l) as Hne.
    destruct (lowerCharacterAt_start before c l) as [Htl _].
    destruct (JS.lowerCharacterAt before c l) as [|o out]; [congruence|].
    cbn [app tl] in *. apply Forall_app. split; [exact Htl|].
    apply (lowerCharacters_Forall _ (fun c => JS.startsWithContinuation c = false));
      [|exact Ht].
    intros b c' ahead. apply lowerCharacterAt_start.
Qed.

Lemma lowerCharacterAt_fixed (before : bool) (c : string) (ahead : list string) :
  isLowerCase c = true -> JS.lowerCharacterAt before c ahead = [c].
Proof.
  unfold isLowerCase, JS.lowerCharacterAt. intros H.
  apply andb_prop in H as [Hs Hl]. apply negb_true_iff in Hs. rewrite Hs.
  destruct (JS.lowerCharacter c) as [|o [|? ?]]; try discriminate.
  apply String.eqb_eq in Hl. now subst o.
Qed.

Lemma lowerCharacters_fixed (before : bool) (l : list string) :
  Forall (fun c => isLowerCase c = true) l -> JS.lowerCharacters before l = l.
Proof.
  intros H. revert before. induction H as [|c l Hc Hl IH]; intros before;
    [reflexivity|].
  now rewrite lowerCharacters_cons, (lowerCharacterAt_fixed _ _ _ Hc), IH.
Qed.

Lemma toLowerCase_idem (s : string) :
  JS.toLowerCase (JS.toLowerCase s) = JS.toLowerCase s.
Proof.
  unfold JS.toLowerCase.
  rewrite characters_join
    by apply wellFormed_lowerCharacters, wellFormed_characters.
  rewrite lowerCharacters_fixed; [reflexivity|].
  apply (lowerCharacters_Forall _ (fun _ => True)).
  - intros b c ahead _. apply lowerCharacterAt_isLowerCase.
  - apply Forall_forall. trivial.
Qed.

Lemma hasUpperCase_join (l : list string) :
  Forall (fun o => hasUpperCase o = false) l -> hasUpperCase (JS.join l) = false.
Proof.
  induction 1 as [|c l Hc Hl IH]; [reflexivity|].
  now rewrite join_cons, hasUpperCase_app, Hc, IH.
Qed.

Lemma hasUpperCase_toLowerCase (s : string) :
  hasUpperCase (JS.toLowerCase s) = false.
Proof.
  unfold JS.toLowerCase. apply hasUpperCase_join.
  apply (lowerCharacters_Forall _ (fun c => isCharacter c = true)).
  - intros b c ahead. apply lowerCharacterAt_hasUpperCase.
  - apply wellFormed_characters.
Qed.

End LowerCaseOfStrings.

(** *** White space *)

Section Trim.

Lemma dropEnd_cons (c : string) (l : list string) :
  JS.dropEnd (c :: l)
  = match JS.dropEnd l with
    | [] => if JS.isWhiteSpace c then [] else [c]
    | t => c :: t
    end.
Proof. reflexivity. Qed.

Lemma dropStart_head (l : list string) :
  JS.dropStart l = []
  \/ exists c t, JS.dropStart l = c :: t /\ JS.isWhiteSpace c = false.
Proof.
  induction l as [|c l IH]; [now left|]. cbn [JS.dropStart].
  destruct (JS.isWhiteSpace c) eqn:E; [exact IH|].
  right. now exists c, l.
Qed.

Lemma dropEnd_head (c : string) (t : list string) :
  JS.isWhiteSpace c = false -> exists t', JS.dropEnd (c :: t) = c :: t'.
Proof.
  intros H. rewrite dropEnd_cons, H. destruct (JS.dropEnd t); eexists; reflexivity.
Qed.

Lemma dropEnd_idem (l : list string) : JS.dropEnd (JS.dropEnd l) = JS.dropEnd l.
Proof.
  induction l as [|c l IH]; [reflexivity|].
  rewrite dropEnd_cons. destruct (JS.dropEnd l) as [|a r] eqn:E.
  - destruct (JS.isWhiteSpace c) eqn:Ec; [reflexivity|].
    rewrite dropEnd_cons. cbn [JS.dropEnd]. now rewrite Ec.
  - rewrite dropEnd_cons. now rewrite IH.
Qed.

Lemma dropBoth_idem (l : list string) :
  JS.dropEnd (JS.dropStart (JS.dropEnd (JS.dropStart l)))
  = JS.dropEnd (JS.dropStart l).
Proof.
  destruct (dropStart_head l) as [E|(c & t & E & Hc)]; rewrite E; [reflexivity|].
  destruct (dropEnd_head c t Hc) as [t' Et]. rewrite Et.
  cbn [JS.dropStart]. rewrite Hc. rewrite <- Et. apply dropEnd_idem.
Qed.

Lemma dropEnd_app (o l : list string) :
  JS.dropEnd (o ++ l)
  = match JS.dropEnd l with
    | [] => JS.dropEnd o
    | t => (o ++ t)%list
    end.
Proof.
  induction o as [|x o IH].
  - cbn [app]. now destruct (JS.dropEnd l).
  - change ((x :: o) ++ l)%list with (x :: (o ++ l))%list.
    rewrite dropEnd_cons, IH. destruct (JS.dropEnd l) as [|y t].
    + now rewrite dropEnd_cons.
    + now destruct o.
Qed.

Lemma dropEnd_fixed (o : list string) :
  Forall (fun c => JS.isWhiteSpace c = false) o -> JS.dropEnd o = o.
Proof.
  induction 1 as [|c o Hc Ho IH]; [reflexivity|].
  rewrite dropEnd_cons, IH, Hc. now destruct o.
Qed.

Lemma dropEnd_prefix (l : list string) :
  exists r, l = (JS.dropEnd l ++ r)%list.
Proof.
  induction l as [|c l [r IH]]; [now exists []|].
  rewrite dropEnd_cons. destruct (JS.dropEnd l) as [|y t].
  - destruct (JS.isWhiteSpace c); [now exists (c :: l)|].
    exists l. reflexivity.
  - exists r. cbn [app] in *. now rewrite <- IH.
Qed.

Lemma wellFormed_dropStart (l : list string) :
  wellFormed l -> wellFormed (JS.dropStart l).
Proof.
  induction l as [|c l IH]; intros H; [exact H|]. cbn [JS.dropStart].
  destruct (JS.isWhiteSpace c); [|exact H].
  apply IH. now apply wellFormed_tail in H.
Qed.

Lemma wellFormed_prefix (a b : list string) :
  wellFormed (a ++ b) -> wellFormed a.
Proof.
  intros [H1 H2]. apply Forall_app in H1 as [H1 _]. split; [exact H1|].
  destruct a as [|c a]; [constructor|]. cbn [app tl] in *.
  now apply Forall_app in H2 as [H2 _].
Qed.

Lemma wellFormed_dropEnd (l : list string) :
  wellFormed l -> wellFormed (JS.dropEnd l).
Proof.
  intros H. destruct (dropEnd_prefix l) as [r Hr]. rewrite Hr in H.
  now apply wellFormed_prefix in H.
Qed.

Lemma trim_idem (s : string) : JS.trim (JS.trim s) = JS.trim s.
Proof.
  unfold JS.trim.
  rewrite characters_join
    by apply wellFormed_dropEnd, wellFormed_dropStart, wellFormed_characters.
  now rewrite dropBoth_idem.
Qed.

Lemma followedByCased_cons (c : string) (l : list string) :
  JS.followedByCased (c :: l)
  = match JS.caseClass c with
    | JS.CaseIgnorable => JS.followedByCased l
    | JS.Cased => true
    | JS.Uncased => false
    end.
Proof. reflexivity. Qed.

Lemma followedByCased_dropEnd (l : list string) :
  JS.followedByCased (JS.dropEnd l) = JS.followedByCased l.
Proof.
  induction l as [|c l IH]; [reflexivity|].
  rewrite dropEnd_cons, (followedByCased_cons c l).
  destruct (JS.dropEnd l) as [|y t].
  - rewrite <- IH. destruct (JS.isWhiteSpace c) eqn:W.
    + pose proof (caseClass_whiteSpace c W) as Hc.
      now destruct (JS.caseClass c).
    + rewrite followedByCased_cons. now destruct (JS.caseClass c).
  - now rewrite followedByCased_cons, IH.
Qed.

Lemma lowerCharacterAt_dropEnd (before : bool) (c : string) (l : list string) :
  JS.lowerCharacterAt before c (JS.dropEnd l) = JS.lowerCharacterAt before c l.
Proof. unfold JS.lowerCharacterAt. now rewrite followedByCased_dropEnd. Qed.

Lemma dropEnd_lowerCharacters (before : bool) (l : list string) :
  JS.dropEnd (JS.lowerCharacters before l)
  = JS.lowerCharacters before (JS.dropEnd l).
Proof.
  revert before. induction l as [|c l IH]; intros before; [reflexivity|].
  rewrite lowerCharacters_cons, dropEnd_app, IH, dropEnd_cons.
  rewrite <- (lowerCharacterAt_dropEnd before c l).
  destruct (JS.dropEnd l) as [|y t].
  - cbn [JS.lowerCharacters].
    destruct (lowerCharacterAt_whiteSpace before c []) as [Hw Hn].
    destruct (JS.isWhiteSpace c) eqn:W.
    + rewrite (Hw eq_refl). rewrite dropEnd_cons. cbn [JS.dropEnd]. now rewrite W.
    + rewrite (dropEnd_fixed _ (Hn eq_refl)).
      rewrite lowerCharacters_cons. cbn [JS.lowerCharacters].
      now rewrite app_nil_r.
  - rewrite (lowerCharacters_cons before c (y :: t)).
    pose proof (lowerCharacterAt_nonempty (JS.precededByCased before c) y t) as Hne.
    rewrite (lowerCharacters_cons _ y t).
    destruct (JS.lowerCharacterAt (JS.precededByCased before c) y t);
      [congruence | reflexivity].
Qed.

Lemma dropStart_lowerCharacters (l : list string) :
  JS.dropStart (JS.lowerCharacters false l)
  = JS.lowerCharacters false (JS.dropStart l).
Proof.
  induction l as [|c l IH]; [reflexivity|].
  rewrite lowerCharacters_cons. cbn [JS.dropStart].
  destruct (lowerCharacterAt_whiteSpace false c l) as [Hw Hn].
  destruct (JS.isWhiteSpace c) eqn:W.
  - rewrite (Hw eq_refl). cbn [app JS.dropStart]. rewrite W.
    replace (JS.precededByCased false c) with false; [exact IH|].
    unfold JS.precededByCased. pose proof (caseClass_whiteSpace c W) as Hc.
    now destruct (JS.caseClass c).
  - rewrite lowerCharacters_cons.
    pose proof (lowerCharacterAt_nonempty false c l) as Hne.
    specialize (Hn eq_refl).
    destruct (JS.lowerCharacterAt false c l) as [|o out]; [congruence|].
    apply Forall_cons in Hn as [Ho _]. cbn [app JS.dropStart]. now rewrite Ho.
Qed.

Lemma trim_toLowerCase (s : string) :
  JS.trim (JS.toLowerCase s) = JS.toLowerCase (JS.trim s).
Proof.
  unfold JS.trim, JS.toLowerCase.
  rewrite characters_join
    by apply wellFormed_lowerCharacters, wellFormed_characters.
  rewrite characters_join
    by apply wellFormed_dropEnd, wellFormed_dropStart, wellFormed_characters.
  now rewrite dropStart_lowerCharacters, dropEnd_lowerCharacters.
Qed.

End Trim.

Section Suffix.

Lemma followedByCased_uncased (l : list string) (c : string) (u : list string) :
  JS.caseClass c = JS.Uncased ->
  JS.followedByCased (l ++ c :: u) = JS.followedByCased l.
Proof.
  intros Hc. induction l as [|x l IH].
  - cbn [app JS.followedByCased]. now rewrite Hc.
  - change ((x :: l) ++ c :: u)%list with (x :: (l ++ c :: u))%list.
    now rewrite !followedByCased_cons, IH.
Qed.

Lemma lowerCharacters_uncased (before : bool) (l : list string) (c : string)
    (u : list string) :
  JS.caseClass c = JS.Uncased ->
  String.eqb c JS.capitalSigma = false ->
  JS.lowerCharacters before (l ++ c :: u)
  = (JS.lowerCharacters before l ++ JS.lowerCharacters false (c :: u))%list.
Proof.
  intros Hc Hs. revert before. induction l as [|x l IH]; intros before.
  - cbn [app JS.lowerCharacters]. unfold JS.lowerCharacterAt, JS.precededByCased.
    now rewrite Hs, Hc.
  - change ((x :: l) ++ c :: u)%list with (x :: (l ++ c :: u))%list.
    rewrite !lowerCharacters_cons, IH, <- app_assoc. f_equal.
    unfold JS.lowerCharacterAt. now rewrite followedByCased_uncased.
Qed.

(** Lower-casing goes through a concatenation at an uncased
    character. *)
Lemma toLowerCase_app (s t : string) (c : string) (u : list string) :
  JS.characters t = c :: u ->
  JS.caseClass c = JS.Uncased ->
  String.eqb c JS.capitalSigma = false ->
  JS.startsWithContinuation t = false ->
  JS.toLowerCase (s ++ t) = JS.toLowerCase s ++ JS.toLowerCase t.
Proof.
  intros Ht Hc Hs Hn. unfold JS.toLowerCase.
  rewrite (characters_app s t Hn), Ht.
  now rewrite (lowerCharacters_uncased _ _ _ _ Hc Hs), join_app.
Qed.

Lemma toLowerCase_Nigeria (s : string) :
  JS.toLowerCase (s ++ ", Nigeria") = JS.toLowerCase s ++ ", nigeria".
Proof.
  rewrite (toLowerCase_app s ", Nigeria" "," (JS.characters " Nigeria"));
    reflexivity.
Qed.

Lemma toLowerCase_Lagos_Nigeria (s : string) :
  JS.toLowerCase (s ++ ", Lagos, Nigeria")
  = JS.toLowerCase s ++ ", lagos, nigeria".
Proof.
  rewrite (toLowerCase_app s ", Lagos, Nigeria" "," (JS.characters " Lagos, Nigeria"));
    reflexivity.
Qed.

End Suffix.

(** *** Substrings *)

Section StringFacts.

Lemma startsWith_app (p t : string) : JS.startsWith (p ++ t) p = true.
Proof.
  induction p as [|a p IH]; simpl; [reflexivity|].
  now rewrite Ascii.eqb_refl.
Qed.

Lemma startsWith_inv (s p : string) :
  JS.startsWith s p = true -> exists t, s = p ++ t.
Proof.
  revert s; induction p as [|a p IH]; intros s H.
  - now exists s.
  - destruct s as [|b s]; simpl in H; [discriminate|].
    apply andb_prop in H as [Hab Hp].
    apply Ascii.eqb_eq in Hab; subst b.
    destruct (IH _ Hp) as [t ->]. now exists t.
Qed.

Lemma includes_startsWith (s p : string) :
  JS.startsWith s p = true -> JS.includes s p = true.
Proof. intros H. destruct s; simpl; now rewrite H. Qed.

(** [includes] decides the occurrence of a substring. *)
Lemma includes_spec (s p : string) :
  JS.includes s p = true <-> exists pre post, s = pre ++ p ++ post.
Proof.
  split.
  - induction s as [|c s IH]; simpl; intros H.
    + rewrite orb_false_r in H. apply startsWith_inv in H as [t Ht].
      exists "", t. exact Ht.
    + apply orb_prop in H as [H|H].
      * apply startsWith_inv in H as [t Ht]. exists "", t. exact Ht.
      * destruct (IH H) as (pre & post & ->).
        now exists (String c pre), post.
  - intros (pre & post & ->).
    induction pre as [|c pre IH].
    + change ("" ++ p ++ post) with (p ++ post).
      apply includes_startsWith, startsWith_app.
    + simpl. rewrite IH. apply orb_true_r.
Qed.

Lemma includes_app_r (s t p : string) :
  JS.includes t p = true -> JS.includes (s ++ t) p = true.
Proof.
  intros H. induction s as [|c s IH]; simpl; [exact H|].
  rewrite IH. apply orb_true_r.
Qed.

(** A pattern without the character [c] cannot reach across a [c]. *)
Lemma startsWith_sep (p s t : string) (c : ascii) :
  JS.hasChar c p = false ->
  JS.startsWith (s ++ String c t) p = JS.startsWith s p.
Proof.
  revert s; induction p as [|a p IH]; intros s H; [reflexivity|].
  simpl in H. apply orb_false_elim in H as [Hac Hp].
  destruct s as [|b s]; simpl.
  - now rewrite Hac.
  - now rewrite IH.
Qed.

Lemma includes_sep (p s t : string) (c : ascii) :
  JS.hasChar c p = false ->
  JS.includes t p = false ->
  JS.includes (s ++ String c t) p = JS.includes s p.
Proof.
  intros Hc Ht. induction s as [|b s IH].
  - change ("" ++ String c t) with (String c t).
    cbn [JS.includes]. rewrite Ht.
    change (String c t) with ("" ++ String c t).
    now rewrite startsWith_sep.
  - change (String b s ++ String c t) with (String b (s ++ String c t)).
    cbn [JS.includes]. rewrite IH.
    change (String b (s ++ String c t)) with (String b s ++ String c t).
    now rewrite startsWith_sep.
Qed.

Lemma existsb_false {A} (f : A -> bool) (l : list A) :
  (forall x, In x l -> f x = false) -> existsb f l = false.
Proof.
  induction l as [|x l IH]; intros H; simpl; [reflexivity|].
  rewrite H by now left. apply IH. intros y Hy. apply H. now right.
Qed.

Lemma existsb_ext_in {A} (f g : A -> bool) (l : list A) :
  (forall x, In x l -> f x = g x) -> existsb f l = existsb g l.
Proof.
  induction l as [|x l IH]; intros H; simpl; [reflexivity|].
  rewrite H by now left. f_equal. apply IH. intros y Hy. apply H. now right.
Qed.

End StringFacts.

(** *** Facts about the qualifier *)

Lemma lagosAreas_separable :
  forallb (fun area => separable (JS.toLowerCase area)) lagosAreas = true.
Proof. vm_compute. reflexivity. Qed.

Lemma includes_Nigeria_suffix (location p : string) :
  separable p = true ->
  JS.includes (JS.toLowerCase (location ++ ", Nigeria")) p
  = JS.includes (JS.toLowerCase location) p.
Proof.
  intros H. apply andb_prop in H as [H1 H2].
  apply negb_true_iff in H1, H2.
  rewrite toLowerCase_Nigeria.
  change ", nigeria" with (String "," " nigeria").
  now apply includes_sep.
Qed.

Lemma isUnqualifiedLagosArea_Nigeria (location : string) :
  isUnqualifiedLagosArea (location ++ ", Nigeria")
  = isUnqualifiedLagosArea location.
Proof.
  unfold isUnqualifiedLagosArea. apply existsb_ext_in. intros area Hin.
  pose proof lagosAreas_separable as Hsep.
  rewrite forallb_forall in Hsep. specialize (Hsep area Hin).
  rewrite (includes_Nigeria_suffix location (JS.toLowerCase area) Hsep).
  now rewrite (includes_Nigeria_suffix location "lagos").
Qed.

Lemma includes_lagos_qualified (location : string) :
  JS.includes (JS.toLowerCase (location ++ ", Lagos, Nigeria")) "lagos" = true.
Proof. rewrite toLowerCase_Lagos_Nigeria. now apply includes_app_r. Qed.

Lemma includes_nigeria_Lagos (location : string) :
  JS.includes (JS.toLowerCase (location ++ ", Lagos, Nigeria")) "nigeria" = true.
Proof. rewrite toLowerCase_Lagos_Nigeria. now apply includes_app_r. Qed.

Lemma includes_nigeria_Nigeria (location : string) :
  JS.includes (JS.toLowerCase (location ++ ", Nigeria")) "nigeria" = true.
Proof. rewrite toLowerCase_Nigeria. now apply includes_app_r. Qed.

Lemma isUnqualifiedLagosArea_mentions_lagos (location : string) :
  JS.includes (JS.toLowerCase location) "lagos" = true ->
  isUnqualifiedLagosArea location = false.
Proof.
  intros H. unfold isUnqualifiedLagosArea. apply existsb_false.
  intros area _. rewrite H. apply andb_false_r.
Qed.

Lemma isUnqualifiedLagosArea_spec (location : string) :
  isUnqualifiedLagosArea location = true <->
  mentionsLagosArea location /\ ~ mentions location "lagos".
Proof.
  unfold isUnqualifiedLagosArea, mentionsLagosArea, mentions.
  rewrite existsb_exists. split.
  - intros (area & Hin & H). apply andb_prop in H as [Ha Hl].
    apply negb_true_iff in Hl. split.
    + exists area. split; [exact Hin|]. now apply includes_spec.
    + intros Hm. apply includes_spec in Hm. congruence.
  - intros [(area & Hin & Ha) Hl]. exists area. split; [exact Hin|].
    apply andb_true_intro. split.
    + now apply includes_spec.
    + apply negb_true_iff. apply not_true_is_false.
      intros Hm. apply Hl. now apply includes_spec.
Qed.

(** ** The qualifier *)

(** C2.  The qualifier on the three locations of the specification, and
    in general: a location that mentions one of the twenty Lagos areas
    and does not mention "lagos" gets [", Lagos, Nigeria"]; any other
    location gets [", Nigeria"] exactly when it does not mention
    "nigeria", and is returned as it is otherwise. *)
Theorem addLocationQualifier_cases :
  addLocationQualifier "Ikeja" = "Ikeja, Lagos, Nigeria"
  /\ addLocationQualifier "Lekki, Lagos" = "Lekki, Lagos, Nigeria"
  /\ addLocationQualifier "Paris" = "Paris, Nigeria"
  /\ List.length lagosAreas = 20%nat
  /\ forall location : string,
       (mentionsLagosArea location /\ ~ mentions location "lagos" ->
        addLocationQualifier location = location ++ ", Lagos, Nigeria")
       /\ (~ (mentionsLagosArea location /\ ~ mentions location "lagos") ->
           (~ mentions location "nigeria" ->
            addLocationQualifier location = location ++ ", Nigeria")
           /\ (mentions location "nigeria" ->
               addLocationQualifier location = location)).
Proof.
  repeat split; try reflexivity.
  - intros H. apply isUnqualifiedLagosArea_spec in H.
    unfold addLocationQualifier. now rewrite H.
  - intros Hn. unfold addLocationQualifier.
    destruct (isUnqualifiedLagosArea location) eqn:E.
    + exfalso. apply H. now apply isUnqualifiedLagosArea_spec.
    + destruct (JS.includes (JS.toLowerCase location) "nigeria") eqn:En;
        [|reflexivity].
      exfalso. apply Hn. now apply includes_spec.
  - intros Hn. unfold addLocationQualifier.
    destruct (isUnqualifiedLagosArea location) eqn:E.
    + exfalso. apply H. now apply isUnqualifiedLagosArea_spec.
    + apply includes_spec in Hn. unfold mentions in Hn. now rewrite Hn.
Qed.

Lemma addLocationQualifier_cases_witness :
  addLocationQualifier "Yaba market" = "Yaba market" ++ ", Lagos, Nigeria"
  /\ addLocationQualifier "Abuja" = "Abuja" ++ ", Nigeria"
  /\ addLocationQualifier "Ikeja, Lagos, Nigeria" = "Ikeja, Lagos, Nigeria".
Proof.
  destruct addLocationQualifier_cases as (_ & _ & _ & _ & H).
  split; [|split].
  - apply (H "Yaba market"). apply isUnqualifiedLagosArea_spec. reflexivity.
  - apply (H "Abuja").
    + intros E. apply isUnqualifiedLagosArea_spec in E. discriminate E.
    + intros E. apply includes_spec in E. discriminate E.
  - apply (H "Ikeja, Lagos, Nigeria").
    + intros E. apply isUnqualifiedLagosArea_spec in E. discriminate E.
    + apply includes_spec. reflexivity.
Defined.

(** The match is on the lower-cased text: a location written with the
    Kelvin sign for a k mentions Ikeja. *)
Example addLocationQualifier_kelvin :
  addLocationQualifier "IKeja" = "IKeja, Lagos, Nigeria"
  /\ addLocationQualifier "LAGOS island" = "LAGOS island, Nigeria".
Proof. vm_compute. split; reflexivity. Qed.

(** C9.  The qualifier is idempotent: its result mentions "nigeria", and
    "lagos" too when the Lagos branch produced it, so that a second pass
    adds nothing. *)
Theorem addLocationQualifier_idempotent (location : string) :
  addLocationQualifier (addLocationQualifier location)
  = addLocationQualifier location
  /\ JS.includes (JS.toLowerCase (addLocationQualifier location)) "nigeria" = true
  /\ (isUnqualifiedLagosArea location = true ->
      JS.includes (JS.toLowerCase (addLocationQualifier location)) "lagos" = true).
Proof.
  destruct (isUnqualifiedLagosArea location) eqn:E.
  - assert (Hout : addLocationQualifier location = location ++ ", Lagos, Nigeria")
      by (unfold addLocationQualifier; now rewrite E).
    rewrite Hout. repeat split.
    + unfold addLocationQualifier.
      rewrite (isUnqualifiedLagosArea_mentions_lagos _ (includes_lagos_qualified location)).
      now rewrite includes_nigeria_Lagos.
    + apply includes_nigeria_Lagos.
    + intros _. apply includes_lagos_qualified.
  - destruct (JS.includes (JS.toLowerCase location) "nigeria") eqn:En.
    + assert (Hout : addLocationQualifier location = location)
        by (unfold addLocationQualifier; now rewrite E, En).
      rewrite Hout. repeat split; [exact Hout | exact En | discriminate].
    + assert (Hout : addLocationQualifier location = location ++ ", Nigeria")
        by (unfold addLocationQualifier; now rewrite E, En).
      rewrite Hout. repeat split; [|apply includes_nigeria_Nigeria|discriminate].
      unfold addLocationQualifier.
      rewrite isUnqualifiedLagosArea_Nigeria, E.
      now rewrite includes_nigeria_Nigeria.
Qed.

Lemma addLocationQualifier_idempotent_witness :
  addLocationQualifier (addLocationQualifier "Surulere")
  = addLocationQualifier "Surulere"
  /\ JS.includes (JS.toLowerCase (addLocationQualifier "Surulere")) "lagos" = true.
Proof.
  destruct (addLocationQualifier_idempotent "Surulere") as (H1 & _ & H3).
  split; [exact H1 | apply H3; reflexivity].
Defined.

(** ** Distances and durations *)

Ltac qnorm :=
  unfold Qdiv in *; change (/ 1000)%Q with (1 # 1000)%Q in *.

Lemma ltb_spec (x y : Q) : Num.ltb x y = true <-> (x < y)%Q.
Proof.
  unfold Num.ltb. rewrite negb_true_iff, <- not_true_iff_false, Qle_bool_iff.
  split; [apply Qnot_le_lt | apply Qlt_not_le].
Qed.

Lemma ltb_false (x y : Q) : Num.ltb x y = false <-> (y <= x)%Q.
Proof.
  unfold Num.ltb. now rewrite negb_false_iff, Qle_bool_iff.
Qed.

(** C4.  A distance of [v] metres, that is of [d = v / 1000] kilometres,
    falls in exactly one of the four buckets: nearby below 3 km, short
    from 3 km to below 10 km, medium from 10 km to below 30 km, long from
    30 km on; 2.999 km is nearby and 3.000 km is short. *)
Theorem getDistanceContext_buckets :
  (forall (t : string) (v : Q),
     let d := (v / 1000)%Q in
     let bucket := getDistanceContext (Some {| text := t; value := Some v |}) in
     (bucket = "nearby" /\ (d < 3)%Q)
     \/ (bucket = "short" /\ (3 <= d)%Q /\ (d < 10)%Q)
     \/ (bucket = "medium" /\ (10 <= d)%Q /\ (d < 30)%Q)
     \/ (bucket = "long" /\ (30 <= d)%Q))
  /\ getDistanceContext (Some {| text := "3.0 km"; value := Some 2999%Q |}) = "nearby"
  /\ getDistanceContext (Some {| text := "3.0 km"; value := Some 3000%Q |}) = "short".
Proof.
  split; [|split; reflexivity].
  intros t v d bucket. subst d bucket.
  unfold getDistanceContext, Num.orElse. cbn [value].
  destruct (Qeq_bool v 0) eqn:Ez.
  - apply Qeq_bool_iff in Ez. left. split; [reflexivity|]. qnorm. lra.
  - destruct (Num.ltb (v / 1000) 3) eqn:E3.
    { apply ltb_spec in E3. left. now split. }
    apply ltb_false in E3.
    destruct (Num.ltb (v / 1000) 10) eqn:E10.
    { apply ltb_spec in E10. right; left. now repeat split. }
    apply ltb_false in E10.
    destruct (Num.ltb (v / 1000) 30) eqn:E30.
    { apply ltb_spec in E30. right; right; left. now repeat split. }
    apply ltb_false in E30.
    right; right; right. now split.
Qed.

(** C10.  Without a distance, or without its [value], the distance counts
    as 0 metres and the bucket is nearby; the function is defined on
    every input. *)
Theorem getDistanceContext_absent :
  getDistanceContext None = "nearby"
  /\ (forall t : string,
        getDistanceContext (Some {| text := t; value := None |}) = "nearby")
  /\ (forall distance : option TextValue,
        In (getDistanceContext distance) ["nearby"; "short"; "medium"; "long"]).
Proof.
  split; [reflexivity|]. split; [reflexivity|].
  intros distance. unfold getDistanceContext.
  repeat match goal with |- context [if ?b then _ else _] => destruct b end;
    simpl; tauto.
Qed.

(** The order of the binary64 numbers is transitive. *)
Lemma SFleb_trans (x y z : spec_float) :
  SFleb x y = true -> SFleb y z = true -> SFleb x z = true.
Proof.
  unfold SFleb, SFcompare.
  destruct x as [sx|sx| |sx mx ex], y as [sy|sy| |sy my ey], z as [sz|sz| |sz mz ez];
    try destruct sx; try destruct sy; try destruct sz;
    try discriminate; try reflexivity;
    change (PosDef.Pos.compare_cont Eq) with Pos.compare;
    repeat match goal with
           | |- context [(?a ?= ?b)%Z] => destruct (Z.compare_spec a b)
           | |- context [(?a ?= ?b)%positive] => destruct (Pos.compare_spec a b)
           end;
    cbn; try discriminate; try reflexivity; intros; lia.
Qed.

Lemma leb_trans (x y z : float) :
  (x <=? y)%float = true -> (y <=? z)%float = true -> (x <=? z)%float = true.
Proof. rewrite !FloatAxioms.leb_spec. apply SFleb_trans. Qed.

(** Beyond a threshold is beyond the lower ones. *)
Lemma leb_above (x lower upper : float) :
  (lower <=? upper)%float = true ->
  (x <=? upper)%float = false -> (x <=? lower)%float = false.
Proof.
  intros Hc Hx. destruct (x <=? lower)%float eqn:E; [|reflexivity].
  now rewrite (leb_trans x lower upper E Hc) in Hx.
Qed.

Lemma truthy_spec (x : option float) :
  Binary64.truthy x = false <->
  x = None
  \/ exists v, x = Some v
               /\ (PrimFloat.is_zero v = true \/ PrimFloat.is_nan v = true).
Proof.
  destruct x as [v|]; cbn [Binary64.truthy].
  - rewrite negb_false_iff, orb_true_iff. split.
    + intros H. right. now exists v.
    + intros [H|(v' & [= <-] & H)]; [discriminate | exact H].
  - split; [now left | reflexivity].
Qed.

Lemma truthy_number (v : float) :
  PrimFloat.is_zero v = false -> PrimFloat.is_nan v = false ->
  Binary64.truthy (Some v) = true.
Proof. intros Hz Hn. cbn [Binary64.truthy]. now rewrite Hz, Hn. Qed.

(** C3.  The status is Unknown exactly when a duration is absent, zero
    or not a number.  Otherwise, with the percentage of increase as the
    engine computes it in binary64, [(traffic - normal) / normal * 100],
    the status is Light up to 10, Moderate up to 30, Heavy up to 50 and
    Severe beyond (or when the percentage is not a number), and so it
    never decreases when the percentage increases. *)
Theorem getTrafficStatus_spec :
  (forall normalDuration trafficDuration : option float,
     getTrafficStatus normalDuration trafficDuration = "Unknown" <->
     (normalDuration = None
      \/ exists v, normalDuration = Some v
                   /\ (PrimFloat.is_zero v = true \/ PrimFloat.is_nan v = true))
     \/ (trafficDuration = None
         \/ exists v, trafficDuration = Some v
                      /\ (PrimFloat.is_zero v = true \/ PrimFloat.is_nan v = true)))
  /\ (forall n t : float,
        PrimFloat.is_zero n = false -> PrimFloat.is_nan n = false ->
        PrimFloat.is_zero t = false -> PrimFloat.is_nan t = false ->
        let p := ((t - n) / n * 100)%float in
        let label := getTrafficStatus (Some n) (Some t) in
        (label = "Light traffic" <-> (p <=? 10)%float = true)
        /\ (label = "Moderate traffic" <->
            (p <=? 10)%float = false /\ (p <=? 30)%float = true)
        /\ (label = "Heavy traffic" <->
            (p <=? 30)%float = false /\ (p <=? 50)%float = true)
        /\ (label = "Severe traffic" <-> (p <=? 50)%float = false))
  /\ (forall n1 t1 n2 t2 : float,
        PrimFloat.is_zero n1 = false -> PrimFloat.is_nan n1 = false ->
        PrimFloat.is_zero t1 = false -> PrimFloat.is_nan t1 = false ->
        PrimFloat.is_zero n2 = false -> PrimFloat.is_nan n2 = false ->
        PrimFloat.is_zero t2 = false -> PrimFloat.is_nan t2 = false ->
        ((t1 - n1) / n1 * 100 <=? (t2 - n2) / n2 * 100)%float = true ->
        (severity (getTrafficStatus (Some n1) (Some t1))
         <= severity (getTrafficStatus (Some n2) (Some t2)))%nat).
Proof.
  assert (H13 : (10 <=? 30)%float = true) by reflexivity.
  assert (H35 : (30 <=? 50)%float = true) by reflexivity.
  assert (Hlabel : forall n t : float,
    PrimFloat.is_zero n = false -> PrimFloat.is_nan n = false ->
    PrimFloat.is_zero t = false -> PrimFloat.is_nan t = false ->
    getTrafficStatus (Some n) (Some t)
    = if ((t - n) / n * 100 <=? 10)%float then "Light traffic"
      else if ((t - n) / n * 100 <=? 30)%float then "Moderate traffic"
      else if ((t - n) / n * 100 <=? 50)%float then "Heavy traffic"
      else "Severe traffic").
  { intros n t Zn Nn Zt Nt. unfold getTrafficStatus.
    now rewrite (truthy_number n Zn Nn), (truthy_number t Zt Nt). }
  split; [|split].
  - intros n t. rewrite <- !truthy_spec. unfold getTrafficStatus.
    destruct (Binary64.truthy n), (Binary64.truthy t); cbn [negb orb];
      try (split; [intros _; auto | reflexivity]).
    split; [|intros [H|H]; discriminate H].
    repeat match goal with |- context [if ?b then _ else _] => destruct b end;
      discriminate.
  - intros n t Zn Nn Zt Nt p label. subst label.
    rewrite (Hlabel n t Zn Nn Zt Nt). fold p.
    destruct (p <=? 50)%float eqn:E50.
    + destruct (p <=? 30)%float eqn:E30.
      * destruct (p <=? 10)%float eqn:E10;
          repeat split; (discriminate || tauto || (intros [? ?]; discriminate)).
      * rewrite (leb_above p 10 30 H13 E30).
        repeat split; (discriminate || tauto || (intros [? ?]; discriminate)).
    + pose proof (leb_above p 30 50 H35 E50) as E30. rewrite E30.
      rewrite (leb_above p 10 30 H13 E30).
      repeat split; (discriminate || tauto || (intros [? ?]; discriminate)).
  - intros n1 t1 n2 t2 Zn1 Nn1 Zt1 Nt1 Zn2 Nn2 Zt2 Nt2 Hle.
    rewrite (Hlabel n1 t1 Zn1 Nn1 Zt1 Nt1), (Hlabel n2 t2 Zn2 Nn2 Zt2 Nt2).
    set (p1 := ((t1 - n1) / n1 * 100)%float) in *.
    set (p2 := ((t2 - n2) / n2 * 100)%float) in *.
    destruct (p2 <=? 10)%float eqn:B10.
    { now rewrite (leb_trans p1 p2 10 Hle B10). }
    destruct (p2 <=? 30)%float eqn:B30.
    { rewrite (leb_trans p1 p2 30 Hle B30).
      destruct (p1 <=? 10)%float; cbn; lia. }
    destruct (p2 <=? 50)%float eqn:B50.
    { rewrite (leb_trans p1 p2 50 Hle B50).
      destruct (p1 <=? 10)%float; [cbn; lia|].
      destruct (p1 <=? 30)%float; cbn; lia. }
    destruct (p1 <=? 10)%float; [cbn; lia|].
    destruct (p1 <=? 30)%float; [cbn; lia|].
    destruct (p1 <=? 50)%float; cbn; lia.
Qed.

Lemma getTrafficStatus_spec_witness :
  getTrafficStatus (Some 0%float) (Some 900%float) = "Unknown"
  /\ getTrafficStatus (Some 8100000000000009%float) (Some 8910000000000010%float)
     = "Light traffic"
  /\ (severity (getTrafficStatus (Some 600%float) (Some 660%float))
      <= severity (getTrafficStatus (Some 600%float) (Some 900%float)))%nat.
Proof.
  destruct getTrafficStatus_spec as (Hu & Ht & Hm).
  split; [|split].
  - apply Hu. left. right. exists 0%float. split; [reflexivity|].
    left. reflexivity.
  - apply (Ht 8100000000000009%float 8910000000000010%float);
      vm_compute; reflexivity.
  - apply (Hm 600%float 660%float 600%float 900%float); vm_compute; reflexivity.
Defined.

(** The distance thresholds in binary64: the buckets of the whole
    numbers of metres next to each threshold agree with the exact ones. *)
Example binary64_distance_thresholds :
  map Binary64.getDistanceContext
    [0; 2999; 3000; 9999; 10000; 29999; 30000]%float
  = ["nearby"; "nearby"; "short"; "short"; "medium"; "medium"; "long"]
  /\ map (fun v => getDistanceContext (Some {| text := ""; value := Some v |}))
       [0; 2999; 3000; 9999; 10000; 29999; 30000]%Q
     = ["nearby"; "nearby"; "short"; "short"; "medium"; "medium"; "long"].
Proof. split; reflexivity. Qed.

(** The whole numbers of seconds next to each threshold, for a normal
    duration of ten minutes. *)
Example binary64_traffic_thresholds :
  map (fun t => getTrafficStatus (Some 600%float) (Some t))
    [0; 600; 660; 661; 780; 781; 900; 901]%float
  = ["Unknown"; "Light traffic"; "Light traffic"; "Moderate traffic";
     "Moderate traffic"; "Heavy traffic"; "Heavy traffic"; "Severe traffic"].
Proof. reflexivity. Qed.

(** Rounding decides at a threshold: a traffic duration that exceeds the
    normal one by slightly more than a tenth is Light, since the
    percentage rounds to 10; and durations that are infinite or not
    numbers are Severe and Unknown. *)
Example binary64_traffic_rounding :
  ((8910000000000010 - 8100000000000009) / 8100000000000009 * 100 =? 10)%float = true
  /\ getTrafficStatus (Some 8100000000000009%float) (Some 8910000000000010%float)
     = "Light traffic"
  /\ getTrafficStatus (Some infinity) (Some infinity) = "Severe traffic"
  /\ getTrafficStatus (Some nan) (Some 600%float) = "Unknown"
  /\ getTrafficStatus (Some (-0)%float) (Some 600%float) = "Unknown".
Proof. vm_compute. repeat split. Qed.

(** ** Strings, by example *)

Example toLowerCase_trim :
  JS.trim (JS.toLowerCase "  How do I get to LEKKI from Ikeja?  ")
  = "how do i get to lekki from ikeja?".
Proof. reflexivity. Qed.

Example trim_line_ends :
  JS.trim (String LF "traffic_check" ++ String LF "") = "traffic_check".
Proof. reflexivity. Qed.

(** Beyond ASCII: the Kelvin sign becomes the letter k, the capital I
    with dot above an i and a combining dot, accented capitals their
    small letters, and a capital sigma a final sigma at the end of a
    word. *)
Example toLowerCase_unicode :
  map JS.toLowerCase ["IKeja"; "İstanbul"; "ÀÉÎÕÜ"; "ΟΔΥΣΣΕΥΣ"; "ΣΑΣ ΣΑΣ."; "ΑΣ.Β"; "𐐀"]
  = ["ikeja"; "i̇stanbul"; "àéîõü"; "οδυσσευς"; "σας σας."; "ασ.β"; "𐐨"].
Proof. vm_compute. reflexivity. Qed.

(** The white space of ECMAScript: the no-break space, the em space and
    the ideographic space are trimmed like the space. *)
Example trim_unicode :
  JS.trim " 　 Lekki Phase 1  " = "Lekki Phase 1".
Proof. vm_compute. reflexivity. Qed.

Example removeFences_json :
  JS.trim (removeFences 0 ("```json" ++ String LF "{}" ++ String LF "```")) = "{}".
Proof. reflexivity. Qed.

Example removeFences_bare :
  removeFences 0 "```{}```" = "{}".
Proof. reflexivity. Qed.

(** ** Running the monad *)

Section Run.

Context {A B : Type}.

Lemma bind_normal (m : M A) (k : A -> M B) (w w' : World) (a : A) :
  m w = (Normal a, w') -> bind m k w = k a w'.
Proof. intros H. unfold bind. now rewrite H. Qed.

Lemma bind_throw (m : M A) (k : A -> M B) (w w' : World) (e : JsError) :
  m w = (Throw e, w') -> bind m k w = (Throw e, w').
Proof. intros H. unfold bind. now rewrite H. Qed.

Lemma tryCatch_normal (body : M A) (handler : JsError -> M A)
    (w w' : World) (a : A) :
  body w = (Normal a, w') -> tryCatch body handler w = (Normal a, w').
Proof. intros H. unfold tryCatch. now rewrite H. Qed.

Lemma tryCatch_throw (body : M A) (handler : JsError -> M A)
    (w w' : World) (e : JsError) :
  body w = (Throw e, w') -> tryCatch body handler w = handler e w'.
Proof. intros H. unfold tryCatch. now rewrite H. Qed.

End Run.

(** ** The calls to the generative model *)

Section ModelFacts.

Context (env : Env).

Lemma generateText_world (prompt : Prompt) (w : World) :
  snd (generateText env prompt w) = snd (issue env (GenerateContent prompt) w).
Proof.
  unfold generateText. now destruct (generateContent env w prompt).
Qed.

Lemma classifyQuery_run (query : string) (w : World) :
  classifyQuery env query w
  = (Normal match generateContent env w (ClassifyPrompt query) with
            | GenText reply => JS.toLowerCase (JS.trim reply)
            | _ => "directions"
            end,
     snd (issue env (GenerateContent (ClassifyPrompt query)) w)).
Proof.
  unfold classifyQuery, tryCatch, bind, generateText.
  now destruct (generateContent env w (ClassifyPrompt query)).
Qed.

(** C7.  [classifyQuery] never throws.  When the call to the model
    rejects or the text of the reply cannot be read, the category is
    "directions"; otherwise it is the reply, trimmed and lower-cased,
    whatever it says. *)
Theorem classifyQuery_never_throws (query : string) (w : World) :
  exists queryType : string,
    classifyQuery env query w
    = (Normal queryType, snd (issue env (GenerateContent (ClassifyPrompt query)) w))
    /\ match generateContent env w (ClassifyPrompt query) with
       | GenRejected _ => queryType = "directions"
       | GenTextThrows _ => queryType = "directions"
       | GenText reply => queryType = JS.toLowerCase (JS.trim reply)
       end.
Proof.
  rewrite classifyQuery_run.
  destruct (generateContent env w (ClassifyPrompt query)) as [e|e|reply];
    eexists; split; reflexivity.
Qed.

End ModelFacts.

(** A reply outside the four categories goes through as it is. *)
Example classifyQuery_weather :
  fst (classifyQuery (scripted (answering "  Weather " "") (providerSays "OK") None)
         "will it rain in Ikeja?" (startedAt 0))
  = Normal "weather".
Proof. reflexivity. Qed.

Example classifyQuery_model_down :
  fst (classifyQuery (scripted (fun _ => GenRejected unreachable) (providerSays "OK") None)
         "how do I get to Lekki?" (startedAt 0))
  = Normal "directions".
Proof. reflexivity. Qed.

(** ** The handler behind the cache *)

Section ControllerFacts.

Context (env : Env).

Lemma get_world (key : string) (w : World) : snd (routeCache.get key w) = w.
Proof.
  unfold routeCache.get. destruct (cache w !! key) as [[v expires]|]; [|reflexivity].
  now destruct (expires <? now w)%Z.
Qed.

Lemma get_live (key : string) (w : World) (v : CacheValue) (expires : Z) :
  cache w !! key = Some (v, expires) -> (now w <= expires)%Z ->
  routeCache.get key w = (Normal (Some v), w).
Proof.
  intros H Hle. unfold routeCache.get. rewrite H.
  destruct (Z.ltb_spec expires (now w)); [lia | reflexivity].
Qed.

Lemma get_expired (key : string) (w : World) (v : CacheValue) (expires : Z) :
  cache w !! key = Some (v, expires) -> (expires < now w)%Z ->
  routeCache.get key w = (Normal None, w).
Proof.
  intros H Hlt. unfold routeCache.get. rewrite H.
  destruct (Z.ltb_spec expires (now w)); [reflexivity | lia].
Qed.

Lemma set_then_lookup (key : string) (v : CacheValue) (w : World) :
  cache (snd (routeCache.set key v w)) !! key
  = Some (v, (now w + routeCache.stdTTL * 1000)%Z).
Proof. apply lookup_insert_eq. Qed.

(** C1.  A query whose normalised form has an entry that was inserted
    at most five minutes ago is answered from the cache: the response
    is the cached object, and the world is the same afterwards, so that
    nothing was asked of the model or of the provider and nothing was
    stored. *)
Theorem getDirections_cache_hit (w : World) (q : string)
    (cached : CacheValue) (inserted : Z) :
  cache w !! JS.trim (JS.toLowerCase q)
  = Some (cached, (inserted + routeCache.stdTTL * 1000)%Z) ->
  (now w <= inserted + 5 * 60 * 1000)%Z ->
  Controller.getDirections env {| query := Some q |} w
  = (Normal {| code := 200; body := Success cached |}, w)
  /\ calls (snd (Controller.getDirections env {| query := Some q |} w)) = calls w.
Proof.
  intros Hentry Hwindow.
  assert (Hget : routeCache.get (JS.trim (JS.toLowerCase q)) w
                 = (Normal (Some cached), w)).
  { eapply get_live; [exact Hentry|]. unfold routeCache.stdTTL. lia. }
  assert (Hrun : Controller.getDirections env {| query := Some q |} w
                 = (Normal {| code := 200; body := Success cached |}, w)).
  { unfold Controller.getDirections, Controller.getDirections_try, tryCatch, bind.
    cbn [query ret]. now rewrite Hget. }
  split; [exact Hrun | now rewrite Hrun].
Qed.

(** C5.  A request without the query field should get a 400 with
    "Query is required".  In this handler the guard comes after the
    cache key has been computed from the query: without the field the
    computation of the key throws, and the handler answers 500 with the
    message of the engine. *)
Theorem getDirections_missing_query (w : World) :
  Controller.getDirections env {| query := None |} w
  = (Normal {| code := 500;
               body := Failure "Error processing request"
                         (Some "Cannot read properties of undefined (reading 'toLowerCase')") |},
     w).
Proof. reflexivity. Qed.

(** With an empty query the guard is reached. *)
Lemma getDirections_empty_query (w : World) :
  fst (routeCache.get "" w) = Normal None ->
  Controller.getDirections env {| query := Some "" |} w
  = (Normal {| code := 400; body := Failure "Query is required" None |}, w).
Proof.
  intros H.
  unfold Controller.getDirections, Controller.getDirections_try, tryCatch, bind.
  cbn [query ret]. change (JS.trim (JS.toLowerCase "")) with "".
  pose proof (get_world "" w) as Hw.
  destruct (routeCache.get "" w) as [c w']. simpl in H, Hw. subst c w'.
  reflexivity.
Qed.

End ControllerFacts.

(** The handler without a cache checks the query first. *)
Lemma RoutesDirections_missing_query (env : Env) (w : World) :
  RoutesDirections.getDirections env {| query := None |} w
  = (Normal {| code := 400; body := Failure "Query is required" None |}, w).
Proof. reflexivity. Qed.

Lemma getDirections_cache_hit_witness :
  Controller.getDirections lagosModel {| query := Some "  Ikeja to LEKKI " |}
    (servedAtZero 299000)
  = (Normal {| code := 200; body := Success bridgeIsClear |}, servedAtZero 299000).
Proof.
  apply (getDirections_cache_hit lagosModel (servedAtZero 299000)
           "  Ikeja to LEKKI " bridgeIsClear 0).
  - vm_compute. reflexivity.
  - vm_compute. discriminate.
Defined.

(** A first request is served through the model and the provider and is
    stored; the same query in another spelling, five minutes later to the
    millisecond, gets the stored answer and asks nothing of anyone; one
    millisecond later it goes upstream again. *)
Example served_then_repeated :
  let first :=
    Controller.getDirections lekkiModel {| query := Some "Ikeja to Lekki" |}
      (startedAt 0) in
  let stored := now (snd first) in
  let again t :=
    Controller.getDirections lekkiModel {| query := Some " IKEJA to lekki  " |}
      (later t (snd first)) in
  fst first = Normal {| code := 200; body := Success bridgeIsClear |}
  /\ List.length (calls (snd first)) = 4%nat
  /\ again (stored + 300000)%Z
     = (Normal {| code := 200; body := Success bridgeIsClear |},
        later (stored + 300000)%Z (snd first))
  /\ List.length (calls (snd (again (stored + 300001)%Z))) = 8%nat.
Proof. vm_compute. repeat split. Qed.

(** The key is computed on the characters of the text: a no-break space
    in front of the query is trimmed like a space, and a Kelvin sign is
    lower-cased to the letter k, so that such a query is served from the
    entry of the plain one. *)
Example served_in_another_script :
  JS.trim (JS.toLowerCase " IKEJA to LeKKI　") = "ikeja to lekki"
  /\ Controller.getDirections lagosModel
       {| query := Some " IKEJA to LeKKI　" |} (servedAtZero 299000)
     = (Normal {| code := 200; body := Success bridgeIsClear |},
        servedAtZero 299000).
Proof. vm_compute. split; reflexivity. Qed.

(** ** What the handler does with the provider's answer *)

Section ProviderFacts.

Context (env : Env).

Lemma includes_self_suffix (prefix s : string) :
  JS.includes (prefix ++ s) s = true.
Proof.
  apply includes_app_r, includes_startsWith.
  induction s as [|c s IH]; simpl; [reflexivity|].
  now rewrite Ascii.eqb_refl.
Qed.

Lemma classifyQuery_normal (query : string) (w : World) :
  exists queryType,
    classifyQuery env query w = (Normal queryType, snd (classifyQuery env query w)).
Proof.
  rewrite classifyQuery_run. eexists. reflexivity.
Qed.

(** C6, as the handler has it.  Once the query is there, the cache has
    no live entry and the extraction has succeeded: a provider answer
    without data or with a status other than OK is turned into a 500
    whose details are "Invalid response: " followed by the status,
    whatever the status; and when the call to the provider throws, the
    handler answers with the status of the thrown error (500 when it
    has none) and the message of the error as details, so that 404 is
    only ever sent for an error that carries 404. *)
Theorem getDirections_provider_failure (w w1 : World) (q : string)
    (intent : ExtractedIntent) :
  JS.truthy q = true ->
  fst (routeCache.get (JS.trim (JS.toLowerCase q)) w) = Normal None ->
  extractLocationsAndMode env q w = (Normal intent, w1) ->
  let w2 := snd (classifyQuery env q w1) in
  let params :=
    mkParams env (origin intent) (destination intent) (modeConfig intent) in
  let w3 := snd (issue env (MapsDirections params) w2) in
  match directions env w2 params with
  | MapsResolved data =>
      isOK data = false ->
      Controller.getDirections env {| query := Some q |} w
      = (Normal {| code := 500;
                   body := Failure "Error processing request"
                             (Some ("Invalid response: " ++ statusText data)) |},
         w3)
      /\ JS.includes ("Invalid response: " ++ statusText data) (statusText data)
         = true
  | MapsRejected e =>
      Controller.getDirections env {| query := Some q |} w
      = (Normal {| code := statusOr (status e) 500;
                   body := Failure "Error processing request" (Some (message e)) |},
         w3)
  end.
Proof.
  intros Hq Hmiss Hext w2 params w3.
  assert (Hget : routeCache.get (JS.trim (JS.toLowerCase q)) w = (Normal None, w)).
  { pose proof (get_world (JS.trim (JS.toLowerCase q)) w) as Hw.
    destruct (routeCache.get _ w) as [c w']. simpl in Hmiss, Hw. now subst. }
  destruct (classifyQuery_normal q w1) as (queryType & Hcls).
  fold w2 in Hcls.
  destruct (directions env w2 params) as [e|data] eqn:Hdir.
  - assert (Htry : Controller.getDirections_try env {| query := Some q |} w
                   = (Throw e, w3)).
    { unfold Controller.getDirections_try. cbn [query].
      erewrite bind_normal by reflexivity.
      erewrite bind_normal by exact Hget.
      unfold truthyField. rewrite Hq. cbn [negb default id].
      erewrite bind_normal by (unfold settle; rewrite Hext; reflexivity).
      erewrite bind_normal by exact Hcls.
      erewrite bind_normal by reflexivity.
      apply bind_throw.
      unfold mapsClient_directions. fold params. now rewrite Hdir. }
    unfold Controller.getDirections.
    now rewrite (tryCatch_throw _ _ _ _ _ Htry).
  - intros Hok. split; [|apply includes_self_suffix].
    assert (Htry : Controller.getDirections_try env {| query := Some q |} w
                   = (Throw (invalidResponse data), w3)).
    { unfold Controller.getDirections_try. cbn [query].
      erewrite bind_normal by reflexivity.
      erewrite bind_normal by exact Hget.
      unfold truthyField. rewrite Hq. cbn [negb default id].
      erewrite bind_normal by (unfold settle; rewrite Hext; reflexivity).
      erewrite bind_normal by exact Hcls.
      erewrite bind_normal by reflexivity.
      erewrite bind_normal
        by (unfold mapsClient_directions; fold params; rewrite Hdir; reflexivity).
      rewrite Hok. reflexivity. }
    unfold Controller.getDirections.
    now rewrite (tryCatch_throw _ _ _ _ _ Htry).
Qed.

End ProviderFacts.

Lemma getDirections_provider_failure_witness :
  Controller.getDirections lagosModel {| query := Some "Ikeja to Lekki" |} (startedAt 0)
  = (Normal {| code := 500;
               body := Failure "Error processing request"
                         (Some "Invalid response: NOT_FOUND") |},
     {| cache := ∅;
        now := 3000;
        calls :=
          [ GenerateContent (ExtractPrompt "Ikeja to Lekki");
            GenerateContent (ClassifyPrompt "Ikeja to Lekki");
            MapsDirections
              (mkParams lagosModel "Ikeja, Lagos, Nigeria" "Lekki, Lagos, Nigeria"
                 carConfig) ] |}).
Proof.
  refine (proj1
    (getDirections_provider_failure lagosModel (startedAt 0)
       (snd (extractLocationsAndMode lagosModel "Ikeja to Lekki" (startedAt 0)))
       "Ikeja to Lekki" ikejaIntent _ _ _ _)); reflexivity.
Defined.

(** C6 as the specification has it, on both readings: a provider that
    answers NOT_FOUND gets a 500 from the handler, not a 404; and a call
    that throws with status 429 gets a 429, not a 500. *)
Lemma providerStatusClaim_fails : ~ notFoundIs404 /\ ~ otherFailuresAre500.
Proof.
  split; intros H.
  - destruct (H lagosModel (startedAt 0)
                (snd (extractLocationsAndMode lagosModel "Ikeja to Lekki" (startedAt 0)))
                "Ikeja to Lekki" ikejaIntent
                (Some {| Provider.status := "NOT_FOUND"; Provider.routes := [] |})
                eq_refl eq_refl eq_refl eq_refl eq_refl)
      as (error & details & Hrun & _).
    vm_compute in Hrun. discriminate Hrun.
  - destruct (H throttledModel (startedAt 0)
                (snd (extractLocationsAndMode throttledModel "Ikeja to Lekki" (startedAt 0)))
                "Ikeja to Lekki" ikejaIntent overQuota
                eq_refl eq_refl eq_refl eq_refl)
      as (error & details & Hrun).
    vm_compute in Hrun. discriminate Hrun.
Qed.

Example getDirections_not_found :
  fst (Controller.getDirections lagosModel {| query := Some "Ikeja to Lekki" |}
         (startedAt 0))
  = Normal {| code := 500;
              body := Failure "Error processing request"
                        (Some "Invalid response: NOT_FOUND") |}.
Proof. reflexivity. Qed.

Example getDirections_over_quota :
  fst (Controller.getDirections throttledModel {| query := Some "Ikeja to Lekki" |}
         (startedAt 0))
  = Normal {| code := 429;
              body := Failure "Error processing request"
                        (Some "Request failed with status code 429") |}.
Proof. reflexivity. Qed.

(** ** The handler without a cache and the provider *)

Section RoutesDirectionsFacts.

Context (env : Env).

(** The handler without a cache has a branch for 404: it is taken when
    the thrown error has a response with that status, and only then. *)
Lemma RoutesDirections_provider_failure (w w2 : World) (q : string)
    (intent : ExtractedIntent) :
  JS.truthy q = true ->
  let w1 := snd (classifyQuery env q w) in
  extractLocationsAndMode env q w1 = (Normal intent, w2) ->
  let params :=
    mkParams env (origin intent) (destination intent) (modeConfig intent) in
  let w3 := snd (issue env (MapsDirections params) w2) in
  match directions env w2 params with
  | MapsResolved data =>
      isOK data = false ->
      RoutesDirections.getDirections env {| query := Some q |} w
      = (Normal {| code := 500;
                   body := Failure "Internal server error"
                             (Some ("Google Maps API error: Invalid response: "
                                    ++ statusText data)) |},
         w3)
  | MapsRejected e =>
      RoutesDirections.getDirections env {| query := Some q |} w
      = (Normal
           (if RoutesDirections.isNotFound e then
              {| code := 404;
                 body := Failure "Route not found"
                           (Some "Could not find a valid route between the specified locations") |}
            else
              {| code := 500;
                 body := Failure "Internal server error"
                           (Some ("Google Maps API error: " ++ message e)) |}),
         w3)
  end.
Proof.
  intros Hq w1 Hext params w3.
  destruct (classifyQuery_normal env q w) as (queryType & Hcls). fold w1 in Hcls.
  assert (Hstart : forall r,
    tryCatch (RoutesDirections.fetchAndFormat env queryType intent params)
      RoutesDirections.mapsError_catch w2 = r ->
    RoutesDirections.getDirections_try env {| query := Some q |} w = r).
  { intros r <-. unfold RoutesDirections.getDirections_try. cbn [query].
    unfold truthyField. rewrite Hq. cbn [negb default id].
    erewrite bind_normal by exact Hcls.
    erewrite bind_normal by exact Hext.
    reflexivity. }
  unfold RoutesDirections.getDirections.
  destruct (directions env w2 params) as [e|data] eqn:Hdir.
  - assert (Hin : RoutesDirections.fetchAndFormat env queryType intent params w2
                  = (Throw e, w3)).
    { unfold RoutesDirections.fetchAndFormat. apply bind_throw.
      unfold mapsClient_directions. now rewrite Hdir. }
    destruct (RoutesDirections.isNotFound e) eqn:Enf.
    + assert (Htry : RoutesDirections.getDirections_try env {| query := Some q |} w
                     = (Normal
                          (status_json 404
                             (Failure "Route not found"
                                (Some "Could not find a valid route between the specified locations"))),
                        w3)).
      { apply Hstart. rewrite (tryCatch_throw _ _ _ _ _ Hin).
        unfold RoutesDirections.mapsError_catch. now rewrite Enf. }
      now rewrite (tryCatch_normal _ _ _ _ _ Htry).
    + assert (Htry : RoutesDirections.getDirections_try env {| query := Some q |} w
                     = (Throw (Error ("Google Maps API error: " ++ message e)), w3)).
      { apply Hstart. rewrite (tryCatch_throw _ _ _ _ _ Hin).
        unfold RoutesDirections.mapsError_catch. now rewrite Enf. }
      now rewrite (tryCatch_throw _ _ _ _ _ Htry).
  - intros Hok.
    assert (Hin : RoutesDirections.fetchAndFormat env queryType intent params w2
                  = (Throw (invalidResponse data), w3)).
    { unfold RoutesDirections.fetchAndFormat.
      erewrite bind_normal
        by (unfold mapsClient_directions; rewrite Hdir; reflexivity).
      destruct data as [d|]; [|reflexivity]. now rewrite Hok. }
    assert (Htry : RoutesDirections.getDirections_try env {| query := Some q |} w
                   = (Throw (Error ("Google Maps API error: "
                                    ++ message (invalidResponse data))), w3)).
    { apply Hstart. rewrite (tryCatch_throw _ _ _ _ _ Hin). reflexivity. }
    now rewrite (tryCatch_throw _ _ _ _ _ Htry).
Qed.

End RoutesDirectionsFacts.

(** ** The cache is written in one place *)

Section Stable.

Context (env : Env).

Lemma stable_ret {A} (a : A) : stable (ret a).
Proof. intros w. reflexivity. Qed.

Lemma stable_throw {A} (e : JsError) : stable (@throw A e).
Proof. intros w. reflexivity. Qed.

Lemma stable_bind {A B} (m : M A) (k : A -> M B) :
  stable m -> (forall a, stable (k a)) -> stable (bind m k).
Proof.
  intros Hm Hk w. unfold bind. specialize (Hm w).
  destruct (m w) as [[a|e] w1]; simpl in *; [|exact Hm].
  now rewrite Hk.
Qed.

Lemma stable_tryCatch {A} (body : M A) (handler : JsError -> M A) :
  stable body -> (forall e, stable (handler e)) -> stable (tryCatch body handler).
Proof.
  intros Hb Hh w. unfold tryCatch. specialize (Hb w).
  destruct (body w) as [[a|e] w1]; simpl in *; [exact Hb|].
  now rewrite Hh.
Qed.

Lemma stable_settle {A} (m : M A) : stable m -> stable (settle m).
Proof.
  intros Hm w. unfold settle. specialize (Hm w).
  now destruct (m w) as [c w1].
Qed.

Lemma stable_awaitSettled {A} (c : Completion A) : stable (awaitSettled c).
Proof. intros w. reflexivity. Qed.

Lemma stable_generateText (prompt : Prompt) : stable (generateText env prompt).
Proof. intros w. now rewrite generateText_world. Qed.

Lemma stable_mapsClient_directions (params : DirectionsParams) :
  stable (mapsClient_directions env params).
Proof.
  intros w. unfold mapsClient_directions.
  now destruct (directions env w params).
Qed.

Lemma stable_get (key : string) : stable (routeCache.get key).
Proof. intros w. now rewrite get_world. Qed.

Lemma stable_currentTime : stable currentTime.
Proof. intros w. reflexivity. Qed.

End Stable.

Create HintDb stable discriminated.

#[export] Hint Resolve stable_ret stable_throw stable_settle
  stable_awaitSettled stable_generateText stable_mapsClient_directions
  stable_get stable_currentTime : stable.

(** Goes through a computation that is built from stable parts. *)
Ltac stability :=
  repeat first
    [ progress auto with stable
    | apply stable_bind
    | apply stable_tryCatch
    | match goal with
      | |- forall _, stable _ => intro
      | |- stable (if ?b then _ else _) => destruct b
      | |- stable (match ?x with _ => _ end) => destruct x
      | |- stable (let _ := _ in _) => cbv zeta
      end ].

Section StableCalls.

Context (env : Env).

Lemma stable_extractLocationsAndMode (query : string) :
  stable (extractLocationsAndMode env query).
Proof. unfold extractLocationsAndMode. stability. Qed.

Lemma stable_classifyQuery (query : string) : stable (classifyQuery env query).
Proof. unfold classifyQuery. stability. Qed.

Lemma stable_formatDirections (directionsData : Simplified.ResponseData) :
  stable (Controller.formatDirections env directionsData).
Proof. unfold Controller.formatDirections. stability. Qed.

Lemma stable_callFormatting (f : Controller.FormattingFunction)
    (responseData : Simplified.ResponseData) (origin destination : string) :
  stable (Controller.callFormatting env f responseData origin destination).
Proof.
  destruct f; cbn [Controller.callFormatting];
    unfold Controller.formatTrafficCheck, Controller.formatDurationCheck,
      Controller.formatRouteStatus;
    try (apply stable_bind; [|intro]);
    auto using stable_formatDirections with stable.
  destruct (String.eqb name "toString"); auto with stable.
Qed.

End StableCalls.

Section CachesOnSuccess.

Context (env : Env).

Lemma cachesOnSuccess_stable (m : M HttpResponse) :
  stable m -> cachesOnSuccess env m.
Proof.
  intros Hm w. specialize (Hm w). destruct (fst (m w)); auto.
Qed.

Lemma cachesOnSuccess_bind {A} (m : M A) (k : A -> M HttpResponse) :
  stable m -> (forall a, cachesOnSuccess env (k a)) ->
  cachesOnSuccess env (bind m k).
Proof.
  intros Hm Hk w. specialize (Hm w).
  unfold storedThenSent, cachesOnSuccess in *. unfold bind.
  destruct (m w) as [[a|e] w1]; simpl in *; [|exact Hm].
  specialize (Hk a w1). rewrite <- Hm.
  destruct (fst (k a w1)) as [r|e]; [|exact Hk].
  destruct Hk as [Hk|Hk]; [now left | right].
  destruct Hk as (key & entry & f & d & o & dst & wa & wb & H1 & H2 & H3 & H4).
  exists key, entry, f, d, o, dst, wa, wb. auto.
Qed.

Lemma cachesOnSuccess_tryCatch (body : M HttpResponse)
    (handler : JsError -> M HttpResponse) :
  cachesOnSuccess env body -> (forall e, stable (handler e)) ->
  cachesOnSuccess env (tryCatch body handler).
Proof.
  intros Hb Hh w. specialize (Hb w).
  unfold storedThenSent, cachesOnSuccess in *. unfold tryCatch.
  destruct (body w) as [[r|e] w1]; simpl in *; [exact Hb|].
  specialize (Hh e w1). rewrite Hb in Hh.
  destruct (fst (handler e w1)); auto.
Qed.

(** The one place where the handler writes to the cache. *)
Lemma cachesOnSuccess_store (f : Controller.FormattingFunction)
    (responseData : Simplified.ResponseData) (origin destination : string)
    (cacheKey queryType : string) :
  cachesOnSuccess env
    (let* formattedResponse :=
       Controller.callFormatting env f responseData origin destination in
     let entry := {| response := formattedResponse; query_type := queryType |} in
     routeCache.set cacheKey entry ;;
     ret (json (Success entry))).
Proof.
  intros w.
  pose proof (stable_callFormatting env f responseData origin destination w) as Hs.
  unfold storedThenSent.
  destruct (Controller.callFormatting env f responseData origin destination w)
    as [[t|e] w2] eqn:E; simpl in Hs.
  - rewrite (bind_normal _ _ _ _ _ E). cbn. right.
    exists cacheKey, {| response := t; query_type := queryType |},
      f, responseData, origin, destination, w, w2.
    auto.
  - rewrite (bind_throw _ _ _ _ _ E). exact Hs.
Qed.

Lemma cachesOnSuccess_try (req : Request) :
  cachesOnSuccess env (Controller.getDirections_try env req).
Proof.
  unfold Controller.getDirections_try.
  apply cachesOnSuccess_bind; [destruct (query req); auto with stable|].
  intros cacheKey. apply cachesOnSuccess_bind; [auto with stable|].
  intros [cached|]; [apply cachesOnSuccess_stable; auto with stable|].
  destruct (negb (truthyField (query req)));
    [apply cachesOnSuccess_stable; auto with stable|].
  apply cachesOnSuccess_bind;
    [apply stable_settle, stable_extractLocationsAndMode|].
  intros extracted. apply cachesOnSuccess_bind; [apply stable_classifyQuery|].
  intros queryType. apply cachesOnSuccess_bind; [auto with stable|].
  intros intent. apply cachesOnSuccess_bind; [auto with stable|].
  intros data. destruct (negb (isOK data));
    [apply cachesOnSuccess_stable; auto with stable|].
  apply cachesOnSuccess_bind; [auto with stable|].
  intros current_time. apply cachesOnSuccess_store.
Qed.

Lemma getDirections_responds (req : Request) (w : World) :
  exists r, fst (Controller.getDirections env req w) = Normal r.
Proof.
  unfold Controller.getDirections, tryCatch.
  destruct (Controller.getDirections_try env req w) as [[r|e] w1];
    eexists; reflexivity.
Qed.


End CachesOnSuccess.


(** [formatDirections] does not throw: when it cannot build its prompt or
    the model fails, its fallback text is the formatted response, which is
    sent with a 200 and stored like any other. *)
Example formatDirections_fallback :
  let run :=
    Controller.getDirections directionsModel {| query := Some "Ikeja to Lekki" |}
      (startedAt 0) in
  let fallback :=
    {| response := FormattedText "Error formatting directions";
       query_type := "directions" |} in
  fst run = Normal {| code := 200; body := Success fallback |}
  /\ cache (snd run) !! "ikeja to lekki" = Some (fallback, 303000%Z).
Proof. vm_compute. split; reflexivity. Qed.

Lemma formattingFails_bridgeModel : formattingFails bridgeModel.
Proof.
  intros w prompt H. exists unreachable.
  destruct prompt; (discriminate H || reflexivity).
Qed.


(** The run behind it: the four calls are made, the last one fails, the
    answer is a 200 with the fallback text, and for five minutes the same
    query gets that text again from the cache, even from a model that
    works. *)
Example formatting_failure_is_replayed :
  let first :=
    Controller.getDirections bridgeModel {| query := Some "Ikeja to Lekki" |}
      (startedAt 0) in
  let again :=
    Controller.getDirections lekkiModel {| query := Some "ikeja to lekki" |}
      (later 300000 (snd first)) in
  fst first = Normal {| code := 200; body := Success errorFormatting |}
  /\ List.length (calls (snd first)) = 4%nat
  /\ generateContent bridgeModel (startedAt 0)
       (StepsPrompt "Head east" ["Head east"] "24.5 km" "1 hour 10 mins")
     = GenRejected unreachable
  /\ cache (snd first) !! "ikeja to lekki" = Some (errorFormatting, 304000%Z)
  /\ again
     = (Normal {| code := 200; body := Success errorFormatting |},
        later 300000 (snd first)).
Proof. vm_compute. repeat split. Qed.

(** ** More on strings *)

Section Normalisation.

(** X1.  The cache key is a normal form: computing the key of a key
    gives the key back, and lower-casing and trimming commute, so that
    the handler (which lower-cases first) and the classifier (which
    trims first) normalise alike. *)
Theorem cacheKeyOf_normal_form (query : string) :
  cacheKeyOf (cacheKeyOf query) = cacheKeyOf query
  /\ JS.trim (JS.toLowerCase query) = JS.toLowerCase (JS.trim query)
  /\ hasUpperCase (cacheKeyOf query) = false.
Proof.
  unfold cacheKeyOf. split; [|split].
  - rewrite (trim_toLowerCase query), toLowerCase_idem.
    now rewrite (trim_toLowerCase (JS.trim query)), trim_idem.
  - apply trim_toLowerCase.
  - rewrite trim_toLowerCase. apply hasUpperCase_toLowerCase.
Qed.

End Normalisation.

(** ** The code fences *)

Section Fences.

Lemma startsWith_backtick (s p : string) :
  JS.hasChar "`" s = false -> JS.startsWith s (String "`" p) = false.
Proof.
  intros H. destruct s as [|c s]; [reflexivity|].
  cbn [JS.startsWith JS.hasChar] in *. apply orb_false_elim in H as [H _].
  rewrite Ascii.eqb_sym, H. reflexivity.
Qed.

Lemma startsWith_cons (a b : ascii) (s p : string) :
  JS.startsWith (String b s) (String a p) = Ascii.eqb a b && JS.startsWith s p.
Proof. reflexivity. Qed.

Lemma removeFences_step (c : ascii) (s : string) :
  Ascii.eqb c "`" = false ->
  JS.startsWith s "```" = false ->
  removeFences 0 (String c s) = String c (removeFences 0 s).
Proof.
  intros Hc Hs. cbn [removeFences].
  change ("```json" ++ String LF "") with (String "`" ("``json" ++ String LF "")).
  rewrite !startsWith_cons, (Ascii.eqb_sym "`" c), Hc, Hs, andb_false_r.
  reflexivity.
Qed.

Lemma removeFences_plain (s : string) :
  JS.hasChar "`" s = false -> removeFences 0 s = s.
Proof.
  induction s as [|c s IH]; intros H; [reflexivity|].
  cbn [JS.hasChar] in H. apply orb_false_elim in H as [Hc Hs].
  rewrite removeFences_step; [now rewrite IH | exact Hc |].
  now apply startsWith_backtick.
Qed.

Lemma removeFences_closing (body : string) :
  JS.hasChar "`" body = false ->
  removeFences 0 (body ++ String LF "```") = body.
Proof.
  induction body as [|c s IH]; intros H; [reflexivity|].
  cbn [JS.hasChar] in H. apply orb_false_elim in H as [Hc Hs].
  change (String c s ++ String LF "```") with (String c (s ++ String LF "```")).
  rewrite removeFences_step; [now rewrite IH | exact Hc |].
  destruct s as [|d s]; [reflexivity|].
  cbn [JS.hasChar] in Hs. apply orb_false_elim in Hs as [Hd _].
  change (String d s ++ String LF "```") with (String d (s ++ String LF "```")).
  now rewrite startsWith_cons, (Ascii.eqb_sym "`" d), Hd.
Qed.

(** X2.  Stripping the code fences: a reply without a backquote is left
    as it is, and a reply that wraps a body without backquotes in
    [```json] and [```] lines is reduced to the body. *)
Theorem removeFences_unwraps (body : string) :
  JS.hasChar "`" body = false ->
  removeFences 0 body = body
  /\ removeFences 0 ("```json" ++ String LF body ++ String LF "```") = body.
Proof.
  intros H. split; [now apply removeFences_plain|].
  change (removeFences 0 ("```json" ++ String LF body ++ String LF "```"))
    with (removeFences 0 (body ++ String LF "```")).
  now apply removeFences_closing.
Qed.

End Fences.

Lemma removeFences_unwraps_witness :
  removeFences 0 ("```json" ++ String LF "{ origin: Ikeja }" ++ String LF "```")
  = "{ origin: Ikeja }".
Proof.
  apply (removeFences_unwraps "{ origin: Ikeja }"). reflexivity.
Defined.

(** ** More on distances *)

Section Buckets.

Lemma getDistanceContext_label (txt : string) (v : Q) :
  getDistanceContext (Some {| text := txt; value := Some v |})
  = if Num.ltb (v / 1000) 3 then "nearby"
    else if Num.ltb (v / 1000) 10 then "short"
    else if Num.ltb (v / 1000) 30 then "medium"
    else "long".
Proof.
  unfold getDistanceContext, Num.orElse. cbn [value].
  destruct (Qeq_bool v 0) eqn:Ez; [|reflexivity].
  apply Qeq_bool_iff in Ez. unfold Num.ltb. now rewrite Ez.
Qed.

(** X5.  The distance bucket never goes down when the distance goes
    up, over all values: negative ones and zero are nearby. *)
Theorem getDistanceContext_monotone (txt1 txt2 : string) (v1 v2 : Q) :
  (v1 <= v2)%Q ->
  (distanceRank (getDistanceContext (Some {| text := txt1; value := Some v1 |}))
   <= distanceRank (getDistanceContext (Some {| text := txt2; value := Some v2 |})))%nat
  /\ ((v1 <= 0)%Q ->
      getDistanceContext (Some {| text := txt1; value := Some v1 |}) = "nearby").
Proof.
  intros Hle. rewrite !getDistanceContext_label. split.
  - destruct (Num.ltb (v1 / 1000) 3) eqn:A3;
      [apply ltb_spec in A3 | apply ltb_false in A3];
    (destruct (Num.ltb (v1 / 1000) 10) eqn:A10;
      [apply ltb_spec in A10 | apply ltb_false in A10]);
    (destruct (Num.ltb (v1 / 1000) 30) eqn:A30;
      [apply ltb_spec in A30 | apply ltb_false in A30]);
    (destruct (Num.ltb (v2 / 1000) 3) eqn:B3;
      [apply ltb_spec in B3 | apply ltb_false in B3]);
    (destruct (Num.ltb (v2 / 1000) 10) eqn:B10;
      [apply ltb_spec in B10 | apply ltb_false in B10]);
    (destruct (Num.ltb (v2 / 1000) 30) eqn:B30;
      [apply ltb_spec in B30 | apply ltb_false in B30]);
    cbn; try lia; exfalso; qnorm; lra.
  - intros Hneg.
    destruct (Num.ltb (v1 / 1000) 3) eqn:A3; [reflexivity|].
    apply ltb_false in A3. exfalso. qnorm. lra.
Qed.

End Buckets.

Lemma getDistanceContext_monotone_witness :
  (distanceRank (getDistanceContext (Some {| text := "2.9 km"; value := Some 2900%Q |}))
   <= distanceRank (getDistanceContext (Some {| text := "12 km"; value := Some 12000%Q |})))%nat.
Proof.
  apply (getDistanceContext_monotone "2.9 km" "12 km" 2900 12000).
  vm_compute. discriminate.
Defined.

(** ** The route data of the two handlers *)

(** X6.  The reduced projection keeps what the formatters look at first:
    it has as many routes as the provider's data, and the distance of the
    first leg of the first route, hence its bucket, is the one that the
    handler without a cache reads from the full data. *)
Theorem simplified_keeps_first_leg (d : Provider.Data) (mode : string)
    (time : Z) (info : list Annotated.TrafficRoute) :
  let simplified :=
    {| Simplified.routes := map Controller.simplifyRoute (Provider.routes d);
       Simplified.mode := mode;
       Simplified.current_time := time |} in
  let annotated :=
    {| Annotated.data := d;
       Annotated.mode := mode;
       Annotated.current_time := time;
       Annotated.traffic_info := info |} in
  Controller.firstLegDistance simplified = RoutesDirections.firstLegDistance annotated
  /\ List.length (Simplified.routes simplified) = List.length (Provider.routes d)
  /\ map (fun r => List.length (Simplified.legs r)) (Simplified.routes simplified)
     = map (fun r => List.length (Provider.legs r)) (Provider.routes d).
Proof.
  cbv zeta. unfold Controller.firstLegDistance, RoutesDirections.firstLegDistance.
  cbn [Simplified.routes Annotated.data]. split; [|split].
  - destruct (Provider.routes d) as [|route rest]; [reflexivity|].
    cbn [map Controller.simplifyRoute Simplified.legs].
    now destruct (Provider.legs route).
  - apply length_map.
  - rewrite map_map. apply map_ext. intros route.
    cbn [Controller.simplifyRoute Simplified.legs]. apply length_map.
Qed.

(** ** The dispatch on the category *)

Lemma isInherited_lower (name : string) :
  isInherited name = true -> hasUpperCase name = false ->
  name = "constructor" \/ name = "__proto__".
Proof.
  unfold isInherited. rewrite existsb_exists.
  intros (n & Hin & Heq) Hup. apply String.eqb_eq in Heq. subst n.
  cbn [In inheritedNames] in Hin.
  repeat (destruct Hin as [<-|Hin]; [first [now left | now right | discriminate Hup]|]).
  contradiction.
Qed.

(** X7.  On what the classifier can hand over, that is on lower-cased
    text, the dispatch yields one of the three special formatters for
    their three names, [Object] for "constructor", [Object.prototype]
    for "__proto__", and [formatDirections] for every other text; no
    other inherited property can be reached. *)
Theorem formattingFunction_of_category (reply : string) :
  let queryType := JS.toLowerCase (JS.trim reply) in
  match Controller.formattingFunction queryType with
  | Controller.FormatTrafficCheck => queryType = "traffic_check"
  | Controller.FormatDurationCheck => queryType = "duration_check"
  | Controller.FormatRouteStatus => queryType = "route_status"
  | Controller.ObjectConstructor => queryType = "constructor"
  | Controller.ObjectPrototype => queryType = "__proto__"
  | Controller.InheritedMethod _ => False
  | Controller.FormatDirections =>
      ~ In queryType ["traffic_check"; "duration_check"; "route_status";
                      "constructor"; "__proto__"]
  end.
Proof.
  cbv zeta. pose proof (hasUpperCase_toLowerCase (JS.trim reply)) as Hup.
  set (queryType := JS.toLowerCase (JS.trim reply)) in *. clearbody queryType.
  unfold Controller.formattingFunction.
  destruct (String.eqb_spec queryType "traffic_check") as [E1|E1]; [exact E1|].
  destruct (String.eqb_spec queryType "duration_check") as [E2|E2]; [exact E2|].
  destruct (String.eqb_spec queryType "route_status") as [E3|E3]; [exact E3|].
  destruct (String.eqb_spec queryType "constructor") as [E4|E4]; [exact E4|].
  destruct (String.eqb_spec queryType "__proto__") as [E5|E5]; [exact E5|].
  destruct (isInherited queryType) eqn:Ei.
  - destruct (isInherited_lower queryType Ei Hup); contradiction.
  - cbn [In]. intuition congruence.
Qed.

(** ** The environment loader *)

(** X8.  [loadEnvironment] succeeds exactly when [dotenv] reports no
    error and both keys are set to a non-empty value; an error of
    [dotenv] makes it fail even when both keys are set. *)
Theorem loadEnvironment_spec (resultError : bool) (processEnv : gmap string string) :
  Environment.loadEnvironment resultError processEnv = true <->
  resultError = false
  /\ (exists k1, processEnv !! "GEMINI_API_KEY" = Some k1 /\ k1 <> "")
  /\ (exists k2, processEnv !! "GOOGLE_MAPS_API_KEY" = Some k2 /\ k2 <> "").
Proof.
  assert (Ht : forall x : option string,
    truthyField x = true <-> exists k, x = Some k /\ k <> "").
  { intros [[|c s]|]; cbn; split.
    - discriminate.
    - intros (k & [= <-] & H). congruence.
    - intros _. eexists. split; [reflexivity | discriminate].
    - reflexivity.
    - discriminate.
    - intros (k & H & _). discriminate H. }
  rewrite <- !Ht. unfold Environment.loadEnvironment.
  destruct resultError; [intuition discriminate|].
  cbn [List.filter Environment.requiredVars].
  destruct (truthyField (processEnv !! "GEMINI_API_KEY"));
    destruct (truthyField (processEnv !! "GOOGLE_MAPS_API_KEY"));
    cbn; intuition discriminate.
Qed.

Lemma loadEnvironment_spec_witness :
  Environment.loadEnvironment false
    (<["GEMINI_API_KEY" := "g"]> (<["GOOGLE_MAPS_API_KEY" := "m"]> ∅)) = true
  /\ Environment.loadEnvironment true
       (<["GEMINI_API_KEY" := "g"]> (<["GOOGLE_MAPS_API_KEY" := "m"]> ∅)) <> true.
Proof.
  split.
  - apply loadEnvironment_spec. split; [reflexivity|].
    split; eexists; (split; [vm_compute; reflexivity | discriminate]).
  - intros H. apply loadEnvironment_spec in H as [H _]. discriminate H.
Defined.

(** ** More on the calls to the generative model *)

Lemma addLocationQualifier_mentions_nigeria (location : string) :
  JS.includes (JS.toLowerCase (addLocationQualifier location)) "nigeria" = true.
Proof.
  unfold addLocationQualifier.
  destruct (isUnqualifiedLagosArea location); [apply includes_nigeria_Lagos|].
  destruct (JS.includes (JS.toLowerCase location) "nigeria") eqn:E; cbn [negb];
    [exact E | apply includes_nigeria_Nigeria].
Qed.

Section ExtractionFacts.

Context (env : Env).

Lemma extractLocationsAndMode_world (query : string) (w : World) :
  snd (extractLocationsAndMode env query w)
  = snd (issue env (GenerateContent (ExtractPrompt query)) w).
Proof.
  unfold extractLocationsAndMode, tryCatch, bind, generateText.
  destruct (generateContent env w (ExtractPrompt query)) as [e|e|reply];
    try reflexivity.
  destruct (JSON_parse env _) as [parsed|]; [|reflexivity].
  now destruct (negb (truthyField (parsed_origin parsed))
                || negb (truthyField (parsed_destination parsed))).
Qed.

Lemma extractLocationsAndMode_throws (query : string) (w : World)
    (e : JsError) :
  fst (extractLocationsAndMode env query w) = Throw e -> e = responseNotDefined.
Proof.
  unfold extractLocationsAndMode, tryCatch, bind, generateText.
  destruct (generateContent env w (ExtractPrompt query)) as [e0|e0|reply];
    cbn; try (intros [= <-]; reflexivity).
  destruct (JSON_parse env _) as [parsed|]; cbn; [|intros [= <-]; reflexivity].
  destruct (negb (truthyField (parsed_origin parsed))
            || negb (truthyField (parsed_destination parsed))); cbn;
    [intros [= <-]; reflexivity | discriminate].
Qed.

(** X9.  Whatever goes wrong in [extractLocationsAndMode] (the call to
    the model, the text of the reply, the parsing, a missing origin or
    destination), the error that leaves it is the one about [response]
    not being defined: it has no status, and the message of the
    original error is not in it. *)
Theorem extractLocationsAndMode_failure (query : string) (w : World)
    (e : JsError) :
  fst (extractLocationsAndMode env query w) = Throw e ->
  e = responseNotDefined
  /\ message e = "response is not defined"
  /\ status e = None.
Proof.
  unfold extractLocationsAndMode, tryCatch, bind.
  destruct (generateText env (ExtractPrompt query) w) as [[reply|e0] w1]; cbn.
  - destruct (JSON_parse env _) as [parsed|]; cbn.
    + destruct (negb (truthyField (parsed_origin parsed))
                || negb (truthyField (parsed_destination parsed))); cbn.
      * intros [= <-]. now repeat split.
      * discriminate.
    + intros [= <-]. now repeat split.
  - intros [= <-]. now repeat split.
Qed.

(** X10.  When [extractLocationsAndMode] returns, the origin and the
    destination both mention "nigeria", the mode is not empty, the
    parameter set is the one of the table for that mode or the one of
    car, and one call, the extraction prompt for the query, has been
    added to the log. *)
Theorem extractLocationsAndMode_success (query : string) (w : World)
    (intent : ExtractedIntent) :
  fst (extractLocationsAndMode env query w) = Normal intent ->
  JS.includes (JS.toLowerCase (origin intent)) "nigeria" = true
  /\ JS.includes (JS.toLowerCase (destination intent)) "nigeria" = true
  /\ mode intent <> ""
  /\ modeConfig intent = default carConfig (modeMapping (mode intent))
  /\ calls (snd (extractLocationsAndMode env query w))
     = (calls w ++ [GenerateContent (ExtractPrompt query)])%list.
Proof.
  intros H. rewrite extractLocationsAndMode_world.
  revert H. unfold extractLocationsAndMode, tryCatch, bind, generateText.
  destruct (generateContent env w (ExtractPrompt query)) as [e0|e0|reply];
    cbn; try discriminate.
  destruct (JSON_parse env _) as [parsed|]; cbn; [|discriminate].
  destruct (negb (truthyField (parsed_origin parsed))
            || negb (truthyField (parsed_destination parsed))); cbn;
    [discriminate|].
  intros [= <-]. cbn [origin destination mode modeConfig].
  repeat split; try apply addLocationQualifier_mentions_nigeria.
  destruct (parsed_mode parsed) as [[|c m]|]; cbn; discriminate.
Qed.

(** X11.  The category that [classifyQuery] returns is in normal form:
    lower-casing it or trimming it again changes nothing. *)
Theorem classifyQuery_normal_form (query : string) (w : World) :
  exists queryType,
    fst (classifyQuery env query w) = Normal queryType
    /\ JS.toLowerCase queryType = queryType
    /\ JS.trim queryType = queryType
    /\ hasUpperCase queryType = false.
Proof.
  rewrite classifyQuery_run. eexists. split; [reflexivity|].
  destruct (generateContent env w (ClassifyPrompt query)) as [e|e|reply];
    try (repeat split; reflexivity).
  split; [apply toLowerCase_idem|]. split.
  - now rewrite trim_toLowerCase, trim_idem.
  - apply hasUpperCase_toLowerCase.
Qed.

Lemma formatDirections_outcome (directionsData : Simplified.ResponseData)
    (w : World) :
  exists t : string,
    fst (Controller.formatDirections env directionsData w) = Normal t
    /\ ((t = "Error formatting directions"
         /\ snd (Controller.formatDirections env directionsData w) = w)
        \/ exists prompt,
             snd (Controller.formatDirections env directionsData w)
             = snd (issue env (GenerateContent prompt) w)).
Proof.
  unfold Controller.formatDirections, tryCatch.
  destruct (Simplified.routes directionsData) as [|route others];
    [eexists; cbn; split; [reflexivity | left; auto]|].
  destruct (Simplified.legs route) as [|leg ?];
    [eexists; cbn; split; [reflexivity | left; auto]|].
  destruct (Simplified.steps leg) as [|first ?];
    [eexists; cbn; split; [reflexivity | left; auto]|].
  destruct (Simplified.leg_distance leg) as [distance|];
    [|eexists; cbn; split; [reflexivity | left; auto]].
  unfold bind.
  destruct (JS.truthy _); cbn [ret].
  - unfold generateText.
    destruct (generateContent env w _); eexists; cbn;
      (split; [reflexivity | right; eexists; reflexivity]).
  - destruct (Simplified.leg_duration leg) as [d|]; cbn [ret throw].
    + unfold generateText.
      destruct (generateContent env w _); eexists; cbn;
        (split; [reflexivity | right; eexists; reflexivity]).
    + eexists; cbn; split; [reflexivity | left; auto].
Qed.

(** X12.  [formatDirections] of the handler behind the cache never
    throws and calls the model at most once; without a first route it
    gives its fallback text and calls nobody. *)
Theorem formatDirections_never_throws (directionsData : Simplified.ResponseData)
    (w : World) :
  exists t : string,
    fst (Controller.formatDirections env directionsData w) = Normal t
    /\ ((t = "Error formatting directions"
         /\ snd (Controller.formatDirections env directionsData w) = w)
        \/ exists prompt,
             snd (Controller.formatDirections env directionsData w)
             = snd (issue env (GenerateContent prompt) w))
    /\ (Simplified.routes directionsData = [] ->
        t = "Error formatting directions"
        /\ snd (Controller.formatDirections env directionsData w) = w).
Proof.
  destruct (formatDirections_outcome directionsData w) as (t & Ht & Hcalls).
  exists t. split; [exact Ht|]. split; [exact Hcalls|].
  intros Hroutes. revert Ht.
  unfold Controller.formatDirections, tryCatch. rewrite Hroutes. cbn.
  intros [= <-]. split; reflexivity.
Qed.

(** X13.  [formatDirections] of the handler without a cache always calls
    the model once; when that fails it throws an error without a status
    whose message starts with "Failed to format directions: ". *)
Theorem RoutesDirections_formatDirections_rethrows
    (directionsData : Annotated.ResponseData) (w : World) :
  snd (RoutesDirections.formatDirections env directionsData w)
  = snd (issue env (GenerateContent (ConversationalPrompt directionsData)) w)
  /\ match fst (RoutesDirections.formatDirections env directionsData w) with
     | Normal t =>
         generateContent env w (ConversationalPrompt directionsData) = GenText t
     | Throw e =>
         status e = None
         /\ exists cause,
              message e = "Failed to format directions: " ++ message cause
              /\ (generateContent env w (ConversationalPrompt directionsData)
                  = GenRejected cause
                  \/ generateContent env w (ConversationalPrompt directionsData)
                     = GenTextThrows cause)
     end.
Proof.
  unfold RoutesDirections.formatDirections, tryCatch, generateText.
  destruct (generateContent env w (ConversationalPrompt directionsData))
    as [e|e|reply]; cbn; split; try reflexivity;
    (split; [reflexivity | exists e; auto]).
Qed.

End ExtractionFacts.

Lemma extractLocationsAndMode_failure_witness :
  message responseNotDefined = "response is not defined".
Proof.
  apply (extractLocationsAndMode_failure brokenModel "Ikeja to Lekki"
           (startedAt 0) responseNotDefined).
  reflexivity.
Defined.

Lemma extractLocationsAndMode_success_witness :
  JS.includes (JS.toLowerCase (origin ikejaIntent)) "nigeria" = true
  /\ mode ikejaIntent <> "".
Proof.
  destruct (extractLocationsAndMode_success lagosModel "Ikeja to Lekki"
              (startedAt 0) ikejaIntent eq_refl) as (H1 & _ & H3 & _).
  split; assumption.
Defined.

Lemma formatDirections_never_throws_witness :
  snd (Controller.formatDirections lagosModel
         {| Simplified.routes := []; Simplified.mode := "car";
            Simplified.current_time := 0 |} (startedAt 0))
  = startedAt 0.
Proof.
  destruct (formatDirections_never_throws lagosModel
              {| Simplified.routes := []; Simplified.mode := "car";
                 Simplified.current_time := 0 |} (startedAt 0))
    as (t & _ & _ & H).
  apply H. reflexivity.
Defined.

(** ** The log of the upstream calls *)

Section Logs.

Context (env : Env).

Lemma emits_still {A} (m : M A) (P : list Upstream -> Prop) :
  (forall w, calls (snd (m w)) = calls w) -> P [] -> emits m P.
Proof. intros H HP w. exists []. now rewrite app_nil_r. Qed.

Lemma emits_bind {A B} (P1 P2 P : list Upstream -> Prop) (m : M A)
    (k : A -> M B) :
  emits m P1 -> (forall a, emits (k a) P2) ->
  (forall l1, P1 l1 -> P l1) ->
  (forall l1 l2, P1 l1 -> P2 l2 -> P (l1 ++ l2)%list) ->
  emits (bind m k) P.
Proof.
  intros Hm Hk H1 H12 w. unfold bind. destruct (Hm w) as (l1 & E1 & L1).
  destruct (m w) as [[a|e] w1]; cbn in *.
  - destruct (Hk a w1) as (l2 & E2 & L2). exists (l1 ++ l2)%list.
    rewrite E2, E1, app_assoc. auto.
  - exists l1. auto.
Qed.

Lemma emits_after {A B} (P : list Upstream -> Prop) (m : M A) (k : A -> M B) :
  (forall w, calls (snd (m w)) = calls w) -> P [] ->
  (forall a, emits (k a) P) -> emits (bind m k) P.
Proof.
  intros Hm HP Hk.
  apply (emits_bind (fun l => l = []) P P); [now apply emits_still | exact Hk | |].
  - now intros l1 ->.
  - now intros l1 l2 ->.
Qed.

Lemma emits_before {A B} (P : list Upstream -> Prop) (m : M A) (k : A -> M B) :
  emits m P -> (forall a w, calls (snd (k a w)) = calls w) ->
  emits (bind m k) P.
Proof.
  intros Hm Hk.
  apply (emits_bind P (fun l => l = []) P); [exact Hm | | auto |].
  - intros a. now apply emits_still.
  - intros l1 l2 H ->. now rewrite app_nil_r.
Qed.

Lemma emits_tryCatch {A} (P : list Upstream -> Prop) (body : M A)
    (handler : JsError -> M A) :
  emits body P -> (forall e w, calls (snd (handler e w)) = calls w) ->
  emits (tryCatch body handler) P.
Proof.
  intros Hb Hh w. unfold tryCatch. destruct (Hb w) as (l & E & L).
  destruct (body w) as [[a|e] w1]; cbn in *; exists l; [auto|].
  now rewrite Hh.
Qed.

Lemma emits_formatting (prompt : Prompt) :
  isFormattingPrompt prompt = true ->
  emits (generateText env prompt) oneFormatting.
Proof.
  intros H w. rewrite generateText_world. exists [GenerateContent prompt].
  split; [reflexivity|]. right. now exists prompt.
Qed.

Lemma emits_mapsClient_directions (params : DirectionsParams) :
  emits (mapsClient_directions env params)
    (fun l => exists p, l = [MapsDirections p]).
Proof.
  intros w. unfold mapsClient_directions. exists [MapsDirections params].
  split; [|now exists params].
  now destruct (directions env w params).
Qed.

Lemma emits_formatDirections (directionsData : Simplified.ResponseData) :
  emits (Controller.formatDirections env directionsData) oneFormatting.
Proof.
  unfold Controller.formatDirections.
  apply emits_tryCatch; [|reflexivity].
  assert (Hnone : forall e, emits (@throw string e) oneFormatting)
    by (intros e; apply emits_still; [reflexivity | now left]).
  destruct (Simplified.routes directionsData) as [|route ?]; [apply Hnone|].
  destruct (Simplified.legs route) as [|leg ?]; [apply Hnone|].
  destruct (Simplified.steps leg) as [|first ?]; [apply Hnone|].
  destruct (Simplified.leg_distance leg) as [distance|]; [|apply Hnone].
  apply emits_after; [|now left|intros duration; now apply emits_formatting].
  intros w. destruct (JS.truthy _); [reflexivity|].
  now destruct (Simplified.leg_duration leg).
Qed.

Lemma emits_callFormatting (f : Controller.FormattingFunction)
    (responseData : Simplified.ResponseData) (origin destination : string) :
  emits (Controller.callFormatting env f responseData origin destination)
    oneFormatting.
Proof.
  assert (Hnone : forall A (m : M A),
            (forall w, calls (snd (m w)) = calls w) -> emits m oneFormatting)
    by (intros A m H; apply emits_still; [exact H | now left]).
  destruct f; cbn [Controller.callFormatting];
    unfold Controller.formatTrafficCheck, Controller.formatDurationCheck,
      Controller.formatRouteStatus;
    try (apply emits_before; [|reflexivity]);
    try (now apply emits_formatting);
    try apply emits_formatDirections;
    try (apply Hnone; reflexivity).
  apply Hnone. intros w. now destruct (String.eqb name "toString").
Qed.

Lemma routeThenFormatting_app (l1 l2 : list Upstream) :
  (exists p, l1 = [MapsDirections p]) -> oneFormatting l2 ->
  routeThenFormatting (l1 ++ l2)%list.
Proof.
  intros [p ->] [->|(prompt & H & ->)].
  - right; left. now exists p.
  - right; right. now exists p, prompt.
Qed.

Lemma routeThenFormatting_spec (a b : Prompt) (l : list Upstream) :
  isFormattingPrompt a = false -> isFormattingPrompt b = false -> a <> b ->
  routeThenFormatting l ->
  (List.length (GenerateContent a :: GenerateContent b :: l) <= 4)%nat
  /\ List.NoDup (GenerateContent a :: GenerateContent b :: l).
Proof.
  intros Ha Hb Hab Hl. split.
  - destruct Hl as [->|[[p ->]|(p & prompt & H & ->)]]; cbn; lia.
  - destruct Hl as [->|[[p ->]|(p & prompt & H & ->)]];
      repeat (apply List.NoDup_cons); try apply List.NoDup_nil; cbn;
      intuition (try discriminate; subst; try discriminate; congruence).
Qed.

End Logs.

(** ** The paths of the handler behind the cache *)

Section ControllerPaths.

Context (env : Env).

Lemma get_normal (key : string) (w : World) :
  exists o, routeCache.get key w = (Normal o, w).
Proof.
  unfold routeCache.get. destruct (cache w !! key) as [[v expires]|];
    [destruct (expires <? now w)%Z|]; eexists; reflexivity.
Qed.

Lemma catch_world (body : M HttpResponse) (w : World) :
  snd (tryCatch body Controller.getDirections_catch w) = snd (body w).
Proof. unfold tryCatch. now destruct (body w) as [[r|e] w1]. Qed.

Lemma catch_result (body : M HttpResponse) (w : World) :
  fst (tryCatch body Controller.getDirections_catch w)
  = Normal match fst (body w) with
           | Normal r => r
           | Throw e => processingError e
           end.
Proof. unfold tryCatch. now destruct (body w) as [[r|e] w1]. Qed.

Lemma cache_hit_run (env0 : Env) (q : string) (w : World) (v : CacheValue) :
  routeCache.get (JS.trim (JS.toLowerCase q)) w = (Normal (Some v), w) ->
  Controller.getDirections env0 {| query := Some q |} w
  = (Normal (json (Success v)), w).
Proof.
  intros H.
  unfold Controller.getDirections, Controller.getDirections_try, tryCatch, bind.
  cbn [query ret]. now rewrite H.
Qed.

Lemma storesUnder_throw (key : string) (e : JsError) :
  storesUnder key (throw e).
Proof. intros w. reflexivity. Qed.

Lemma storesUnder_bind {A} (key : string) (m : M A) (k : A -> M HttpResponse) :
  stable m -> (forall a, storesUnder key (k a)) -> storesUnder key (bind m k).
Proof.
  intros Hm Hk w. specialize (Hm w). unfold bind.
  destruct (m w) as [[a|e] w1]; cbn in *; [|exact Hm].
  specialize (Hk a w1).
  destruct (fst (k a w1)) as [r|e]; [|congruence].
  destruct Hk as (entry & wf & -> & H2 & H3).
  exists entry, wf. repeat split; [exact H2 | congruence].
Qed.

Lemma storesUnder_store (f : Controller.FormattingFunction)
    (responseData : Simplified.ResponseData) (origin destination : string)
    (cacheKey queryType : string) :
  storesUnder cacheKey
    (let* formattedResponse :=
       Controller.callFormatting env f responseData origin destination in
     let entry := {| response := formattedResponse; query_type := queryType |} in
     routeCache.set cacheKey entry ;;
     ret (json (Success entry))).
Proof.
  intros w.
  pose proof (stable_callFormatting env f responseData origin destination w) as Hs.
  destruct (Controller.callFormatting env f responseData origin destination w)
    as [[t|e] w2] eqn:E; simpl in Hs.
  - rewrite (bind_normal _ _ _ _ _ E). cbn.
    exists {| response := t; query_type := queryType |}, w2. auto.
  - rewrite (bind_throw _ _ _ _ _ E). exact Hs.
Qed.

(** The run of the [try] block on a query that is there, not empty and
    not in the cache: the two calls to the model, then [rest]. *)
Lemma try_miss_run (q : string) (w : World) :
  JS.truthy q = true ->
  routeCache.get (JS.trim (JS.toLowerCase q)) w = (Normal None, w) ->
  exists rest : Completion ExtractedIntent -> string -> M HttpResponse,
    let w1 := snd (issue env (GenerateContent (ExtractPrompt q)) w) in
    let w2 := snd (issue env (GenerateContent (ClassifyPrompt q)) w1) in
    Controller.getDirections_try env {| query := Some q |} w
    = rest (fst (extractLocationsAndMode env q w))
           (match generateContent env w1 (ClassifyPrompt q) with
            | GenText reply => JS.toLowerCase (JS.trim reply)
            | _ => "directions"
            end) w2
    /\ (forall c queryType,
          storesUnder (JS.trim (JS.toLowerCase q)) (rest c queryType))
    /\ (forall e queryType w',
          rest (Throw e) queryType w' = (Throw e, w'))
    /\ (forall c queryType, emits (rest c queryType) routeThenFormatting).
Proof.
  intros Hq Hget.
  unfold Controller.getDirections_try. cbn [query].
  erewrite bind_normal by reflexivity.
  erewrite bind_normal by exact Hget.
  unfold truthyField. rewrite Hq. cbn [negb default id].
  match goal with
  | |- context [bind (settle _) (fun extracted => bind _ (fun queryType => @?k extracted queryType))] =>
      exists k
  end.
  cbv zeta. split; [|split; [|split]].
  - pose proof (extractLocationsAndMode_world env q w) as Hw.
    destruct (extractLocationsAndMode env q w) as [c w1] eqn:Ex. cbn in Hw. subst w1.
    erewrite bind_normal by (unfold settle; rewrite Ex; reflexivity).
    erewrite bind_normal by apply classifyQuery_run.
    reflexivity.
  - intros c queryType.
    apply storesUnder_bind; [apply stable_awaitSettled|].
    intros intent. apply storesUnder_bind; [apply stable_mapsClient_directions|].
    intros data. destruct (negb (isOK data)); [apply storesUnder_throw|].
    apply storesUnder_bind; [apply stable_currentTime|].
    intros current_time. apply storesUnder_store.
  - intros e queryType w'. reflexivity.
  - intros c queryType.
    apply emits_after; [now destruct c | now left|].
    intros intent.
    apply (emits_bind (fun l => exists p, l = [MapsDirections p]) oneFormatting);
      [apply emits_mapsClient_directions | | |apply routeThenFormatting_app].
    + intros data. destruct (negb (isOK data));
        [apply emits_still; [reflexivity | now left]|].
      apply emits_after; [reflexivity | now left|].
      intros current_time. apply emits_before; [|reflexivity].
      apply emits_callFormatting.
    + intros l1 H. right; left. exact H.
Qed.

(** X14.  The upstream calls of a request.  Without a query, with an
    empty one or on a cache hit the handler calls nobody.  Otherwise it
    sends the extraction prompt, then the classification prompt, and
    then nothing more, or the request to the provider, or that request
    and one formatting prompt: at most four calls, none of them
    twice. *)
Theorem getDirections_call_budget (req : Request) (w : World) :
  exists l : list Upstream,
    calls (snd (Controller.getDirections env req w)) = (calls w ++ l)%list
    /\ (List.length l <= 4)%nat
    /\ List.NoDup l
    /\ match query req with
       | None => l = []
       | Some q =>
           match fst (routeCache.get (JS.trim (JS.toLowerCase q)) w) with
           | Normal None =>
               if JS.truthy q then
                 exists rest : list Upstream,
                   l = GenerateContent (ExtractPrompt q)
                       :: GenerateContent (ClassifyPrompt q) :: rest
                   /\ (rest = []
                       \/ (exists params, rest = [MapsDirections params])
                       \/ (exists params prompt,
                             isFormattingPrompt prompt = true
                             /\ rest = [MapsDirections params;
                                        GenerateContent prompt]))
               else l = []
           | _ => l = []
           end
       end.
Proof.
  unfold Controller.getDirections. rewrite catch_world.
  assert (Hnil : forall w' (P : list Upstream -> Prop),
    calls w' = calls w -> P [] ->
    exists l : list Upstream,
      calls w' = (calls w ++ l)%list /\ (List.length l <= 4)%nat
      /\ List.NoDup l /\ P l).
  { intros w' P H HP. exists []. rewrite app_nil_r. cbn.
    repeat split; [exact H | lia | constructor | exact HP]. }
  destruct req as [[q|]]; cbn [query]; [|apply Hnil; reflexivity].
  destruct (get_normal (JS.trim (JS.toLowerCase q)) w) as [[v|] Hget];
    rewrite Hget; cbn [fst].
  - apply Hnil; [|reflexivity]. unfold Controller.getDirections_try. cbn [query].
    erewrite bind_normal by reflexivity.
    erewrite bind_normal by exact Hget. reflexivity.
  - destruct (JS.truthy q) eqn:Hq.
    + destruct (try_miss_run q w Hq Hget) as (rest & Hrun & _ & _ & Hemits).
      cbv zeta in Hrun. rewrite Hrun.
      match goal with
      | |- context [rest ?c ?qt ?w2] =>
          destruct (Hemits c qt w2) as (l & Hl & Hshape)
      end.
      exists (GenerateContent (ExtractPrompt q)
              :: GenerateContent (ClassifyPrompt q) :: l).
      destruct (routeThenFormatting_spec (ExtractPrompt q) (ClassifyPrompt q) l
                  eq_refl eq_refl ltac:(discriminate) Hshape) as [Hlen Hdup].
      split; [|split; [exact Hlen | split; [exact Hdup|]]].
      * rewrite Hl. cbn [calls issue snd]. rewrite <- !app_assoc. reflexivity.
      * exists l. split; [reflexivity | exact Hshape].
    + apply Hnil; [|reflexivity]. unfold Controller.getDirections_try. cbn [query].
      erewrite bind_normal by reflexivity.
      erewrite bind_normal by exact Hget.
      unfold truthyField. rewrite Hq. reflexivity.
Qed.

(** X15.  The answers of the handler are of three kinds and no other:
    a 200 with a response and its category; the 400 "Query is required",
    for the empty query only and with nothing done; or the body
    "Error processing request" with the message of an error as details
    and a code that is never 0, the cache being left as it was. *)
Theorem getDirections_answers (req : Request) (w : World) :
  exists r : HttpResponse,
    fst (Controller.getDirections env req w) = Normal r
    /\ ((exists entry, r = {| code := 200; body := Success entry |})
        \/ (r = {| code := 400; body := Failure "Query is required" None |}
            /\ query req = Some ""
            /\ snd (Controller.getDirections env req w) = w)
        \/ (exists e, r = processingError e /\ code r <> 0%Z
            /\ cache (snd (Controller.getDirections env req w)) = cache w)).
Proof.
  assert (Hcode : forall e, code (processingError e) <> 0%Z).
  { intros e. unfold processingError, statusOr. cbn.
    destruct (status e) as [n|]; [|discriminate].
    destruct (Z.eqb_spec n 0); [discriminate | assumption]. }
  unfold Controller.getDirections. rewrite catch_result, catch_world.
  eexists. split; [reflexivity|].
  destruct req as [[q|]].
  - destruct (get_normal (JS.trim (JS.toLowerCase q)) w) as [[v|] Hget].
    + left. exists v. unfold Controller.getDirections_try. cbn [query].
      erewrite bind_normal by reflexivity.
      erewrite bind_normal by exact Hget. reflexivity.
    + destruct (JS.truthy q) eqn:Hq.
      * destruct (try_miss_run q w Hq Hget) as (rest & Hrun & Hst & _).
        cbv zeta in Hrun. rewrite Hrun.
        match goal with
        | |- context [rest ?c ?qt ?w2] =>
            pose proof (Hst c qt w2) as H;
            destruct (fst (rest c qt w2)) as [r|e]
        end.
        -- left. destruct H as (entry & wf & -> & _). now exists entry.
        -- right; right. exists e. repeat split; [apply Hcode | exact H].
      * right; left. destruct q; [|discriminate Hq].
        unfold Controller.getDirections_try. cbn [query].
        erewrite bind_normal by reflexivity.
        erewrite bind_normal by exact Hget. cbn. auto.
  - right; right. eexists. cbn [fst snd Controller.getDirections_try query bind throw].
    repeat split; [apply Hcode].
Qed.

(** X16.  A request that was answered after a cache miss with a response
    makes the next ones hits: for five minutes from the moment of the
    answer, any query with the same cache key, in any spelling and
    whatever the model and the provider would say now, gets the same
    response with code 200, and the world stays as it is. *)
Theorem getDirections_repeat_hit (env' : Env) (q q' : string) (w w2 : World)
    (c : Z) (entry : CacheValue) :
  fst (routeCache.get (cacheKeyOf q) w) = Normal None ->
  fst (Controller.getDirections env {| query := Some q |} w)
  = Normal {| code := c; body := Success entry |} ->
  cacheKeyOf q' = cacheKeyOf q ->
  cache w2 = cache (snd (Controller.getDirections env {| query := Some q |} w)) ->
  (now w2 <= now (snd (Controller.getDirections env {| query := Some q |} w))
             + 5 * 60 * 1000)%Z ->
  Controller.getDirections env' {| query := Some q' |} w2
  = (Normal {| code := 200; body := Success entry |}, w2).
Proof.
  unfold cacheKeyOf. intros Hmiss Hrun Hkey Hcache Hnow.
  assert (Hget : routeCache.get (JS.trim (JS.toLowerCase q)) w = (Normal None, w)).
  { destruct (get_normal (JS.trim (JS.toLowerCase q)) w) as [o Ho].
    rewrite Ho in Hmiss |- *. cbn in Hmiss. congruence. }
  revert Hrun Hcache Hnow.
  unfold Controller.getDirections at 1 2 3. rewrite catch_result, catch_world.
  destruct (JS.truthy q) eqn:Hq.
  - destruct (try_miss_run q w Hq Hget) as (rest & Htry & Hst & _).
    cbv zeta in Htry. rewrite Htry.
    match goal with
    | |- context [rest ?c ?qt ?w2] =>
        pose proof (Hst c qt w2) as H;
        destruct (fst (rest c qt w2)) as [r|e]
    end; [|discriminate].
    destruct H as (entry0 & wf & -> & Hw & _).
    intros [= _ <-] Hcache Hnow. rewrite Hw in Hcache, Hnow.
    apply cache_hit_run. rewrite Hkey.
    apply get_live with (expires := (now wf + routeCache.stdTTL * 1000)%Z).
    + rewrite Hcache. apply lookup_insert_eq.
    + cbn [routeCache.set snd now] in Hnow. unfold routeCache.stdTTL. lia.
  - destruct q; [|discriminate Hq].
    unfold Controller.getDirections_try. cbn [query].
    erewrite bind_normal by reflexivity.
    erewrite bind_normal by exact Hget. cbn. discriminate.
Qed.

(** X17.  When the extraction fails on a query that is not in the cache,
    the classification has been asked for all the same, nothing else is
    called, and the handler answers 500 with "response is not defined"
    as details, whatever the cause of the failure. *)
Theorem getDirections_extraction_failure (q : string) (w : World) (e : JsError) :
  JS.truthy q = true ->
  fst (routeCache.get (cacheKeyOf q) w) = Normal None ->
  fst (extractLocationsAndMode env q w) = Throw e ->
  fst (Controller.getDirections env {| query := Some q |} w)
  = Normal {| code := 500;
              body := Failure "Error processing request"
                        (Some "response is not defined") |}
  /\ calls (snd (Controller.getDirections env {| query := Some q |} w))
     = (calls w ++ [GenerateContent (ExtractPrompt q);
                    GenerateContent (ClassifyPrompt q)])%list
  /\ cache (snd (Controller.getDirections env {| query := Some q |} w)) = cache w.
Proof.
  unfold cacheKeyOf. intros Hq Hmiss Hex.
  assert (Hget : routeCache.get (JS.trim (JS.toLowerCase q)) w = (Normal None, w)).
  { destruct (get_normal (JS.trim (JS.toLowerCase q)) w) as [o Ho].
    rewrite Ho in Hmiss |- *. cbn in Hmiss. congruence. }
  pose proof (extractLocationsAndMode_throws env q w e Hex) as He. subst e.
  unfold Controller.getDirections. rewrite catch_result, catch_world.
  destruct (try_miss_run q w Hq Hget) as (rest & Htry & _ & Hthrow & _).
  cbv zeta in Htry. rewrite Htry, Hex, Hthrow.
  cbn [fst snd]. split; [reflexivity|]. split; [|reflexivity].
  cbn [calls issue snd]. now rewrite <- app_assoc.
Qed.

End ControllerPaths.

Lemma getDirections_repeat_hit_witness :
  Controller.getDirections lagosModel {| query := Some " IKEJA to lekki  " |}
    (later 300000
       (snd (Controller.getDirections lekkiModel
               {| query := Some "Ikeja to Lekki" |} (startedAt 0))))
  = (Normal {| code := 200; body := Success bridgeIsClear |},
     later 300000
       (snd (Controller.getDirections lekkiModel
               {| query := Some "Ikeja to Lekki" |} (startedAt 0)))).
Proof.
  apply (getDirections_repeat_hit lekkiModel lagosModel "Ikeja to Lekki"
           " IKEJA to lekki  " (startedAt 0) _ 200 bridgeIsClear).
  - reflexivity.
  - vm_compute. reflexivity.
  - reflexivity.
  - reflexivity.
  - vm_compute. discriminate.
Defined.

Lemma getDirections_extraction_failure_witness :
  fst (Controller.getDirections brokenModel {| query := Some "Ikeja to Lekki" |}
         (startedAt 0))
  = Normal {| code := 500;
              body := Failure "Error processing request"
                        (Some "response is not defined") |}.
Proof.
  apply (getDirections_extraction_failure brokenModel "Ikeja to Lekki"
           (startedAt 0) responseNotDefined); reflexivity.
Defined.

(** ** The paths of the handler without a cache *)

Section RoutesDirectionsPaths.

Context (env : Env).

Lemma answers_ret (r : HttpResponse) (codes : list Z) :
  In (code r) codes -> answers (ret r) codes.
Proof. intros H w r' w' [= <- _]. exact H. Qed.

Lemma answers_throw (e : JsError) (codes : list Z) : answers (throw e) codes.
Proof. intros w r w' H. discriminate H. Qed.

Lemma answers_bind {A} (m : M A) (k : A -> M HttpResponse) (codes : list Z) :
  (forall a, answers (k a) codes) -> answers (bind m k) codes.
Proof.
  intros Hk w r w'. unfold bind.
  destruct (m w) as [[a|e] w1]; [apply Hk | discriminate].
Qed.

Lemma answers_tryCatch (body : M HttpResponse)
    (handler : JsError -> M HttpResponse) (codes : list Z) :
  answers body codes -> (forall e, answers (handler e) codes) ->
  answers (tryCatch body handler) codes.
Proof.
  intros Hb Hh w r w'. unfold tryCatch.
  destruct (body w) as [[a|e] w1] eqn:E; [|apply Hh].
  intros [= <- <-]. eapply Hb. exact E.
Qed.

Lemma answers_fetchAndFormat (queryType : string) (intent : ExtractedIntent)
    (params : DirectionsParams) :
  answers (tryCatch (RoutesDirections.fetchAndFormat env queryType intent params)
             RoutesDirections.mapsError_catch) [200; 404]%Z.
Proof.
  apply answers_tryCatch.
  - unfold RoutesDirections.fetchAndFormat. apply answers_bind.
    intros [d|]; [|apply answers_throw].
    destruct (negb (isOK (Some d))); [apply answers_throw|].
    apply answers_bind. intros current_time. apply answers_bind.
    intros formatted. apply answers_ret. cbn. auto.
  - intros e. unfold RoutesDirections.mapsError_catch.
    destruct (RoutesDirections.isNotFound e);
      [apply answers_ret; cbn; auto | apply answers_throw].
Qed.

Lemma RoutesDirections_catch_result (body : M HttpResponse) (w : World) :
  fst (tryCatch body RoutesDirections.getDirections_catch w)
  = Normal match fst (body w) with
           | Normal r => r
           | Throw e =>
               status_json 500
                 (Failure "Internal server error" (Some (message e)))
           end.
Proof. unfold tryCatch. now destruct (body w) as [[r|e] w1]. Qed.

Lemma stable_RoutesDirections (req : Request) :
  stable (RoutesDirections.getDirections env req).
Proof.
  unfold RoutesDirections.getDirections, RoutesDirections.getDirections_try,
    RoutesDirections.getDirections_catch, RoutesDirections.mapsError_catch,
    RoutesDirections.fetchAndFormat, RoutesDirections.formatDirections,
    RoutesDirections.formatTrafficCheck, RoutesDirections.formatDurationCheck,
    RoutesDirections.formatRouteStatus.
  stability; auto using stable_classifyQuery, stable_extractLocationsAndMode.
Qed.

(** X18.  The handler without a cache always answers, with one of the
    codes 200, 400, 404 and 500; the code is 400 exactly when the query
    is missing or empty, and then nothing has been called; and the
    cache table is never touched. *)
Theorem RoutesDirections_answers (req : Request) (w : World) :
  exists r : HttpResponse,
    fst (RoutesDirections.getDirections env req w) = Normal r
    /\ In (code r) [200; 400; 404; 500]%Z
    /\ (code r = 400%Z <-> truthyField (query req) = false)
    /\ (truthyField (query req) = false ->
        snd (RoutesDirections.getDirections env req w) = w)
    /\ cache (snd (RoutesDirections.getDirections env req w)) = cache w.
Proof.
  assert (Hst : cache (snd (RoutesDirections.getDirections env req w)) = cache w)
    by apply stable_RoutesDirections.
  assert (Hw : truthyField (query req) = false ->
               snd (RoutesDirections.getDirections env req w) = w).
  { intros Hq.
    unfold RoutesDirections.getDirections, RoutesDirections.getDirections_try,
      tryCatch.
    now rewrite Hq. }
  assert (Hr : exists r : HttpResponse,
    fst (RoutesDirections.getDirections env req w) = Normal r
    /\ In (code r) [200; 400; 404; 500]%Z
    /\ (code r = 400%Z <-> truthyField (query req) = false)).
  { unfold RoutesDirections.getDirections. rewrite RoutesDirections_catch_result.
    eexists. split; [reflexivity|].
    destruct (truthyField (query req)) eqn:Hq.
    - assert (Ha : answers (RoutesDirections.getDirections_try env req) [200; 404]%Z).
      { unfold RoutesDirections.getDirections_try. rewrite Hq. cbn [negb].
        apply answers_bind. intros queryType. apply answers_bind.
        intros intent. apply answers_fetchAndFormat. }
      destruct (RoutesDirections.getDirections_try env req w) as [[r|e] w1] eqn:E;
        cbn.
      + specialize (Ha w r w1 E). cbn in Ha. split; [tauto|].
        split; [intros H; rewrite H in Ha; intuition discriminate | discriminate].
      + split; [tauto|]. split; discriminate.
    - unfold RoutesDirections.getDirections_try. rewrite Hq. cbn.
      split; [tauto|]. split; reflexivity. }
  destruct Hr as (r & H1 & H2 & H3). exists r. auto.
Qed.

Lemma RoutesDirections_catch_world (body : M HttpResponse) (w : World) :
  snd (tryCatch body RoutesDirections.getDirections_catch w) = snd (body w).
Proof. unfold tryCatch. now destruct (body w) as [[r|e] w1]. Qed.

Lemma emits_fetchAndFormat (queryType : string) (intent : ExtractedIntent)
    (params : DirectionsParams) :
  emits (tryCatch (RoutesDirections.fetchAndFormat env queryType intent params)
           RoutesDirections.mapsError_catch) routeThenFormatting.
Proof.
  apply emits_tryCatch.
  - unfold RoutesDirections.fetchAndFormat.
    apply (emits_bind (fun l => exists p, l = [MapsDirections p]) oneFormatting);
      [apply emits_mapsClient_directions | | |apply routeThenFormatting_app].
    + assert (Hnone : forall e, emits (@throw HttpResponse e) oneFormatting)
        by (intros e; apply emits_still; [reflexivity | now left]).
      intros [d|]; [|apply Hnone].
      destruct (negb (isOK (Some d))); [apply Hnone|].
      apply emits_after; [reflexivity | now left|].
      intros current_time. apply emits_before; [|reflexivity].
      unfold RoutesDirections.formatTrafficCheck,
        RoutesDirections.formatDurationCheck,
        RoutesDirections.formatRouteStatus, RoutesDirections.formatDirections.
      repeat match goal with
             | |- emits (if ?b then _ else _) _ => destruct b
             end;
        try (now apply emits_formatting).
      apply emits_tryCatch; [now apply emits_formatting | reflexivity].
    + intros l1 H. right; left. exact H.
  - intros e w'. unfold RoutesDirections.mapsError_catch.
    now destruct (RoutesDirections.isNotFound e).
Qed.

(** X19.  The upstream calls of the handler without a cache.  Without a
    query or with an empty one it calls nobody.  Otherwise it sends the
    classification prompt first and the extraction prompt second, one
    after the other, and then nothing more, or the request to the
    provider, or that request and one formatting prompt: at most four
    calls, none of them twice. *)
Theorem RoutesDirections_call_budget (req : Request) (w : World) :
  exists l : list Upstream,
    calls (snd (RoutesDirections.getDirections env req w)) = (calls w ++ l)%list
    /\ (List.length l <= 4)%nat
    /\ List.NoDup l
    /\ match query req with
       | None => l = []
       | Some q =>
           if JS.truthy q then
             exists rest : list Upstream,
               l = GenerateContent (ClassifyPrompt q)
                   :: GenerateContent (ExtractPrompt q) :: rest
               /\ (rest = []
                   \/ (exists params, rest = [MapsDirections params])
                   \/ (exists params prompt,
                         isFormattingPrompt prompt = true
                         /\ rest = [MapsDirections params;
                                    GenerateContent prompt]))
           else l = []
       end.
Proof.
  unfold RoutesDirections.getDirections. rewrite RoutesDirections_catch_world.
  unfold RoutesDirections.getDirections_try.
  assert (Hnil : forall P : list Upstream -> Prop, P [] ->
    exists l : list Upstream,
      calls w = (calls w ++ l)%list /\ (List.length l <= 4)%nat
      /\ List.NoDup l /\ P l).
  { intros P HP. exists []. rewrite app_nil_r. cbn.
    repeat split; [lia | constructor | exact HP]. }
  destruct req as [[q|]]; cbn [query truthyField negb]; [|now apply Hnil].
  destruct (JS.truthy q) eqn:Hq; cbn [negb]; [|now apply Hnil].
  cbn [default id].
  erewrite bind_normal by apply classifyQuery_run.
  set (w1 := snd (issue env (GenerateContent (ClassifyPrompt q)) w)).
  pose proof (extractLocationsAndMode_world env q w1) as Hw.
  assert (Hrest : exists l,
    calls (snd (bind (extractLocationsAndMode env q)
                  (fun intent =>
                     tryCatch
                       (RoutesDirections.fetchAndFormat env
                          match generateContent env w (ClassifyPrompt q) with
                          | GenText reply => JS.toLowerCase (JS.trim reply)
                          | _ => "directions"
                          end intent
                          (mkParams env (origin intent) (destination intent)
                             (modeConfig intent)))
                       RoutesDirections.mapsError_catch) w1))
    = (calls w ++ GenerateContent (ClassifyPrompt q)
                  :: GenerateContent (ExtractPrompt q) :: l)%list
    /\ routeThenFormatting l).
  { destruct (extractLocationsAndMode env q w1) as [[intent|e] w2] eqn:Ex;
      cbn in Hw; subst w2.
    - rewrite (bind_normal _ _ _ _ _ Ex).
      match goal with
      | |- context [tryCatch (RoutesDirections.fetchAndFormat env ?qt ?i ?p) _ ?w2] =>
          destruct (emits_fetchAndFormat qt i p w2) as (l & Hl & Hshape)
      end.
      exists l. split; [|exact Hshape].
      rewrite Hl. subst w1. cbn [calls issue snd].
      rewrite <- !app_assoc. reflexivity.
    - rewrite (bind_throw _ _ _ _ _ Ex). exists []. split; [|now left].
      subst w1. cbn [calls issue snd]. rewrite <- !app_assoc. reflexivity. }
  destruct Hrest as (l & Hl & Hshape).
  exists (GenerateContent (ClassifyPrompt q)
          :: GenerateContent (ExtractPrompt q) :: l).
  destruct (routeThenFormatting_spec (ClassifyPrompt q) (ExtractPrompt q) l
              eq_refl eq_refl ltac:(discriminate) Hshape) as [Hlen Hdup].
  split; [exact Hl|]. split; [exact Hlen|]. split; [exact Hdup|].
  exists l. split; [reflexivity | exact Hshape].
Qed.

End RoutesDirectionsPaths.

Lemma RoutesDirections_answers_witness :
  snd (RoutesDirections.getDirections lagosModel {| query := Some "" |} (startedAt 0))
  = startedAt 0.
Proof.
  destruct (RoutesDirections_answers lagosModel {| query := Some "" |} (startedAt 0))
    as (r & _ & _ & _ & H & _).
  apply H. reflexivity.
Defined.
